(** * Trixo: a shallow embedding of the project scaffolder

    The development follows the TypeScript sources:
    - [utils/index.ts]            project-name validation,
    - [generators/registry.ts]    the generator registry,
    - [generators/base.generator.ts]  the generation pipeline, the template
      copy filter and the placeholder pass,
    - [generators/fastapi.ts]     the FastAPI generator and its manifest,
    - [config/python-options.ts]  the option catalogue.

    A JavaScript string is modelled by a Rocq [string] whose characters are
    read as UTF-16 code units below 256.  The first part of the file holds
    the definitions, the second part the theorems. *)

From Stdlib Require Import String Ascii List Bool Arith Lia Sorted.
From stdpp Require Import base option list gmap strings.

Local Open Scope bool_scope.
Set Warnings "-register-all".

(** String concatenation unfolds under [simpl] when its first argument
    starts with a constructor. *)
#[local] Arguments String.append !_ _ / : simpl nomatch.

(* ===================================================================== *)
(** * Part I: definitions                                                *)
(* ===================================================================== *)

(** ** JavaScript string primitives used by the sources *)
Module Js.

Definition code (c : ascii) : nat := nat_of_ascii c.

(** The double-quote character (code unit 34). *)
Definition dquote : ascii := ascii_of_nat 34.

Definition chars (s : string) : list ascii := list_ascii_of_string s.

Definition isEmpty (s : string) : bool :=
  match s with EmptyString => true | String _ _ => false end.

(** [WhiteSpace] and [LineTerminator] code units below 256, the ones
    [String.prototype.trim] strips: TAB, LF, VT, FF, CR, SP and NBSP. *)
Definition isWhiteSpace (c : ascii) : bool :=
  let n := code c in
  ((9 <=? n) && (n <=? 13)) || (n =? 32) || (n =? 160).

Fixpoint trimStart (s : string) : string :=
  match s with
  | EmptyString => EmptyString
  | String c s' => if isWhiteSpace c then trimStart s' else s
  end.

Fixpoint trimEnd (s : string) : string :=
  match s with
  | EmptyString => EmptyString
  | String c s' =>
      let r := trimEnd s' in
      if isEmpty r && isWhiteSpace c then EmptyString else String c r
  end.

(** [s.trim()] *)
Definition trim (s : string) : string := trimEnd (trimStart s).

Definition isUpperAZ (c : ascii) : bool := (65 <=? code c) && (code c <=? 90).
Definition isLowerAZ (c : ascii) : bool := (97 <=? code c) && (code c <=? 122).
Definition isDigit (c : ascii) : bool := (48 <=? code c) && (code c <=? 57).

(** Upper-casing of one code unit.  Only the letters a-z are mapped: the
    sources use [toUpperCase] for one purpose, the comparison with a list
    of names over the letters A-Z and digits, and no code unit outside a-z
    upper-cases to one of those letters. *)
Definition upperChar (c : ascii) : ascii :=
  if isLowerAZ c then ascii_of_nat (code c - 32) else c.

Fixpoint toUpperCase (s : string) : string :=
  match s with
  | EmptyString => EmptyString
  | String c s' => String (upperChar c) (toUpperCase s')
  end.

(** Lower-casing of one code unit below 256: A-Z and the Latin-1 capitals
    (192-222 without the multiplication sign 215) move up by 32. *)
Definition lowerChar (c : ascii) : ascii :=
  let n := code c in
  if isUpperAZ c || ((192 <=? n) && (n <=? 222) && negb (n =? 215))
  then ascii_of_nat (n + 32) else c.

Fixpoint toLowerCase (s : string) : string :=
  match s with
  | EmptyString => EmptyString
  | String c s' => String (lowerChar c) (toLowerCase s')
  end.

(** [s.startsWith(p)] *)
Fixpoint startsWith (p s : string) : bool :=
  match p, s with
  | EmptyString, _ => true
  | String a p', String b s' => Ascii.eqb a b && startsWith p' s'
  | String _ _, EmptyString => false
  end.

(** [s.includes(p)] on strings: [p] occurs in [s] as a substring. *)
Fixpoint includes (p s : string) : bool :=
  startsWith p s ||
  match s with
  | EmptyString => false
  | String _ s' => includes p s'
  end.

(** [arr.includes(x)] on an array of strings. *)
Definition arrIncludes (x : string) (arr : list string) : bool :=
  existsb (String.eqb x) arr.

(** [s.slice(n)] for [0 <= n]. *)
Fixpoint dropS (n : nat) (s : string) : string :=
  match n, s with
  | O, _ => s
  | S n', String _ s' => dropS n' s'
  | S _, EmptyString => EmptyString
  end.

(** [GetSubstitution] of ECMAScript for a pattern without capture groups:
    in the replacement text a dollar followed by a dollar stands for one
    dollar, followed by an ampersand for the matched text, followed by a
    backquote for the text before the match, followed by a quote for the
    text after the match; every other character stands for itself. *)
Fixpoint getSubstitution (matched before after replacement : string) : string :=
  match replacement with
  | EmptyString => EmptyString
  | String c r =>
      if Ascii.eqb c "$" then
        match r with
        | String d r' =>
            if Ascii.eqb d "$" then
              String "$" (getSubstitution matched before after r')
            else if Ascii.eqb d "&" then
              matched +:+ getSubstitution matched before after r'
            else if Ascii.eqb d "`" then
              before +:+ getSubstitution matched before after r'
            else if Ascii.eqb d "'" then
              after +:+ getSubstitution matched before after r'
            else String c (getSubstitution matched before after r)
        | EmptyString => String c EmptyString
        end
      else String c (getSubstitution matched before after r)
  end.

(** The scan of [s.replace(new RegExp(pat, 'g'), replacement)] for a
    pattern [pat] that matches itself literally and is not empty: matches
    are taken leftmost and do not overlap.  [before] is the text already
    passed, [skip] the number of code units of the last match still to be
    stepped over. *)
Fixpoint replaceFrom (pat replacement before : string) (skip : nat)
    (s : string) : string :=
  match s with
  | EmptyString => EmptyString
  | String c s' =>
      let before' := before +:+ String c EmptyString in
      match skip with
      | S k => replaceFrom pat replacement before' k s'
      | O =>
          if startsWith pat s then
            getSubstitution pat before (dropS (String.length pat) s) replacement
            +:+ replaceFrom pat replacement before' (String.length pat - 1) s'
          else String c (replaceFrom pat replacement before' 0 s')
      end
  end.

Definition replaceAll (pat replacement s : string) : string :=
  replaceFrom pat replacement EmptyString 0 s.

End Js.

(** ** [path.basename] and [path.join] of Node (POSIX flavour) *)
Module Path.

Definition isSep (c : ascii) : bool := Ascii.eqb c "/".

(** The scan of [basename]: [cur] is the segment being read, [last] the
    last segment that was closed by a separator and is not empty. *)
Fixpoint basenameFrom (cur last s : string) : string :=
  match s with
  | EmptyString => if Js.isEmpty cur then last else cur
  | String c s' =>
      if isSep c
      then basenameFrom EmptyString (if Js.isEmpty cur then last else cur) s'
      else basenameFrom (cur +:+ String c EmptyString) last s'
  end.

Definition basename (p : string) : string :=
  basenameFrom EmptyString EmptyString p.

(** [path.join(dir, name)] for a directory path and an entry name. *)
Definition join (dir name : string) : string := dir +:+ "/" +:+ name.

(** A name without a separator: the name of a directory entry. *)
Definition noSep (name : string) : Prop :=
  Forall (fun c => isSep c = false) (Js.chars name).

End Path.

(** ** The file system the generators work on *)
Module Fs.

(** A path below the target directory: its components. *)
Definition path := list string.

(** A regular file: its text, and whether a read and a write of the file
    succeed.  The text is what [fs.readFile(path, 'utf-8')] returns and
    what [fs.writeFile(path, text, 'utf-8')] stores, a string of code
    units below 256.  A file whose bytes are not valid UTF-8 is read with
    U+FFFD in the place of those bytes, a code unit above 255: such a
    file has no counterpart here.  For the files that have one, the text
    determines the bytes. *)
Record file := mkFile {
  content : string;
  readable : bool;
  writable : bool
}.

(** A regular file, a directory with its entries in the order [readdir]
    lists them, or an entry that is neither and that nothing can be
    written through: a FIFO or a socket ([isFile()] and [isDirectory()]
    are both false, [fs.copy] refuses it).  Symbolic links are not
    represented: the trees of this development are trees without
    links. *)
Inductive node :=
  | NFile (f : file)
  | NDir (entries : list (string * node))
  | NOther.

(** What the sources throw: an [Error] with a message, or an error of the
    file system with its code and the path it is about. *)
Inductive error :=
  | JsError (message : string)
  | FsError (code : string) (p : path).

Inductive result (A : Type) :=
  | Ok (a : A)
  | Err (e : error).
Arguments Ok {A} a.
Arguments Err {A} e.

Definition rbind {A B} (r : result A) (k : A -> result B) : result B :=
  match r with Ok a => k a | Err e => Err e end.

Definition isOk {A} (r : result A) : bool :=
  match r with Ok _ => true | Err _ => false end.

Fixpoint entry (x : string) (es : list (string * node)) : option node :=
  match es with
  | [] => None
  | (y, m) :: rest => if String.eqb x y then Some m else entry x rest
  end.

Fixpoint setEntry (x : string) (m : node) (es : list (string * node))
    : list (string * node) :=
  match es with
  | [] => []
  | (y, m0) :: rest =>
      if String.eqb x y then (y, m) :: rest else (y, m0) :: setEntry x m rest
  end.

Fixpoint nodeAt (p : path) (n : node) : option node :=
  match p with
  | [] => Some n
  | x :: p' =>
      match n with
      | NDir es => match entry x es with
                   | Some m => nodeAt p' m
                   | None => None
                   end
      | _ => None
      end
  end.

Definition fileAt (p : path) (n : node) : option file :=
  match nodeAt p n with
  | Some (NFile f) => Some f
  | _ => None
  end.

(** Create or change the regular file at [p].  [upd] receives the file
    that is there, if any.  The parent directory has to exist. *)
Fixpoint updateFile (upd : option file -> result file) (here p : path)
    (n : node) : result node :=
  match p with
  | [] =>
      match n with
      | NFile f0 => rbind (upd (Some f0)) (fun f => Ok (NFile f))
      | NDir _ => Err (FsError "EISDIR" here)
      | NOther => Err (FsError "EACCES" here)
      end
  | x :: p' =>
      match n with
      | NDir es =>
          match entry x es with
          | Some m =>
              rbind (updateFile upd (here ++ [x]) p' m)
                    (fun m' => Ok (NDir (setEntry x m' es)))
          | None =>
              match p' with
              | [] => rbind (upd None)
                            (fun f => Ok (NDir (es ++ [(x, NFile f)])))
              | _ :: _ => Err (FsError "ENOENT" (here ++ p))
              end
          end
      | _ => Err (FsError "ENOTDIR" (here ++ p))
      end
  end.

(** What a run asks of the file system and the file system may refuse
    for a reason the trees do not show, the permissions of a directory
    for one: to make the regular file at a path of the target, to make
    the directory at a path of the target, to list the directory at a
    path of the target, to copy the entry at a path of the template. *)
Inductive request :=
  | Create (p : path)
  | Mkdir (p : path)
  | Readdir (p : path)
  | Copy (p : path).

(** [fs.writeFile]: a new file is made unless that is [denied], and is
    readable and writable; an existing file has to be writable and keeps
    its mode. *)
Definition writeUpd (denied : bool) (here : path) (c : string)
    (o : option file) : result file :=
  match o with
  | None =>
      if denied then Err (FsError "EACCES" here) else Ok (mkFile c true true)
  | Some f0 =>
      if writable f0 then Ok (mkFile c (readable f0) true)
      else Err (FsError "EACCES" here)
  end.

(** [fs.appendFile] *)
Definition appendUpd (denied : bool) (here : path) (c : string)
    (o : option file) : result file :=
  match o with
  | None =>
      if denied then Err (FsError "EACCES" here) else Ok (mkFile c true true)
  | Some f0 =>
      if writable f0 then Ok (mkFile (content f0 +:+ c) (readable f0) true)
      else Err (FsError "EACCES" here)
  end.

(** [fs.ensureDir]: the directories along [p] that are missing are made,
    from the top.  The result is the error that stopped the call, if any,
    and the tree with the directories made up to then.  Something that
    is no directory is in the way with [EEXIST] at the end of the path
    and with [ENOTDIR] before. *)
Fixpoint ensureDirAt (refuses : request -> bool) (here p : path) (n : node)
    : option error * node :=
  match n with
  | NDir es =>
      match p with
      | [] => (None, n)
      | x :: p' =>
          match entry x es with
          | Some m =>
              let r := ensureDirAt refuses (here ++ [x]) p' m in
              (r.1, NDir (setEntry x r.2 es))
          | None =>
              if refuses (Mkdir (here ++ [x]))
              then (Some (FsError "EACCES" (here ++ [x])), n)
              else
                let r := ensureDirAt refuses (here ++ [x]) p' (NDir []) in
                (r.1, NDir (es ++ [(x, r.2)]))
          end
      end
  | _ =>
      (Some (FsError (match p with [] => "EEXIST" | _ :: _ => "ENOTDIR" end)
                     here), n)
  end.

(** The state of a run: where the templates are installed, the template
    tree of each template directory, the tree at the resolved target path
    ([None] when nothing is there), the record of the files written so
    far, each with the text written, and the requests the file system
    refuses. *)
Record world := mkWorld {
  templatesRoot : string;
  templates : gmap string node;
  target : option node;
  written : list (path * string);
  refuses : request -> bool
}.

Definition setTarget (t : option node) (w : world) : world :=
  mkWorld (templatesRoot w) (templates w) t (written w) (refuses w).

Definition logWrite (p : path) (c : string) (w : world) : world :=
  mkWorld (templatesRoot w) (templates w) (target w) (written w ++ [(p, c)])
          (refuses w).

(** The monad of the asynchronous methods: state and failure.  A failed
    step leaves the state as it was when it failed. *)
Definition M (A : Type) : Type := world -> result A * world.

Definition ret {A} (a : A) : M A := fun w => (Ok a, w).

Definition bind {A B} (m : M A) (k : A -> M B) : M B :=
  fun w => match m w with
           | (Ok a, w') => k a w'
           | (Err e, w') => (Err e, w')
           end.

Definition throw {A} (e : error) : M A := fun w => (Err e, w).

Definition when (b : bool) (m : M unit) : M unit :=
  if b then m else ret tt.

(** An operation on the target tree. *)
Definition onTarget (p : path) (op : node -> result node) : M unit :=
  fun w => match target w with
           | None => (Err (FsError "ENOENT" p), w)
           | Some t => match op t with
                       | Ok t' => (Ok tt, setTarget (Some t') w)
                       | Err e => (Err e, w)
                       end
           end.

Definition writeFile (p : path) (c : string) : M unit :=
  fun w =>
    bind (onTarget p (updateFile (writeUpd (refuses w (Create p)) p c) [] p))
         (fun _ w => (Ok tt, logWrite p c w)) w.

Definition appendFile (p : path) (c : string) : M unit :=
  fun w =>
    bind (onTarget p (updateFile (appendUpd (refuses w (Create p)) p c) [] p))
         (fun _ w => (Ok tt, logWrite p c w)) w.

Definition ensureDir (p : path) : M unit :=
  fun w => match target w with
           | None => (Err (FsError "ENOENT" p), w)
           | Some t =>
               let r := ensureDirAt (refuses w) [] p t in
               (match r.1 with None => Ok tt | Some e => Err e end,
                setTarget (Some r.2) w)
           end.

Definition pathExists (p : path) : M bool :=
  fun w => (Ok (match target w with
                | Some t => bool_decide (is_Some (nodeAt p t))
                | None => false
                end), w).

Definition readFile (p : path) : M string :=
  fun w => match target w with
           | None => (Err (FsError "ENOENT" p), w)
           | Some t =>
               match nodeAt p t with
               | Some (NFile f) =>
                   if readable f then (Ok (content f), w)
                   else (Err (FsError "EACCES" p), w)
               | Some (NDir _) => (Err (FsError "EISDIR" p), w)
               | Some NOther => (Err (FsError "EACCES" p), w)
               | None => (Err (FsError "ENOENT" p), w)
               end
           end.

End Fs.

(** ** [utils/index.ts]: project-name validation *)
Module Utils.
Import Js.

(** The character class of [invalidChars]: the nine characters
    less-than, greater-than, colon, double quote, slash, backslash, bar,
    question mark and star, and the control range 0x00-0x1f. *)
Definition invalidCharClass (c : ascii) : bool :=
  existsb (Ascii.eqb c)
    ["<"%char; ">"%char; ":"%char; dquote; "/"%char; "\"%char;
     "|"%char; "?"%char; "*"%char]
  || (code c <=? 31).

(** [invalidChars.test(name)]: some code unit of the name is in the class. *)
Definition invalidChars_test (name : string) : bool :=
  existsb invalidCharClass (chars name).

Definition reservedNames : list string :=
  ["CON"; "PRN"; "AUX"; "NUL";
   "COM1"; "COM2"; "COM3"; "COM4"; "COM5"; "COM6"; "COM7"; "COM8"; "COM9";
   "LPT1"; "LPT2"; "LPT3"; "LPT4"; "LPT5"; "LPT6"; "LPT7"; "LPT8"; "LPT9"].

Definition validateProjectName (name : string) : bool :=
  if isEmpty name || isEmpty (trim name) then false
  else if invalidChars_test name then false
  else if arrIncludes (toUpperCase name) reservedNames then false
  else true.

(** [None] is JavaScript's [null]. *)
Definition getProjectNameError (name : string) : option string :=
  if isEmpty name || isEmpty (trim name) then
    Some "Project name cannot be empty"
  else if invalidChars_test name then
    Some "Project name contains invalid characters"
  else if arrIncludes (toUpperCase name) reservedNames then
    Some "Project name is a reserved name"
  else None.

(** *** The three causes of rejection, stated on their own

    These follow the wording of the specification, not the code: a name is
    blank when all its code units are white space; it has a forbidden
    character when one of the listed characters or a control character
    occurs in it; it is reserved when it agrees with a reserved device
    name up to the case of its letters. *)
Definition blankName (name : string) : Prop :=
  Forall (fun c => isWhiteSpace c = true) (chars name).

Definition forbiddenChar (c : ascii) : Prop :=
  c = "/"%char \/ c = ":"%char \/ c = "*"%char \/ c = "\"%char \/
  c = "<"%char \/ c = ">"%char \/ c = dquote \/ c = "|"%char \/
  c = "?"%char \/ code c <= 31.

Definition hasForbiddenChar (name : string) : Prop :=
  Exists forbiddenChar (chars name).

(** Two code units agree up to case when they are equal or are the two
    cases of one letter a-z. *)
Definition sameLetter (a b : ascii) : Prop :=
  a = b \/
  (isLowerAZ a = true /\ code b + 32 = code a) \/
  (isLowerAZ b = true /\ code a + 32 = code b).

Definition equalIgnoringCase (s t : string) : Prop :=
  Forall2 sameLetter (chars s) (chars t).

Definition reservedName (name : string) : Prop :=
  exists r, In r reservedNames /\ equalIgnoringCase name r.

Definition invalidName (name : string) : Prop :=
  blankName name \/ hasForbiddenChar name \/ reservedName name.

Definition noSmallLetter (r : string) : Prop :=
  Forall (fun c => isLowerAZ c = false) (chars r).

End Utils.

(** ** [types/index.ts] *)
Module Types.

Inductive Language := PYTHON | JAVASCRIPT | GO | RUST.

Definition languageValue (l : Language) : string :=
  match l with
  | PYTHON => "python" | JAVASCRIPT => "js" | GO => "go" | RUST => "rust"
  end.

(** [Framework] is the union of the four framework enums. *)
Inductive Framework := FASTAPI | DJANGO | FLASK | EXPRESS | GIN | DEFAULT.

Definition frameworkValue (f : Framework) : string :=
  match f with
  | FASTAPI => "fastapi" | DJANGO => "django" | FLASK => "flask"
  | EXPRESS => "express" | GIN => "gin" | DEFAULT => "default"
  end.

(** A value stored under a key of [ProjectOptions]: a boolean or a string.
    A key that is absent (or holds [undefined]) is a failed lookup. *)
Inductive OptionValue := VBool (b : bool) | VString (s : string).

(** [ProjectOptions]: an open map from option keys to values. *)
Abbreviation ProjectOptions := (gmap string OptionValue).

(** JavaScript truthiness of [opts[key]]. *)
Definition truthy (v : option OptionValue) : bool :=
  match v with
  | Some (VBool b) => b
  | Some (VString s) => negb (Js.isEmpty s)
  | None => false
  end.

(** [opts[key] !== false] *)
Definition notFalse (v : option OptionValue) : bool :=
  match v with
  | Some (VBool false) => false
  | _ => true
  end.

Record GeneratorOptions := {
  projectName : string;
  targetPath : string;
  options : option ProjectOptions
}.

End Types.

(** ** [config/python-options.ts] *)
Module PythonOptions.

Record PythonOption := {
  key : string;
  name : string;
  description : string;
  default : option bool;
  dependencies : option (list string)
}.

Definition mk k n d df deps : PythonOption :=
  {| key := k; name := n; description := d; default := df; dependencies := deps |}.

(** The values of [PYTHON_OPTIONS] in the order of their keys, which is
    the order [Object.values] enumerates them in. *)
Definition PYTHON_OPTIONS : list PythonOption :=
  [ mk "orm" "ORM (SQLAlchemy)" "Add SQLAlchemy ORM for database operations"
       (Some false) (Some ["sqlalchemy"]);
    mk "migrations" "Database Migrations (Alembic)"
       "Add Alembic for database migrations" (Some false) (Some ["alembic"]);
    mk "docker" "Docker Support" "Add Dockerfile for containerization"
       (Some false) None;
    mk "dockerCompose" "Docker Compose"
       "Add docker-compose.yml for multi-container setup" (Some false) None;
    mk "tests" "Testing Framework (pytest)" "Add pytest for testing"
       (Some true) (Some ["pytest"; "pytest-asyncio"; "httpx"]);
    mk "envFiles" "Environment Files (.env)"
       "Add .env.example and environment configuration"
       (Some true) (Some ["python-dotenv"]);
    mk "prodConfig" "Production Configuration"
       "Add production-ready settings and configurations" (Some false) None;
    mk "devConfig" "Development Configuration"
       "Add development settings and hot-reload" (Some true) None;
    mk "linter" "Linter (ruff/flake8)" "Add code linting with ruff or flake8"
       (Some true) (Some ["ruff"]);
    mk "formatter" "Code Formatter (black)" "Add black for code formatting"
       (Some true) (Some ["black"]);
    mk "preCommit" "Pre-commit Hooks" "Add pre-commit hooks for code quality"
       (Some false) (Some ["pre-commit"]);
    mk "readme" "README Documentation" "Generate comprehensive README.md"
       (Some true) None;
    mk "apiDocs" "API Documentation" "Add OpenAPI/Swagger documentation setup"
       (Some true) None;
    mk "logging" "Structured Logging" "Add structured logging configuration"
       (Some true) (Some ["structlog"]);
    mk "monitoring" "Monitoring & Health Checks"
       "Add health check endpoints and monitoring" (Some false) None ].

Definition getPythonOptions : list PythonOption := PYTHON_OPTIONS.

Definition getPythonOption (k : string) : option PythonOption :=
  find (fun o => String.eqb (key o) k) PYTHON_OPTIONS.

Definition getDefaultPythonOptions : list string :=
  map key (filter (fun o => default o = Some true) PYTHON_OPTIONS).

End PythonOptions.

(** ** The dependency manifest of the FastAPI generator
    ([generateRequirementsTxt] in [generators/fastapi.ts]) *)
Module Requirements.
Import Types PythonOptions.

Definition baseRequirements : list string :=
  ["fastapi>=0.104.1"; "uvicorn[standard]>=0.24.0"; "pydantic-settings>=2.1.0"].

(** One turn of the loop over [pythonOptions]: an option whose key is
    truthy in [opts] and that declares dependencies pushes each of them
    with the suffix [>=0.0.0]. *)
Definition pushOption (opts : ProjectOptions)
    (requirements : list string) (option : PythonOption) : list string :=
  match dependencies option with
  | Some deps =>
      if truthy (opts !! key option)
      then requirements ++ map (fun dep => dep +:+ ">=0.0.0") deps
      else requirements
  | None => requirements
  end.

(** [requirements.some((r) => r.includes(needle))] *)
Definition someIncludes (needle : string) (requirements : list string) : bool :=
  existsb (Js.includes needle) requirements.

(** The array [requirements] as it stands before the sort. *)
Definition collectRequirements (opts : ProjectOptions) : list string :=
  let r0 := foldl (pushOption opts) baseRequirements getPythonOptions in
  let r1 :=
    if notFalse (opts !! "envFiles") then
      if negb (someIncludes "python-dotenv" r0)
      then r0 ++ ["python-dotenv>=1.0.0"] else r0
    else r0 in
  let r2 :=
    if truthy (opts !! "orm") then
      if negb (someIncludes "sqlalchemy" r1)
      then r1 ++ ["sqlalchemy>=2.0.23"] else r1
    else r1 in
  let r3 :=
    if truthy (opts !! "migrations") then
      if negb (someIncludes "alembic" r2)
      then r2 ++ ["alembic>=1.12.1"] else r2
    else r2 in
  if notFalse (opts !! "tests") then
    if negb (someIncludes "pytest" r3)
    then r3 ++ ["pytest>=7.4.3"; "pytest-asyncio>=0.21.1"; "httpx>=0.25.2"]
    else r3
  else r3.

(** [Array.from(new Set(xs))]: the elements in the order of their first
    occurrence. *)
Definition setFrom (xs : list string) : list string :=
  foldl (fun seen x => if Js.arrIncludes x seen then seen else seen ++ [x]) [] xs.

(** [xs.sort()] with the default comparison, the order of the code units.
    The result of sorting under a total order does not depend on the
    algorithm; insertion sort is used here. *)
Fixpoint insertSorted (x : string) (xs : list string) : list string :=
  match xs with
  | [] => [x]
  | y :: ys => if String.leb x y then x :: xs else y :: insertSorted x ys
  end.

Definition sort (xs : list string) : list string :=
  foldr insertSorted [] xs.

Definition uniqueRequirements (opts : ProjectOptions) : list string :=
  sort (setFrom (collectRequirements opts)).

Definition newline : string := String (ascii_of_nat 10) EmptyString.

(** [xs.join(sep)] *)
Fixpoint join (sep : string) (xs : list string) : string :=
  match xs with
  | [] => EmptyString
  | [x] => x
  | x :: rest => x +:+ sep +:+ join sep rest
  end.

(** The text written to [requirements.txt]. *)
Definition requirementsTxt (opts : ProjectOptions) : string :=
  join newline (uniqueRequirements opts) +:+ newline.

(** *** Reading the manifest back

    The name of the package a requirement line is about: the line up to
    the version comparison, extras included. *)
Fixpoint packageName (line : string) : string :=
  match line with
  | EmptyString => EmptyString
  | String c rest =>
      if existsb (Ascii.eqb c) [">"%char; "<"%char; "="%char; "!"%char; "~"%char]
      then EmptyString else String c (packageName rest)
  end.

Definition packageNames (lines : list string) : list string :=
  map packageName lines.

(** The dependencies an option declares, with the suffix the generator
    gives them. *)
Definition declaredRequirements (option : PythonOption) : list string :=
  match dependencies option with
  | Some deps => map (fun dep => dep +:+ ">=0.0.0") deps
  | None => []
  end.

End Requirements.

(** ** [generators/base.generator.ts] *)
Module Base.
Import Types Fs.

Declare Scope fs_scope.
Delimit Scope fs_scope with fs.
Notation "x <- m ;; k" := (bind m (fun x => k))
  (at level 100, m at next level, right associativity) : fs_scope.
Notation "m ;; k" := (bind m (fun _ => k))
  (at level 100, right associativity) : fs_scope.
Local Open Scope fs_scope.

(** The interface of a generator: the three abstract members of
    [BaseGenerator] and the two methods subclasses override. *)
Record Generator := {
  templateDir : string;
  language : string;
  framework : string;
  getAvailableOptions : list string;
  generateOptionalFiles : GeneratorOptions -> M unit
}.

(** [getTemplatePath]: the template directory of the generator below the
    first candidate root that exists, which the state records as
    [templatesRoot]. *)
Definition getTemplatePath (g : Generator) : M string :=
  fun w => (Ok (Path.join (templatesRoot w) (templateDir g)), w).

(** The filter handed to [fs.copy]: a source path is copied unless its
    base name starts with a dot, [.gitignore] excepted. *)
Definition copyFilter (src : string) : bool :=
  let basename := Path.basename src in
  negb (Js.startsWith "." basename) || String.eqb basename ".gitignore".

Definition putEntry (x : string) (m : node) (es : list (string * node))
    : list (string * node) :=
  match entry x es with
  | Some _ => setEntry x m es
  | None => es ++ [(x, m)]
  end.

(** [fs.copy(src, dest, { filter })] below the root: the error that makes
    the copy fail, if any, and what is at the destination afterwards.
    The kinds of the source and of the destination are compared first.
    A directory is made at the destination when none is there, and its
    entries are copied one by one, each only if the filter accepts its
    path; an entry that cannot be copied makes the copy fail with the
    first such error, and does not stop the copy of the other entries.
    A file has to be readable and is copied with its mode; a FIFO or a
    socket is not copied. *)
Fixpoint copyNode (refuses : request -> bool) (filter : string -> bool)
    (srcPath : string) (here : path) (src : node) (dest : option node)
    : option error * option node :=
  if refuses (Copy here) then (Some (FsError "EACCES" here), dest)
  else
    match src with
    | NFile f =>
        match dest with
        | Some (NDir _) =>
            (Some (JsError "Cannot overwrite directory with non-directory"),
             dest)
        | _ =>
            if readable f then (None, Some (NFile f))
            else (Some (FsError "EACCES" here), dest)
        end
    | NOther =>
        match dest with
        | Some (NDir _) =>
            (Some (JsError "Cannot overwrite directory with non-directory"),
             dest)
        | _ => (Some (JsError ("Cannot copy a FIFO pipe: " +:+ srcPath)), dest)
        end
    | NDir es =>
        match dest with
        | Some (NFile _) | Some NOther =>
            (Some (JsError "Cannot overwrite non-directory with directory"),
             dest)
        | _ =>
            let ds0 := match dest with Some (NDir ds) => ds | _ => [] end in
            let r :=
              (fix items (es : list (string * node)) (ds : list (string * node))
                 : option error * list (string * node) :=
                 match es with
                 | [] => (None, ds)
                 | (name, m) :: rest =>
                     let item := Path.join srcPath name in
                     if filter item then
                       let r1 := copyNode refuses filter item (here ++ [name])
                                          m (entry name ds) in
                       let r2 :=
                         items rest (match r1.2 with
                                     | Some m' => putEntry name m' ds
                                     | None => ds
                                     end) in
                       (match r1.1 with Some e => Some e | None => r2.1 end,
                        r2.2)
                     else items rest ds
                 end) es ds0 in
            (r.1, Some (NDir r.2))
        end
    end.

(** [copyTemplate]: the filter is asked about the root of the copy too;
    a root it rejects is not copied at all.  A copy that fails leaves
    what it has copied. *)
Definition copyTemplate (g : Generator) (sourcePath : string)
    (_options : GeneratorOptions) : M unit :=
  fun w =>
    match templates w !! templateDir g with
    | None => (Err (FsError "ENOENT" []), w)
    | Some src =>
        if copyFilter sourcePath then
          let r := copyNode (refuses w) copyFilter sourcePath [] src (target w) in
          (match r.1 with None => Ok tt | Some e => Err e end,
           setTarget r.2 w)
        else (Ok tt, w)
    end.

(** The regular expression built for a key: the key between double
    braces.  The keys of the sources are identifiers, for which the
    expression matches exactly this text. *)
Definition placeholder (key : string) : string := "{{" +:+ key +:+ "}}".

(** The loop over [Object.entries(replacements)] on the text of a file. *)
Definition substitute (replacements : list (string * string))
    (content : string) : string :=
  foldl (fun content kv => Js.replaceAll (placeholder kv.1) kv.2 content)
        content replacements.

(** One regular file in the loop of [replacePlaceholders]: its text is
    read, rewritten and written back, both with the encoding [utf-8]; a
    failure of the read or of the write is caught and the file is left
    as it is. *)
Definition replaceInFile (replacements : list (string * string))
    (filePath : path) (f : file) : node * list (path * string) :=
  if readable f && writable f then
    let content' := substitute replacements (content f) in
    (NFile (mkFile content' (readable f) (writable f)), [(filePath, content')])
  else (NFile f, []).

(** [replacePlaceholders(dirPath, replacements)] on the directory tree:
    the error that stopped the loop, if any, the tree as the loop left it
    and the files written.  Only the work on a regular file is inside the
    [try]: a directory that cannot be listed stops the loop, at any
    depth. *)
Fixpoint replaceIn (refuses : request -> bool)
    (replacements : list (string * string)) (dirPath : path) (n : node)
    : option error * node * list (path * string) :=
  match n with
  | NDir es =>
      if refuses (Readdir dirPath)
      then (Some (FsError "EACCES" dirPath), n, [])
      else
        let r :=
          (fix files (es : list (string * node))
             : option error * list (string * node) * list (path * string) :=
             match es with
             | [] => (None, [], [])
             | (name, m) :: rest =>
                 let filePath := dirPath ++ [name] in
                 let r1 :=
                   match m with
                   | NDir _ => replaceIn refuses replacements filePath m
                   | NFile f =>
                       let r0 := replaceInFile replacements filePath f in
                       (None, r0.1, r0.2)
                   | NOther => (None, m, [])
                   end in
                 match r1.1.1 with
                 | Some e => (Some e, (name, r1.1.2) :: rest, r1.2)
                 | None =>
                     let r2 := files rest in
                     (r2.1.1, (name, r1.1.2) :: r2.1.2, r1.2 ++ r2.2)
                 end
             end) es in
        (r.1.1, NDir r.1.2, r.2)
  | _ => (Some (FsError "ENOTDIR" dirPath), n, [])
  end.

(** The call [replacePlaceholders(targetPath, replacements)] of the
    generators: [readdir] fails unless the target is a directory. *)
Definition replacePlaceholders (replacements : list (string * string)) : M unit :=
  fun w =>
    match target w with
    | Some (NDir es) =>
        let r := replaceIn (refuses w) replacements [] (NDir es) in
        (match r.1.1 with None => Ok tt | Some e => Err e end,
         mkWorld (templatesRoot w) (templates w) (Some r.1.2)
                 (written w ++ r.2) (refuses w))
    | Some _ => (Err (FsError "ENOTDIR" []), w)
    | None => (Err (FsError "ENOENT" []), w)
    end.

(** [fs.pathExists(templatePath)] and [fs.pathExists(targetPath)] *)
Definition templateExists (g : Generator) : M bool :=
  fun w => (Ok (bool_decide (is_Some (templates w !! templateDir g))), w).

Definition targetExists : M bool :=
  fun w => (Ok (bool_decide (is_Some (target w))), w).

(** [fs.ensureDir(targetPath)] *)
Definition ensureTarget : M unit :=
  fun w => match target w with
           | None =>
               if refuses w (Mkdir [])
               then (Err (FsError "EACCES" []), w)
               else (Ok tt, setTarget (Some (NDir [])) w)
           | Some (NDir _) => (Ok tt, w)
           | Some _ => (Err (FsError "EEXIST" []), w)
           end.

Definition generate (g : Generator) (options : GeneratorOptions) : M unit :=
  templatePath <- getTemplatePath g ;;
  hasTemplate <- templateExists g ;;
  if negb hasTemplate then
    throw (JsError ("Template not found: " +:+ templatePath))
  else
    hasTarget <- targetExists ;;
    if hasTarget then
      throw (JsError ("Directory " +:+ targetPath options +:+ " already exists"))
    else
      ensureTarget ;;
      copyTemplate g templatePath options ;;
      generateOptionalFiles g options.

End Base.

(** ** [generators/fastapi.ts] *)
Module FastAPI.
Import Types Fs Base.
Local Open Scope fs_scope.

(** The literal texts of the generated files.  The sources give them as
    template literals; no property below depends on their wording, so
    they are kept abstract.  A text with interpolated values is a function
    of those values. *)
Record FileBodies := {
  mainPy_imports : string;
  mainPy_logging : string;
  mainPy_app : string -> string;
  mainPy_health : string;
  mainPy_root : string -> string;
  configPy_head : string -> string;
  configPy_database : string;
  configPy_tail : string;
  modelsContent : string;
  sessionContent : string;
  dbInitContent : string;
  alembicIni : string;
  envPy : string;
  scriptMako : string;
  dockerfile : string;
  dockerignore : string;
  dockerCompose : bool -> string -> string;
  pytestIni : string;
  conftest : string;
  testMain : string;
  envExample : string;
  prodConfig : string;
  devConfig : string;
  ruffToml : string;
  blackConfig : string;
  preCommitContent : string;
  loggingConfig : string;
  readme : string -> string -> bool -> bool -> bool -> bool -> string -> string
}.

(** [str.replace(/([A-Z])/g, sep + '$1')] *)
Fixpoint prefixCapitals (sep : ascii) (str : string) : string :=
  match str with
  | EmptyString => EmptyString
  | String c r =>
      if Js.isUpperAZ c then String sep (String c (prefixCapitals sep r))
      else String c (prefixCapitals sep r)
  end.

(** [str.replace(/^sep/, '')] *)
Definition dropLeading (sep : ascii) (str : string) : string :=
  match str with
  | String c r => if Ascii.eqb c sep then r else str
  | EmptyString => EmptyString
  end.

(** [str.replace(/[^a-z0-9sep]/g, sep)] *)
Fixpoint onlyWordChars (sep : ascii) (str : string) : string :=
  match str with
  | EmptyString => EmptyString
  | String c r =>
      String (if Js.isLowerAZ c || Js.isDigit c || Ascii.eqb c sep then c else sep)
             (onlyWordChars sep r)
  end.

Definition toCase (sep : ascii) (str : string) : string :=
  onlyWordChars sep (dropLeading sep (Js.toLowerCase (prefixCapitals sep str))).

Definition toSnakeCase (str : string) : string := toCase "_" str.
Definition toKebabCase (str : string) : string := toCase "-" str.

Section Generator.
Variable bodies : FileBodies.

Definition generateMainPy (projectName : string) (opts : ProjectOptions)
    : M unit :=
  let mainPy := mainPy_imports bodies in
  let mainPy :=
    if truthy (opts !! "logging") then mainPy +:+ mainPy_logging bodies
    else mainPy in
  let mainPy := mainPy +:+ mainPy_app bodies projectName in
  let mainPy :=
    if truthy (opts !! "monitoring") then mainPy +:+ mainPy_health bodies
    else mainPy in
  let mainPy := mainPy +:+ mainPy_root bodies projectName in
  writeFile ["app"; "main.py"] mainPy.

Definition generateConfigPy (projectName : string) (opts : ProjectOptions)
    : M unit :=
  let configPy := configPy_head bodies projectName in
  let configPy :=
    if truthy (opts !! "orm") then configPy +:+ configPy_database bodies
    else configPy in
  let configPy := configPy +:+ configPy_tail bodies in
  writeFile ["app"; "core"; "config.py"] configPy.

Definition generateRequirementsTxt (opts : ProjectOptions) : M unit :=
  writeFile ["requirements.txt"] (Requirements.requirementsTxt opts).

Definition generateORMFiles (_projectName : string) : M unit :=
  let dbDir := ["app"; "db"] in
  ensureDir dbDir ;;
  writeFile (dbDir ++ ["models.py"]) (modelsContent bodies) ;;
  writeFile (dbDir ++ ["session.py"]) (sessionContent bodies) ;;
  writeFile (dbDir ++ ["__init__.py"]) (dbInitContent bodies).

Definition generateMigrationFiles (_projectName : string) : M unit :=
  let migrationsDir := ["alembic"] in
  ensureDir migrationsDir ;;
  ensureDir (migrationsDir ++ ["versions"]) ;;
  writeFile ["alembic.ini"] (alembicIni bodies) ;;
  writeFile (migrationsDir ++ ["env.py"]) (envPy bodies) ;;
  writeFile (migrationsDir ++ ["script.py.mako"]) (scriptMako bodies).

Definition generateDockerFiles (_projectName : string) : M unit :=
  writeFile ["Dockerfile"] (dockerfile bodies) ;;
  writeFile [".dockerignore"] (dockerignore bodies).

Definition generateDockerCompose (projectName : string)
    (opts : ProjectOptions) : M unit :=
  let hasDb := truthy (opts !! "orm") || truthy (opts !! "migrations") in
  writeFile ["docker-compose.yml"]
            (dockerCompose bodies hasDb (toSnakeCase projectName)).

Definition generateTestFiles (_projectName : string) : M unit :=
  let testsDir := ["tests"] in
  ensureDir testsDir ;;
  writeFile ["pytest.ini"] (pytestIni bodies) ;;
  writeFile (testsDir ++ ["conftest.py"]) (conftest bodies) ;;
  writeFile (testsDir ++ ["test_main.py"]) (testMain bodies) ;;
  writeFile (testsDir ++ ["__init__.py"]) EmptyString.

Definition generateEnvFiles : M unit :=
  writeFile [".env.example"] (envExample bodies).

Definition generateProdConfig : M unit :=
  let configDir := ["app"; "config"] in
  ensureDir configDir ;;
  writeFile (configDir ++ ["production.py"]) (prodConfig bodies).

Definition generateDevConfig : M unit :=
  let configDir := ["app"; "config"] in
  ensureDir configDir ;;
  writeFile (configDir ++ ["development.py"]) (devConfig bodies).

Definition generateLinterConfig : M unit :=
  writeFile ["ruff.toml"] (ruffToml bodies).

Definition generateFormatterConfig : M unit :=
  let pyprojectToml := ["pyproject.toml"] in
  isThere <- pathExists pyprojectToml ;;
  pyprojectContent <-
    (if isThere then readFile pyprojectToml else ret EmptyString) ;;
  if negb (Js.includes "[tool.black]" pyprojectContent)
  then appendFile pyprojectToml (blackConfig bodies)
  else ret tt.

Definition generatePreCommitConfig : M unit :=
  writeFile [".pre-commit-config.yaml"] (preCommitContent bodies).

Definition generateLoggingConfig : M unit :=
  let loggingDir := ["app"; "core"] in
  ensureDir loggingDir ;;
  writeFile (loggingDir ++ ["logging.py"]) (loggingConfig bodies).

(** Nothing is written: the health check is part of [main.py]. *)
Definition generateMonitoring : M unit := ret tt.

(** The list [features] of [generateREADME]. *)
Definition readmeFeatures (opts : ProjectOptions) : list string :=
  (if truthy (opts !! "orm") then ["- SQLAlchemy ORM"] else []) ++
  (if truthy (opts !! "migrations") then ["- Alembic migrations"] else []) ++
  (if truthy (opts !! "docker") then ["- Docker support"] else []) ++
  (if truthy (opts !! "dockerCompose") then ["- Docker Compose"] else []) ++
  (if truthy (opts !! "tests") then ["- pytest testing"] else []) ++
  (if truthy (opts !! "linter") then ["- Code linting (ruff)"] else []) ++
  (if truthy (opts !! "formatter") then ["- Code formatting (black)"] else []) ++
  (if truthy (opts !! "logging") then ["- Structured logging"] else []).

Definition generateREADME (projectName : string) (opts : ProjectOptions)
    : M unit :=
  let features := readmeFeatures opts in
  let featuresText :=
    if 0 <? length features
    then Requirements.join Requirements.newline features
    else "- FastAPI framework" in
  writeFile ["README.md"]
    (readme bodies projectName featuresText
            (truthy (opts !! "migrations")) (truthy (opts !! "docker"))
            (truthy (opts !! "dockerCompose")) (truthy (opts !! "tests"))
            (toKebabCase projectName)).

(** The replacement map of the placeholder pass, in the order of its
    keys. *)
Definition replacements (projectName : string) : list (string * string) :=
  [("projectName", projectName);
   ("projectNameSnake", toSnakeCase projectName);
   ("projectNameKebab", toKebabCase projectName)].

Definition generateOptionalFiles (options : GeneratorOptions) : M unit :=
  let opts := default ∅ (Types.options options) in
  let projectName := Types.projectName options in
  generateRequirementsTxt opts ;;
  when (truthy (opts !! "orm")) (generateORMFiles projectName) ;;
  when (truthy (opts !! "migrations")) (generateMigrationFiles projectName) ;;
  when (truthy (opts !! "docker")) (generateDockerFiles projectName) ;;
  when (truthy (opts !! "dockerCompose"))
       (generateDockerCompose projectName opts) ;;
  when (truthy (opts !! "tests")) (generateTestFiles projectName) ;;
  when (truthy (opts !! "envFiles")) generateEnvFiles ;;
  when (truthy (opts !! "prodConfig")) generateProdConfig ;;
  when (truthy (opts !! "devConfig")) generateDevConfig ;;
  when (truthy (opts !! "linter")) generateLinterConfig ;;
  when (truthy (opts !! "formatter")) generateFormatterConfig ;;
  when (truthy (opts !! "preCommit")) generatePreCommitConfig ;;
  when (truthy (opts !! "logging")) generateLoggingConfig ;;
  when (truthy (opts !! "monitoring")) generateMonitoring ;;
  when (truthy (opts !! "readme")) (generateREADME projectName opts) ;;
  generateMainPy projectName opts ;;
  generateConfigPy projectName opts ;;
  replacePlaceholders (replacements projectName).

Definition FastAPIGenerator : Generator :=
  {| templateDir := "python/fastapi";
     language := "python";
     framework := "fastapi";
     getAvailableOptions := map PythonOptions.key PythonOptions.getPythonOptions;
     Base.generateOptionalFiles := generateOptionalFiles |}.

End Generator.

End FastAPI.

(** ** [generators/express.ts] *)
Module Express.
Import Types Fs Base.

Definition generateOptionalFiles (options : GeneratorOptions) : M unit :=
  replacePlaceholders [("projectName", projectName options)].

Definition ExpressGenerator : Generator :=
  {| templateDir := "js/express";
     language := "js";
     framework := "express";
     getAvailableOptions := ["orm"; "migrations"; "docker"; "tests"];
     Base.generateOptionalFiles := generateOptionalFiles |}.

End Express.

(** ** [generators/registry.ts] *)
Module Registry.
Import Types Fs Base.

(** A constructor: [new GeneratorClass()] applies it. *)
Definition GeneratorConstructor := unit -> Generator.

Definition generatorKey (language : Language) (framework : Framework) : string :=
  languageValue language +:+ ":" +:+ frameworkValue framework.

(** The map as it stands once the module is loaded. *)
Definition generatorMap (bodies : FastAPI.FileBodies)
    : gmap string GeneratorConstructor :=
  <[generatorKey JAVASCRIPT EXPRESS := fun _ => Express.ExpressGenerator]>
    (<[generatorKey PYTHON FASTAPI := fun _ => FastAPI.FastAPIGenerator bodies]> ∅).

Definition notFound (language : Language) (framework : Framework) : error :=
  JsError ("No generator found for " +:+ languageValue language +:+ ":"
           +:+ frameworkValue framework).

Definition getGenerator (map : gmap string GeneratorConstructor)
    (language : Language) (framework : Framework) : result Generator :=
  let key := generatorKey language framework in
  match map !! key with
  | None => Err (notFound language framework)
  | Some GeneratorClass => Ok (GeneratorClass tt)
  end.

Definition hasGenerator (map : gmap string GeneratorConstructor)
    (language : Language) (framework : Framework) : bool :=
  let key := generatorKey language framework in
  bool_decide (is_Some (map !! key)).

Definition registerGenerator (map : gmap string GeneratorConstructor)
    (language : Language) (framework : Framework)
    (GeneratorClass : GeneratorConstructor)
    : gmap string GeneratorConstructor :=
  let key := generatorKey language framework in
  <[key := GeneratorClass]> map.

End Registry.

(** ** Auxiliary definitions about the manifest *)
Module RequirementsAux.
Import Types PythonOptions Requirements.

(** The requirements the loop over the options pushes, for a given
    truthiness of the option keys. *)
Definition scanWith (enabled : string -> bool) (options : list PythonOption)
    : list string :=
  flat_map (fun o => if enabled (key o) then declaredRequirements o else [])
           options.

Definition dotenvDefault : list string := ["python-dotenv>=1.0.0"].

Definition pytestDefault : list string :=
  ["pytest>=7.4.3"; "pytest-asyncio>=0.21.1"; "httpx>=0.25.2"].

(** [opts[key]] is truthy. *)
Definition enabledIn (opts : ProjectOptions) (k : string) : bool :=
  truthy (opts !! k).

(** [opts[key] !== false] *)
Definition notDisabledIn (opts : ProjectOptions) (k : string) : bool :=
  notFalse (opts !! k).

(** A package is listed by a manifest. *)
Definition listsPackage (pkg : string) (lines : list string) : Prop :=
  In pkg (packageNames lines).

(** Ascending in the lexicographic order of the code units: every line is
    at most the next one. *)
Definition ascending (lines : list string) : Prop :=
  Sorted (fun a b => String.leb a b = true) lines.

End RequirementsAux.

(** ** Auxiliary definitions about runs on the file system *)
Module Effects.
Import Types Fs Base.

(** A directory lists every name once. *)
Fixpoint wf (n : node) : Prop :=
  match n with
  | NDir es =>
      List.NoDup (map fst es) /\
      (fix all (es : list (string * node)) : Prop :=
         match es with
         | [] => True
         | (_, m) :: rest => wf m /\ all rest
         end) es
  | _ => True
  end.

Definition fileAtW (p : path) (w : world) : option file :=
  match target w with
  | Some t => fileAt p t
  | None => None
  end.

Definition wfW (w : world) : Prop :=
  match target w with
  | Some t => wf t
  | None => True
  end.

(** The files written since the state [w] in a later state [w']. *)
Definition writtenSince (w w' : world) : list (path * string) :=
  drop (length (written w)) (written w').

Definition pathsWrittenSince (w w' : world) : list path :=
  map fst (writtenSince w w').

(** A regular file the placeholder pass can read and write back. *)
Definition rewritable (f : file) : bool := readable f && writable f.

Definition rewritableAt (p : path) (n : node) : Prop :=
  exists f, fileAt p n = Some f /\ rewritable f = true.

(** What the pass does to one file. *)
Definition rewriteFile (replacements : list (string * string)) (f : file) : file :=
  if rewritable f
  then mkFile (substitute replacements (content f)) (readable f) (writable f)
  else f.

(** What a pass that lists every directory does to a tree: the new tree
    and the files written. *)
Fixpoint rewriteIn (replacements : list (string * string)) (dirPath : path)
    (n : node) : node * list (path * string) :=
  match n with
  | NDir es =>
      let r :=
        (fix files (es : list (string * node))
           : list (string * node) * list (path * string) :=
           match es with
           | [] => ([], [])
           | (name, m) :: rest =>
               let filePath := dirPath ++ [name] in
               let r1 :=
                 match m with
                 | NDir _ => rewriteIn replacements filePath m
                 | NFile f => replaceInFile replacements filePath f
                 | NOther => (m, [])
                 end in
               let r2 := files rest in
               ((name, r1.1) :: r2.1, r1.2 ++ r2.2)
           end) es in
      (NDir r.1, r.2)
  | _ => (n, [])
  end.

(** The same on one directory entry: the dispatch in the loop of
    [replacePlaceholders]. *)
Definition replaceEntry (replacements : list (string * string))
    (filePath : path) (m : node) : node * list (path * string) :=
  match m with
  | NDir _ => rewriteIn replacements filePath m
  | NFile f => replaceInFile replacements filePath f
  | NOther => (m, [])
  end.

(** The dispatch in the loop of [replacePlaceholders], with the
    failures. *)
Definition passEntry (refuses : request -> bool)
    (replacements : list (string * string)) (filePath : path) (m : node)
    : option error * node * list (path * string) :=
  match m with
  | NDir _ => replaceIn refuses replacements filePath m
  | NFile f =>
      let r0 := replaceInFile replacements filePath f in (None, r0.1, r0.2)
  | NOther => (None, m, [])
  end.

(** The file system refuses nothing. *)
Definition quiet (w : world) : Prop := forall r, refuses w r = false.

(** A relation between the state before and the state after a
    successful step. *)
Definition post {A} (m : M A) (Q : world -> world -> Prop) : Prop :=
  forall w a w', m w = (Ok a, w') -> Q w w'.

Definition pyprojectToml : path := ["pyproject.toml"].

(** The step wrote the files [P o], in this order, where [o] is the file
    at [pyproject.toml] before the step; it left every other regular file
    as it was, and kept directories free of repeated names. *)
Definition wroteList (touched : list path) (w w' : world) : Prop :=
  (exists l, written w' = written w ++ l /\ map fst l = touched) /\
  (forall p, ~ In p touched -> fileAtW p w' = fileAtW p w) /\
  (wfW w -> wfW w').

Definition wrote (P : option file -> list path) (w w' : world) : Prop :=
  wroteList (P (fileAtW pyprojectToml w)) w w'.

Definition andThen (Q R : world -> world -> Prop) (w w' : world) : Prop :=
  exists w1, Q w w1 /\ R w1 w'.

(** The placeholder pass ran on the target directory. *)
Definition passed (replacements : list (string * string)) (w w' : world) : Prop :=
  exists es,
    target w = Some (NDir es) /\
    target w' = Some (rewriteIn replacements [] (NDir es)).1 /\
    written w' = written w ++ (rewriteIn replacements [] (NDir es)).2.

(** Every run of [m], failed or not, only adds to the record of written
    files. *)
Definition extends {A} (m : M A) : Prop :=
  forall w, exists l, written (m w).2 = written w ++ l.

(** The files the formatter step writes, given the file at
    [pyproject.toml] before it. *)
Definition formatterPaths (o : option file) : list path :=
  if Js.includes "[tool.black]"
       (match o with Some f => content f | None => EmptyString end)
  then [] else [pyprojectToml].

(** The files the option-driven steps of the FastAPI generator write, in
    the order of the steps. *)
Definition conditionalPaths (opts : ProjectOptions) (o : option file)
    : list path :=
  [["requirements.txt"]] ++
  (if truthy (opts !! "orm")
   then [["app"; "db"; "models.py"]; ["app"; "db"; "session.py"];
         ["app"; "db"; "__init__.py"]] else []) ++
  (if truthy (opts !! "migrations")
   then [["alembic.ini"]; ["alembic"; "env.py"];
         ["alembic"; "script.py.mako"]] else []) ++
  (if truthy (opts !! "docker")
   then [["Dockerfile"]; [".dockerignore"]] else []) ++
  (if truthy (opts !! "dockerCompose") then [["docker-compose.yml"]] else []) ++
  (if truthy (opts !! "tests")
   then [["pytest.ini"]; ["tests"; "conftest.py"]; ["tests"; "test_main.py"];
         ["tests"; "__init__.py"]] else []) ++
  (if truthy (opts !! "envFiles") then [[".env.example"]] else []) ++
  (if truthy (opts !! "prodConfig")
   then [["app"; "config"; "production.py"]] else []) ++
  (if truthy (opts !! "devConfig")
   then [["app"; "config"; "development.py"]] else []) ++
  (if truthy (opts !! "linter") then [["ruff.toml"]] else []) ++
  (if truthy (opts !! "formatter") then formatterPaths o else []) ++
  (if truthy (opts !! "preCommit") then [[".pre-commit-config.yaml"]] else []) ++
  (if truthy (opts !! "logging") then [["app"; "core"; "logging.py"]] else []) ++
  (if truthy (opts !! "monitoring") then [] else []) ++
  (if truthy (opts !! "readme") then [["README.md"]] else []) ++
  [["app"; "main.py"]] ++
  [["app"; "core"; "config.py"]].

Definition dirEntries (n : node) : list (string * node) :=
  match n with NDir es => es | _ => [] end.

Local Open Scope fs_scope.

(** Everything [generateOptionalFiles] does after the manifest. *)
Definition afterManifest (bodies : FastAPI.FileBodies) (options : GeneratorOptions)
    : M unit :=
  let opts := default ∅ (Types.options options) in
  let projectName := Types.projectName options in
  when (truthy (opts !! "orm")) (FastAPI.generateORMFiles bodies projectName) ;;
  when (truthy (opts !! "migrations")) (FastAPI.generateMigrationFiles bodies projectName) ;;
  when (truthy (opts !! "docker")) (FastAPI.generateDockerFiles bodies projectName) ;;
  when (truthy (opts !! "dockerCompose"))
       (FastAPI.generateDockerCompose bodies projectName opts) ;;
  when (truthy (opts !! "tests")) (FastAPI.generateTestFiles bodies projectName) ;;
  when (truthy (opts !! "envFiles")) (FastAPI.generateEnvFiles bodies) ;;
  when (truthy (opts !! "prodConfig")) (FastAPI.generateProdConfig bodies) ;;
  when (truthy (opts !! "devConfig")) (FastAPI.generateDevConfig bodies) ;;
  when (truthy (opts !! "linter")) (FastAPI.generateLinterConfig bodies) ;;
  when (truthy (opts !! "formatter")) (FastAPI.generateFormatterConfig bodies) ;;
  when (truthy (opts !! "preCommit")) (FastAPI.generatePreCommitConfig bodies) ;;
  when (truthy (opts !! "logging")) (FastAPI.generateLoggingConfig bodies) ;;
  when (truthy (opts !! "monitoring")) FastAPI.generateMonitoring ;;
  when (truthy (opts !! "readme")) (FastAPI.generateREADME bodies projectName opts) ;;
  FastAPI.generateMainPy bodies projectName opts ;;
  FastAPI.generateConfigPy bodies projectName opts ;;
  replacePlaceholders (FastAPI.replacements projectName).

End Effects.

(** ** Sample data for the examples *)
Module Samples.
Import Types Fs Base FastAPI.

(** Short texts standing for the file bodies. *)
Definition demoBodies : FileBodies :=
  {| mainPy_imports := "from fastapi import FastAPI;";
     mainPy_logging := "setup_logging();";
     mainPy_app := fun n => "app = FastAPI(title=" +:+ n +:+ ");";
     mainPy_health := "health;";
     mainPy_root := fun n => "Welcome to " +:+ n;
     configPy_head := fun n => "PROJECT_NAME = " +:+ n +:+ ";";
     configPy_database := "DATABASE_URL;";
     configPy_tail := "settings = Settings()";
     modelsContent := "Base = declarative_base()";
     sessionContent := "SessionLocal";
     dbInitContent := "from app.db.models import Base";
     alembicIni := "[alembic]";
     envPy := "run_migrations_online()";
     scriptMako := "revision";
     dockerfile := "FROM python:3.11-slim";
     dockerignore := "__pycache__";
     dockerCompose := fun hasDb snake =>
       if hasDb then "services: app, db " +:+ snake else "services: app";
     pytestIni := "[pytest]";
     conftest := "fixtures";
     testMain := "test_root";
     envExample := "DEBUG=True";
     prodConfig := "ProductionSettings";
     devConfig := "DevelopmentSettings";
     ruffToml := "[lint]";
     blackConfig := "[tool.black]";
     preCommitContent := "repos:";
     loggingConfig := "structlog";
     readme := fun n features _ _ _ _ kebab => n +:+ features +:+ kebab |}.

Definition optsEmpty : ProjectOptions := ∅.
Definition optsTestsOff : ProjectOptions := {[ "tests" := VBool false ]}.
Definition optsOrmTests : ProjectOptions :=
  <[ "orm" := VBool true ]> {[ "tests" := VBool true ]}.
Definition optsDocker : ProjectOptions := {[ "docker" := VBool true ]}.

Definition textFile (c : string) : node := NFile (mkFile c true true).
Definition readOnlyFile (c : string) : node := NFile (mkFile c true false).

(** A template tree: sources below [app], a [.gitignore], a [.git]
    directory, and a licence file without write permission. *)
Definition demoTemplate : node :=
  NDir [("app", NDir [("core", NDir [("about.py",
                                      textFile "name = {{projectName}}")])]);
        (".gitignore", textFile "venv/");
        (".git", NDir [("HEAD", textFile "ref: refs/heads/main")]);
        ("LICENSE", readOnlyFile "Copyright {{projectName}}")].

Definition templatesDir : string := "/usr/lib/node_modules/trixo/templates".

(** Nothing at the target path yet. *)
Definition freshWorld : world :=
  mkWorld templatesDir
          (<[ "js/express" := demoTemplate ]>
             {[ "python/fastapi" := demoTemplate ]})
          None [] (fun _ => false).

(** The target path is taken. *)
Definition takenWorld : world := setTarget (Some (NDir [])) freshWorld.

(** An empty project skeleton at the target path. *)
Definition skeletonWorld : world :=
  setTarget (Some (NDir [("app", NDir [("core", NDir [])])])) freshWorld.

Definition request (name : string) (opts : option ProjectOptions)
    : GeneratorOptions :=
  {| projectName := name; targetPath := name; options := opts |}.

(** The FastAPI generator run for the project [demo] on the free target
    path: the result and the final state. *)
Definition demoRun : result unit * world :=
  generate (FastAPIGenerator demoBodies) (request "demo" None) freshWorld.

End Samples.

(** ** Texts with placeholder tokens *)
Module Tokens.
Import Base.

(** No opening or closing brace occurs in [s]. *)
Definition braceFree (s : string) : Prop :=
  Forall (fun c => c <> "{"%char /\ c <> "}"%char) (Js.chars s).

(** No dollar sign occurs in [s]. *)
Definition dollarFree (s : string) : Prop :=
  Forall (fun c => c <> "$"%char) (Js.chars s).

(** A text cut into plain stretches and tokens. *)
Inductive segment :=
  | Plain (s : string)
  | Token (key : string).

Definition renderSegment (seg : segment) : string :=
  match seg with
  | Plain s => s
  | Token key => placeholder key
  end.

Fixpoint render (segs : list segment) : string :=
  match segs with
  | [] => EmptyString
  | seg :: rest => renderSegment seg +:+ render rest
  end.

(** Braces occur only as the delimiters of tokens. *)
Definition wellFormed (segs : list segment) : Prop :=
  Forall (fun seg => match seg with
                     | Plain s => braceFree s
                     | Token key => braceFree key
                     end) segs.

(** The value a replacement map gives a key: the first entry for it. *)
Fixpoint valueOf (key : string) (replacements : list (string * string))
    : option string :=
  match replacements with
  | [] => None
  | (k, v) :: rest => if String.eqb key k then Some v else valueOf key rest
  end.

(** A token with a recognized key becomes its value; everything else
    stays. *)
Definition resolve (replacements : list (string * string)) (seg : segment)
    : segment :=
  match seg with
  | Plain s => Plain s
  | Token key =>
      match valueOf key replacements with
      | Some v => Plain v
      | None => Token key
      end
  end.

(** One turn of the loop over the replacement map, on segments. *)
Definition resolveKey (key value : string) (seg : segment) : segment :=
  match seg with
  | Plain s => Plain s
  | Token k => if String.eqb k key then Plain value else Token k
  end.

(** The values a replacement map may hold for the pass to be a plain
    substitution: no brace and no dollar sign; and brace-free keys. *)
Definition plainReplacements (replacements : list (string * string)) : Prop :=
  Forall (fun kv => braceFree kv.1 /\ braceFree kv.2 /\ dollarFree kv.2)
         replacements.

End Tokens.

(** ** Sample data for the placeholder pass *)
Module PassSamples.
Import Types Fs Base Tokens Samples.

Definition aboutSegments : list segment :=
  [Plain "name = "; Token "projectName"; Plain " (";
   Token "projectNameSnake"; Plain "), "; Token "unknown"].

Definition aboutFile : file :=
  mkFile "name = {{projectName}} ({{projectNameSnake}}), {{unknown}}" true true.

(** A target directory with one text file that holds tokens. *)
Definition tokenWorld : world :=
  setTarget (Some (NDir [("about.py", NFile aboutFile)])) freshWorld.

End PassSamples.

(** ** Sample data for runs that fail *)
Module FailureSamples.
Import Types Fs Base Samples.

(** A project skeleton in which the name [Dockerfile] is taken by a
    directory. *)
Definition blockedWorld : world :=
  setTarget (Some (NDir [("app", NDir [("core", NDir [])]);
                         ("Dockerfile", NDir [])])) freshWorld.

End FailureSamples.

(** ** [config/languages.ts] *)
Module Languages.
Import Types.

Record FrameworkConfig := {
  fwName : string;
  fwValue : Framework;
  generator : string
}.

Record LanguageConfig := {
  name : string;
  value : Language;
  frameworks : list FrameworkConfig
}.

(** [LANGUAGE_CONFIGS[language]] *)
Definition getLanguageConfig (language : Language) : LanguageConfig :=
  match language with
  | PYTHON =>
      {| name := "Python"; value := PYTHON;
         frameworks :=
           [ {| fwName := "FastAPI"; fwValue := FASTAPI; generator := "fastapi" |};
             {| fwName := "Django"; fwValue := DJANGO; generator := "django" |};
             {| fwName := "Flask"; fwValue := FLASK; generator := "flask" |} ] |}
  | JAVASCRIPT =>
      {| name := "JavaScript/TypeScript"; value := JAVASCRIPT;
         frameworks :=
           [ {| fwName := "Express"; fwValue := EXPRESS; generator := "express" |} ] |}
  | GO =>
      {| name := "Go"; value := GO;
         frameworks :=
           [ {| fwName := "Gin"; fwValue := GIN; generator := "gin" |} ] |}
  | RUST =>
      {| name := "Rust"; value := RUST;
         frameworks :=
           [ {| fwName := "Default"; fwValue := DEFAULT; generator := "rust" |} ] |}
  end.

(** The values of [LANGUAGE_CONFIGS] in the order of its keys. *)
Definition LANGUAGE_CONFIGS : list LanguageConfig :=
  map getLanguageConfig [PYTHON; JAVASCRIPT; GO; RUST].

(** A choice of the prompts: the label shown and the value returned. *)
Definition getLanguageChoices : list (string * Language) :=
  map (fun config => (name config, value config)) LANGUAGE_CONFIGS.

Definition getFrameworkChoices (language : Language)
    : list (string * Framework) :=
  let config := getLanguageConfig language in
  map (fun fw => (fwName fw, fwValue fw)) (frameworks config).

End Languages.

(** ** The option keys the FastAPI generator reads *)
Module OptionKeys.

(** The keys of [opts] that [generateOptionalFiles] of the FastAPI
    generator and the routines it calls look up. *)
Definition inspectedKeys : list string :=
  ["orm"; "migrations"; "docker"; "dockerCompose"; "tests"; "envFiles";
   "prodConfig"; "devConfig"; "linter"; "formatter"; "preCommit"; "logging";
   "monitoring"; "readme"].

End OptionKeys.

(** ** [utils/index.ts]: [formatProjectName] *)
Module UtilsFormat.
Import Js.

(** The complement of the class of [/[^a-z0-9-]/]. *)
Definition allowedChar (c : ascii) : bool :=
  isLowerAZ c || isDigit c || Ascii.eqb c "-".

(** [s.replace(/[^a-z0-9-]/g, '-')] *)
Fixpoint replaceDisallowed (s : string) : string :=
  match s with
  | EmptyString => EmptyString
  | String c r => String (if allowedChar c then c else "-"%char)
                         (replaceDisallowed r)
  end.

(** [s.replace(/^-+|-+$/g, '')]: the first alternative takes the run of
    dashes at the start, the second the run of dashes at the end. *)
Fixpoint stripLeadingDashes (s : string) : string :=
  match s with
  | EmptyString => EmptyString
  | String c r => if Ascii.eqb c "-" then stripLeadingDashes r else s
  end.

Fixpoint stripTrailingDashes (s : string) : string :=
  match s with
  | EmptyString => EmptyString
  | String c r =>
      let r' := stripTrailingDashes r in
      if isEmpty r' && Ascii.eqb c "-" then EmptyString else String c r'
  end.

Definition stripDashes (s : string) : string :=
  stripTrailingDashes (stripLeadingDashes s).

Definition formatProjectName (name : string) : string :=
  stripDashes (replaceDisallowed (toLowerCase name)).

End UtilsFormat.

(** ** The alphabet of the derived names *)
Module CaseAux.
Import Js.

(** A small letter, a digit or the separator: the complement of the class
    of the last replacement of [toSnakeCase] and [toKebabCase]. *)
Definition wordChar (sep c : ascii) : bool :=
  isLowerAZ c || isDigit c || Ascii.eqb c sep.

Definition wordChars (sep : ascii) (s : string) : Prop :=
  Forall (fun c => wordChar sep c = true) (chars s).

End CaseAux.

(** ** [utils/index.ts]: [replaceInFiles] *)
Module UtilsFiles.
Import Types Fs Base.

(** One regular file in the loop of [replaceInFiles]: it is read,
    rewritten and written back; nothing catches a failure of the read or
    of the write.  The expression built for a key leaves the braces
    unescaped; for a key that is an identifier it matches the same text
    as the expression of [replacePlaceholders]. *)
Definition replaceInOneFile (replacements : list (string * string))
    (filePath : path) (f : file)
    : option error * node * list (path * string) :=
  if readable f then
    let content' := substitute replacements (content f) in
    if writable f then
      (None, NFile (mkFile content' (readable f) (writable f)),
       [(filePath, content')])
    else (Some (FsError "EACCES" filePath), NFile f, [])
  else (Some (FsError "EACCES" filePath), NFile f, []).

(** [replaceInFiles(dirPath, replacements)] on the directory tree: the
    error that stopped the loop, if any, the tree as the loop left it and
    the files written. *)
Fixpoint replaceInFilesIn (refuses : request -> bool)
    (replacements : list (string * string)) (dirPath : path) (n : node)
    : option error * node * list (path * string) :=
  match n with
  | NDir es =>
      if refuses (Readdir dirPath)
      then (Some (FsError "EACCES" dirPath), n, [])
      else
        let r :=
          (fix files (es : list (string * node))
             : option error * list (string * node) * list (path * string) :=
             match es with
             | [] => (None, [], [])
             | (name, m) :: rest =>
                 let filePath := dirPath ++ [name] in
                 let r1 :=
                   match m with
                   | NDir _ => replaceInFilesIn refuses replacements filePath m
                   | NFile f => replaceInOneFile replacements filePath f
                   | NOther => (None, m, [])
                   end in
                 match r1.1.1 with
                 | Some e => (Some e, (name, r1.1.2) :: rest, r1.2)
                 | None =>
                     let r2 := files rest in
                     (r2.1.1, (name, r1.1.2) :: r2.1.2, r1.2 ++ r2.2)
                 end
             end) es in
        (r.1.1, NDir r.1.2, r.2)
  | _ => (Some (FsError "ENOTDIR" dirPath), n, [])
  end.

(** The call [replaceInFiles(targetPath, replacements)]. *)
Definition replaceInFiles (replacements : list (string * string)) : M unit :=
  fun w =>
    match target w with
    | Some (NDir es) =>
        let r := replaceInFilesIn (refuses w) replacements [] (NDir es) in
        (match r.1.1 with None => Ok tt | Some e => Err e end,
         mkWorld (templatesRoot w) (templates w) (Some r.1.2)
                 (written w ++ r.2) (refuses w))
    | Some _ => (Err (FsError "ENOTDIR" []), w)
    | None => (Err (FsError "ENOENT" []), w)
    end.

(** The dispatch in the loop of [replaceInFiles] on one entry. *)
Definition replaceInFilesEntry (refuses : request -> bool)
    (replacements : list (string * string)) (filePath : path) (m : node)
    : option error * node * list (path * string) :=
  match m with
  | NDir _ => replaceInFilesIn refuses replacements filePath m
  | NFile f => replaceInOneFile replacements filePath f
  | NOther => (None, m, [])
  end.

End UtilsFiles.

(** ** What is at a path, and trees the pass can rewrite in full *)
Module Shape.
Import Fs Effects.

Inductive kind := KFile | KDir | KOther.

Definition kindOf (n : node) : kind :=
  match n with NFile _ => KFile | NDir _ => KDir | NOther => KOther end.

Definition kindAt (p : path) (n : node) : option kind :=
  kindOf <$> nodeAt p n.

Definition kindAtW (p : path) (w : world) : option kind :=
  match target w with
  | Some t => kindAt p t
  | None => None
  end.

(** Every regular file of the tree can be read and written. *)
Fixpoint allRewritable (n : node) : bool :=
  match n with
  | NFile f => rewritable f
  | NOther => true
  | NDir es =>
      (fix all (es : list (string * node)) : bool :=
         match es with
         | [] => true
         | (_, m) :: rest => allRewritable m && all rest
         end) es
  end.

(** No opening brace occurs in [s]. *)
Definition noOpenBrace (s : string) : Prop :=
  Forall (fun c => c <> "{"%char) (Js.chars s).

End Shape.

(** ** The tree a copy of the template leaves *)
Module CopyAux.
Import Fs.

(** The filter of [copyTemplate] on the name of an entry. *)
Definition visibleName (name : string) : bool :=
  negb (Js.startsWith "." name) || String.eqb name ".gitignore".

(** The tree without the entries the filter rejects, at every depth. *)
Fixpoint withoutHidden (n : node) : node :=
  match n with
  | NDir es =>
      NDir ((fix go (es : list (string * node)) : list (string * node) :=
               match es with
               | [] => []
               | (x, m) :: rest =>
                   if visibleName x then (x, withoutHidden m) :: go rest
                   else go rest
               end) es)
  | _ => n
  end.

(** Every regular file of the tree can be read. *)
Fixpoint allReadable (n : node) : bool :=
  match n with
  | NFile f => readable f
  | NOther => true
  | NDir es =>
      (fix all (es : list (string * node)) : bool :=
         match es with
         | [] => true
         | (_, m) :: rest => allReadable m && all rest
         end) es
  end.




End CopyAux.

(** ** [prompts/index.ts] *)
Module Prompts.
Import Js Types Utils.

(** The [validate] callback of the name prompt accepts an input. *)
Definition accepted (input : string) : bool :=
  match getProjectNameError input with
  | None => true
  | Some _ => false
  end.

(** [promptProjectName(initialName)].  [typed] holds the answers the
    prompt is given, in order: the prompt asks again until [validate]
    accepts one.  [None]: no answer was accepted, the prompt is still
    open. *)
Definition promptProjectName (initialName : option string)
    (typed : list string) : option string :=
  match initialName with
  | Some n =>
      if negb (isEmpty n) && validateProjectName n then Some n
      else find accepted typed
  | None => find accepted typed
  end.

(** The loop of [promptOptions] over the values the checkbox returns. *)
Definition selected (checked : list string) : ProjectOptions :=
  foldl (fun result option => <[option := VBool true]> result) ∅ checked.

(** [promptOptions(availableOptions, language)]; [checked] are the
    values of the boxes the user ticked. *)
Definition promptOptions (availableOptions : list string)
    (checked : list string) : ProjectOptions :=
  if length availableOptions =? 0 then ∅ else selected checked.

Record PromptResult := {
  projectName : string;
  language : Language;
  framework : Framework;
  options : option ProjectOptions
}.

(** [Object.keys(options).length > 0 ? options : undefined] *)
Definition orUndefined (options : ProjectOptions) : option ProjectOptions :=
  if 0 <? size options then Some options else None.

(** The answers of a session. *)
Record Answers := {
  typedNames : list string;
  chosenLanguage : Language;
  chosenFramework : Framework;
  checkedOptions : list string
}.

(** [runPrompts(initialProjectName, availableOptions)] *)
Definition runPrompts (initialProjectName : option string)
    (availableOptions : list string) (a : Answers) : option PromptResult :=
  match promptProjectName initialProjectName (typedNames a) with
  | None => None
  | Some projectName =>
      let language := chosenLanguage a in
      let framework := chosenFramework a in
      let options :=
        if 0 <? length availableOptions
        then promptOptions availableOptions (checkedOptions a)
        else ∅ in
      Some {| projectName := projectName; language := language;
              framework := framework; options := orUndefined options |}
  end.

End Prompts.

(** ** [cli.ts] *)
Module Cli.
Import Js Types Fs Base Registry Prompts.

(** How the action ends: the success message, [process.exit(1)] after an
    error, or a prompt that is still open. *)
Inductive Outcome :=
  | Scaffolded
  | Exit1 (e : error)
  | Waiting.

(** The action of the command.  [generators] is the registry;
    [initialProjectName] the argument of the command line, if any. *)
Definition action (generators : gmap string GeneratorConstructor)
    (initialProjectName : option string) (a : Answers)
    : world -> Outcome * world :=
  fun w =>
    let name :=
      match initialProjectName with
      | Some n => if isEmpty n then promptProjectName None (typedNames a)
                  else Some n
      | None => promptProjectName None (typedNames a)
      end in
    match name with
    | None => (Waiting, w)
    | Some projectName =>
        let language := chosenLanguage a in
        let framework := chosenFramework a in
        if negb (hasGenerator generators language framework) then
          (Exit1 (JsError ("Generator not found for "
                           +:+ languageValue language +:+ ":"
                           +:+ frameworkValue framework)), w)
        else
          match getGenerator generators language framework with
          | Err e => (Exit1 e, w)
          | Ok generator =>
              let availableOptions := getAvailableOptions generator in
              let options :=
                if 0 <? length availableOptions
                then promptOptions availableOptions (checkedOptions a)
                else ∅ in
              match generate generator
                      {| Types.projectName := projectName;
                         targetPath := projectName;
                         Types.options := orUndefined options |} w with
              | (Ok _, w') => (Scaffolded, w')
              | (Err e, w') => (Exit1 e, w')
              end
          end
    end.

End Cli.

(** ** Trees the FastAPI generator can write into *)
Module Fits.
Import Types Fs Base.

(** What is at a path: a regular file with its permissions, a directory
    or something else. *)
Inductive stat :=
  | SFile (r w : bool)
  | SDir
  | SOther.

Definition statOf (n : node) : stat :=
  match n with
  | NFile f => SFile (readable f) (writable f)
  | NDir _ => SDir
  | NOther => SOther
  end.

Definition statAt (p : path) (n : node) : option stat :=
  statOf <$> nodeAt p n.

Fixpoint isPrefix (p d : path) : bool :=
  match p, d with
  | [], _ => true
  | x :: p', y :: d' => String.eqb x y && isPrefix p' d'
  | _ :: _, [] => false
  end.

(** The prefixes of a path, the empty one and the path itself included. *)
Fixpoint prefixes (d : path) : list path :=
  match d with
  | [] => [[]]
  | x :: d' => [] :: map (cons x) (prefixes d')
  end.

(** The files the routines of the FastAPI generator write and the
    directories they make. *)
Definition generatedFiles : list path :=
  [["requirements.txt"];
   ["app"; "db"; "models.py"]; ["app"; "db"; "session.py"];
   ["app"; "db"; "__init__.py"];
   ["alembic.ini"]; ["alembic"; "env.py"]; ["alembic"; "script.py.mako"];
   ["Dockerfile"]; [".dockerignore"]; ["docker-compose.yml"];
   ["pytest.ini"]; ["tests"; "conftest.py"]; ["tests"; "test_main.py"];
   ["tests"; "__init__.py"];
   [".env.example"];
   ["app"; "config"; "production.py"]; ["app"; "config"; "development.py"];
   ["ruff.toml"]; ["pyproject.toml"]; [".pre-commit-config.yaml"];
   ["app"; "core"; "logging.py"]; ["README.md"];
   ["app"; "main.py"]; ["app"; "core"; "config.py"]].

Definition generatedDirs : list path :=
  [["app"; "db"]; ["alembic"]; ["alembic"; "versions"]; ["tests"];
   ["app"; "config"]; ["app"; "core"]].

(** The directories the generator writes into without making them. *)
Definition requiredDirs : list path := [[]; ["app"]; ["app"; "core"]].

(** Nothing is at the path, or a file that can be read and written. *)
Definition freeForFile (t : node) (p : path) : bool :=
  match statAt p t with
  | None => true
  | Some (SFile r w) => r && w
  | Some _ => false
  end.

(** Nothing is at the path, or a directory. *)
Definition freeForDir (t : node) (p : path) : bool :=
  match statAt p t with
  | None | Some SDir => true
  | Some _ => false
  end.

Definition isDirAt (t : node) (p : path) : bool :=
  match statAt p t with
  | Some SDir => true
  | _ => false
  end.

(** The tree has the directories [app] and [app/core], and none of the
    names the generator uses is taken by something of the wrong kind or by
    a file it cannot read and write. *)
Definition fits (t : node) : bool :=
  forallb (isDirAt t) requiredDirs &&
  forallb (freeForFile t) generatedFiles &&
  forallb (freeForDir t) generatedDirs.

(** [fits], with the directories of [known] in place. *)
Definition fitsWith (known : list path) (t : node) : Prop :=
  Forall (fun d => isDirAt t d = true) known /\
  Forall (fun p => freeForFile t p = true) generatedFiles /\
  Forall (fun d => freeForDir t d = true) generatedDirs.

(** The state of the tree between the routines of the generator. *)
Definition ready (t : node) : Prop := fitsWith requiredDirs t.

(** [upd] goes through on a place that is free for a file, and gives a
    file that can be read and written. *)
Definition gentle (upd : option file -> result file) : Prop :=
  forall o,
    match o with
    | Some f => Effects.rewritable f = true
    | None => True
    end ->
    exists f', upd o = Ok f' /\ Effects.rewritable f' = true.

(** When the file system refuses nothing, the step succeeds from a
    target tree that satisfies [I] and leaves a target tree that
    satisfies [J]. *)
Definition succeeds {A} (m : M A) (I J : node -> Prop) : Prop :=
  forall w t, Effects.quiet w -> target w = Some t -> I t ->
    exists a w' t',
      m w = (Ok a, w') /\ Effects.quiet w' /\ target w' = Some t' /\ J t'.

End Fits.

(** ** What no step undoes *)
Module Keeps.
Import Fs.

(** Whatever its outcome, the step leaves the templates alone and does
    not remove the target. *)
Definition keeps {A} (m : M A) : Prop :=
  forall w,
    templates (m w).2 = templates w /\
    templatesRoot (m w).2 = templatesRoot w /\
    (is_Some (target w) -> is_Some (target (m w).2)).

End Keeps.

(** ** What a run leaves in place *)
Module Lasting.
Import Fs Effects.

(** Between two states of a run on a tree without repeated names: the
    tree stays without repeated names, the record of written files only
    grows, and every file that was there or was written in between is
    there at the end. *)
Definition lasting (w w' : world) : Prop :=
  wfW w ->
  wfW w' /\
  (exists l, written w' = written w ++ l) /\
  (forall p, is_Some (fileAtW p w) \/ In p (pathsWrittenSince w w') ->
             is_Some (fileAtW p w')).

End Lasting.

(** ** Keys of a replacement map *)
Module Keys.
Import Js.

Definition isIdentifierStart (c : ascii) : bool :=
  isUpperAZ c || isLowerAZ c || Ascii.eqb c "_".

Definition isIdentifierPart (c : ascii) : bool :=
  isIdentifierStart c || isDigit c.

(** An identifier over letters, digits and the underscore.  For such a
    key the regular expressions the sources build, with the braces
    escaped or not, match the key between double braces and nothing
    else. *)
Definition isIdentifier (s : string) : bool :=
  match s with
  | EmptyString => false
  | String c r => isIdentifierStart c && forallb isIdentifierPart (chars r)
  end.

Definition identifierKeys (replacements : list (string * string)) : Prop :=
  Forall (fun kv => isIdentifier kv.1 = true) replacements.

End Keys.

(** ** Steps that cannot succeed *)
Module Doomed.
Import Fs Fits.

(** Something is at the target path, and nothing at [d] below it. *)
Definition absent (d : path) (w : world) : Prop :=
  exists t, target w = Some t /\ statAt d t = None.

(** From a state that satisfies [I] the step does not succeed. *)
Definition doomed {A} (m : M A) (I : world -> Prop) : Prop :=
  forall w, I w -> forall a w', m w <> (Ok a, w').

(** A successful step takes a state that satisfies [I] to one that
    does. *)
Definition stays {A} (m : M A) (I : world -> Prop) : Prop :=
  forall w a w', I w -> m w = (Ok a, w') -> I w'.

End Doomed.

(** ** The manifest as a text *)
Module ManifestText.





End ManifestText.

(** ** Texts in which braces occur freely *)
Module Marks.
Import Base Tokens.

(** The keys of the replacement map of the FastAPI generator. *)
Definition recognized : list string :=
  ["projectName"; "projectNameSnake"; "projectNameKebab"].

Definition isBraceFree (s : string) : bool :=
  forallb (fun c => negb (Ascii.eqb c "{") && negb (Ascii.eqb c "}"))
          (Js.chars s).

(** A replacement text that [GetSubstitution] copies as it is: no dollar
    sign in it is followed by a dollar sign, an ampersand, a backquote or
    a quote. *)
Fixpoint verbatim (s : string) : bool :=
  match s with
  | EmptyString => true
  | String c r =>
      if Ascii.eqb c "$" then
        match r with
        | String d _ =>
            negb (Ascii.eqb d "$" || Ascii.eqb d "&" || Ascii.eqb d "`"
                  || Ascii.eqb d "'")
            && verbatim r
        | EmptyString => true
        end
      else verbatim r
  end.

(** A token of [keys] starts the text [s]. *)
Definition startsToken (keys : list string) (s : string) : bool :=
  existsb (fun k => Js.startsWith (placeholder k) s) keys.

(** No token of [keys] starts inside the stretch [s] of the text
    [s +:+ rest]. *)
Fixpoint clear (keys : list string) (s rest : string) : bool :=
  match s with
  | EmptyString => true
  | String _ s' => negb (startsToken keys (s +:+ rest)) && clear keys s' rest
  end.

(** A cut of a text into segments that marks the tokens of [keys]: no
    such token starts inside a plain stretch, and the key of a marked
    token holds no brace.  The plain stretches may hold braces, and
    tokens with other keys. *)
Fixpoint marked (keys : list string) (segs : list segment) : bool :=
  match segs with
  | [] => true
  | Plain s :: rest => clear keys s (render rest) && marked keys rest
  | Token k :: rest => isBraceFree k && marked keys rest
  end.

(** The cut of a text that marks the tokens of [keys] from left to right
    and leaves every other character as a plain stretch of its own.
    [skip] is the number of characters of the last token still to be
    stepped over. *)
Fixpoint tokensFrom (keys : list string) (skip : nat) (s : string)
    : list segment :=
  match s with
  | EmptyString => []
  | String c s' =>
      match skip with
      | S n => tokensFrom keys n s'
      | O =>
          match find (fun k => Js.startsWith (placeholder k) s) keys with
          | Some k =>
              Token k :: tokensFrom keys (String.length (placeholder k) - 1) s'
          | None => Plain (String c EmptyString) :: tokensFrom keys 0 s'
          end
      end
  end.

Definition tokens (keys : list string) (s : string) : list segment :=
  tokensFrom keys 0 s.

(** The value [v] is no stretch of a token of [keys]: put into a text, it
    cannot complete one. *)
Definition apart (keys : list string) (v : string) : bool :=
  forallb (fun k => negb (Js.includes v (placeholder k))) keys.

(** The three forms of a project name are apart from the tokens. *)
Definition formsApart (name : string) : bool :=
  forallb (apart recognized)
          [name; FastAPI.toSnakeCase name; FastAPI.toKebabCase name].

(** The marking of the tokens of [keys] holds before and after every
    turn of the loop over the replacement map: no turn completes a token
    of [keys] out of a value and the text around it. *)
Fixpoint stable (keys : list string) (replacements : list (string * string))
    (segs : list segment) : bool :=
  marked keys segs &&
  match replacements with
  | [] => true
  | (k, v) :: rest => stable keys rest (map (resolveKey k v) segs)
  end.

(** Two conditions under which the marking is stable for a project name
    without a brace: braces occur in the text only as delimiters of
    tokens, or the cut marks the recognized tokens and the forms of the
    name are apart from them. *)
Definition covered (name : string) (segs : list segment) : Prop :=
  wellFormed segs \/ (marked recognized segs = true /\ formsApart name = true).

End Marks.

(** ** More sample data for the placeholder pass *)
Module TokenSamples.
Import Types Fs Base Tokens Samples.

(** A text with braces of its own: a Python dictionary. *)
Definition dictFile : file :=
  mkFile "cfg = {'name': '{{projectName}}', 'slug': '{{projectNameKebab}}', 'env': {{unknown}}}"
         true true.

Definition dictSegments : list segment :=
  [Plain "cfg = {'name': '"; Token "projectName"; Plain "', 'slug': '";
   Token "projectNameKebab"; Plain "', 'env': "; Token "unknown"; Plain "}"].

Definition dictWorld : world :=
  setTarget (Some (NDir [("settings.py", NFile dictFile)])) freshWorld.

(** A text in which a token stands inside the braces of another. *)
Definition nestedFile : file :=
  mkFile "{{projectN{{projectNameSnake}}me}}" true true.

Definition nestedWorld : world :=
  setTarget (Some (NDir [("about.py", NFile nestedFile)])) freshWorld.

End TokenSamples.

(* ===================================================================== *)
(** * Part II: theorems                                                  *)
(* ===================================================================== *)

Module UtilsFacts.
Import Js Utils.

Lemma isEmpty_true s : isEmpty s = true <-> s = EmptyString.
Proof. destruct s; simpl; intuition congruence. Qed.

Lemma trimStart_empty_iff s :
  trimStart s = EmptyString <-> Forall (fun c => isWhiteSpace c = true) (chars s).
Proof.
  induction s as [|c s IH]; simpl.
  - split; [constructor | reflexivity].
  - destruct (isWhiteSpace c) eqn:Hc.
    + rewrite IH. split.
      * intros H. constructor; assumption.
      * intros H. inversion H; assumption.
    + split; [discriminate|].
      intros H. inversion H; congruence.
Qed.

Lemma trimEnd_empty_iff s :
  trimEnd s = EmptyString <-> Forall (fun c => isWhiteSpace c = true) (chars s).
Proof.
  induction s as [|c s IH]; simpl.
  - split; [constructor | reflexivity].
  - destruct (isEmpty (trimEnd s)) eqn:He, (isWhiteSpace c) eqn:Hc; simpl.
    + apply isEmpty_true in He. split; [|reflexivity].
      intros _. constructor; [assumption | now apply IH].
    + split; [discriminate|]. intros H. inversion H; congruence.
    + split; [discriminate|]. intros H. inversion H; subst.
      apply IH in H3. rewrite H3 in He. discriminate.
    + split; [discriminate|]. intros H. inversion H; congruence.
Qed.

Lemma trimStart_blank_or_suffix s :
  trimStart s = EmptyString \/
  exists c r, trimStart s = String c r /\ isWhiteSpace c = false.
Proof.
  induction s as [|c s IH]; simpl; [now left|].
  destruct (isWhiteSpace c) eqn:Hc; [exact IH|].
  right. eauto.
Qed.

(** The emptiness test of the validators is the blank-name predicate. *)
Lemma blank_test_iff name :
  isEmpty name || isEmpty (trim name) = true <-> blankName name.
Proof.
  unfold blankName, trim. rewrite orb_true_iff, !isEmpty_true. split.
  - intros [->|H]; [constructor|].
    destruct (trimStart_blank_or_suffix name) as [E|(c & r & E & Hc)].
    + now apply trimStart_empty_iff.
    + rewrite E in H. apply trimEnd_empty_iff in H.
      inversion H; congruence.
  - intros H. right. apply trimStart_empty_iff in H. rewrite H. reflexivity.
Qed.

Lemma code_inj a b : code a = code b -> a = b.
Proof.
  unfold code. intros H.
  rewrite <- (ascii_nat_embedding a), <- (ascii_nat_embedding b).
  now rewrite H.
Qed.

Lemma code_lt_256 a : code a < 256.
Proof. apply nat_ascii_bounded. Qed.

Lemma code_ascii_of_nat n : n < 256 -> code (ascii_of_nat n) = n.
Proof. apply nat_ascii_embedding. Qed.

Lemma invalidCharClass_iff c : invalidCharClass c = true <-> forbiddenChar c.
Proof.
  unfold invalidCharClass, forbiddenChar. simpl.
  rewrite !orb_true_iff, !Ascii.eqb_eq, Nat.leb_le.
  intuition (try discriminate).
Qed.

Lemma invalidChars_test_iff name :
  invalidChars_test name = true <-> hasForbiddenChar name.
Proof.
  unfold invalidChars_test, hasForbiddenChar.
  rewrite existsb_exists, List.Exists_exists.
  split; intros (c & Hin & Hc); exists c; split; trivial;
    now apply invalidCharClass_iff.
Qed.

(** Upper-casing a code unit gives [b], a code unit that is not a small
    letter, exactly when the two agree up to case. *)
Lemma upperChar_sameLetter a b :
  isLowerAZ b = false -> (upperChar a = b <-> sameLetter a b).
Proof.
  intros Hb. unfold upperChar, sameLetter.
  destruct (isLowerAZ a) eqn:Ha.
  - assert (Hr : 97 <= code a <= 122).
    { unfold isLowerAZ in Ha. apply andb_true_iff in Ha as [H1 H2].
      apply Nat.leb_le in H1, H2. lia. }
    split.
    + intros <-. right; left. split; trivial.
      rewrite code_ascii_of_nat; lia.
    + intros [->|[[_ H]|[H _]]]; [congruence| |congruence].
      apply code_inj. rewrite code_ascii_of_nat; lia.
  - split.
    + intros ->. now left.
    + intros [->|[[H _]|[H _]]]; congruence.
Qed.

Lemma toUpperCase_eq_iff name r :
  noSmallLetter r -> (toUpperCase name = r <-> equalIgnoringCase name r).
Proof.
  unfold noSmallLetter, equalIgnoringCase.
  revert r. induction name as [|a name IH]; intros [|b r] Hr; simpl.
  - split; [constructor | reflexivity].
  - split; [discriminate | intros H; inversion H].
  - split; [discriminate | intros H; inversion H].
  - inversion Hr as [|? ? Hb Hr']; subst. split.
    + intros H. injection H as H1 H2.
      constructor; [now apply upperChar_sameLetter | now apply IH].
    + intros H. inversion H; subst. f_equal.
      * now apply upperChar_sameLetter.
      * now apply IH.
Qed.

Lemma reservedNames_noSmallLetter r : In r reservedNames -> noSmallLetter r.
Proof.
  intros H. unfold reservedNames in H. simpl in H.
  repeat (destruct H as [<-|H];
          [unfold noSmallLetter; simpl; repeat constructor|]).
  destruct H.
Qed.

Lemma reserved_test_iff name :
  arrIncludes (toUpperCase name) reservedNames = true <-> reservedName name.
Proof.
  unfold arrIncludes, reservedName. rewrite existsb_exists.
  split; intros (r & Hin & H); exists r; split; trivial.
  - apply String.eqb_eq in H.
    now apply toUpperCase_eq_iff; [apply reservedNames_noSmallLetter|].
  - apply String.eqb_eq.
    now apply toUpperCase_eq_iff; [apply reservedNames_noSmallLetter|].
Qed.

Lemma validateProjectName_false_iff name :
  validateProjectName name = false <-> invalidName name.
Proof.
  unfold validateProjectName, invalidName.
  rewrite <- blank_test_iff, <- invalidChars_test_iff, <- reserved_test_iff.
  destruct (isEmpty name || isEmpty (trim name)); [tauto|].
  destruct (invalidChars_test name); [tauto|].
  destruct (arrIncludes (toUpperCase name) reservedNames); [tauto|].
  intuition discriminate.
Qed.

(** C6.  A name is rejected by [validateProjectName] exactly when it is
    blank (empty or white space only), contains a forbidden character, or
    is a reserved device name up to case; every other name is accepted;
    and for a rejected name [getProjectNameError] returns the non-empty
    message of the first cause that applies. *)
Theorem project_name_validation (name : string) :
  (validateProjectName name = false <-> invalidName name) /\
  (validateProjectName name = true <-> ~ invalidName name) /\
  (invalidName name ->
     exists msg, getProjectNameError name = Some msg /\ msg <> EmptyString) /\
  (blankName name ->
     getProjectNameError name = Some "Project name cannot be empty") /\
  (~ blankName name -> hasForbiddenChar name ->
     getProjectNameError name = Some "Project name contains invalid characters") /\
  (~ blankName name -> ~ hasForbiddenChar name -> reservedName name ->
     getProjectNameError name = Some "Project name is a reserved name").
Proof.
  pose proof (validateProjectName_false_iff name) as Hv.
  split; [exact Hv|]. split.
  { rewrite <- Hv. destruct (validateProjectName name); intuition congruence. }
  unfold invalidName, getProjectNameError.
  rewrite <- blank_test_iff, <- invalidChars_test_iff, <- reserved_test_iff.
  destruct (isEmpty name || isEmpty (trim name)),
           (invalidChars_test name),
           (arrIncludes (toUpperCase name) reservedNames);
    repeat split; intros; try tauto; try congruence;
    try (eexists; split; [reflexivity | discriminate]);
    try (exfalso; intuition congruence).
Qed.

(** C10.  The boolean validator and the error-message validator accept the
    same names. *)
Theorem validators_agree (n : string) :
  validateProjectName n = true <-> getProjectNameError n = None.
Proof.
  unfold validateProjectName, getProjectNameError.
  destruct (isEmpty n || isEmpty (trim n)); [split; discriminate|].
  destruct (invalidChars_test n); [split; discriminate|].
  destruct (arrIncludes (toUpperCase n) reservedNames);
    split; (discriminate || reflexivity).
Qed.

End UtilsFacts.

(** ** Strings *)
Module StringFacts.
Import Js.

Lemma append_assoc (a b c : string) : (a +:+ b) +:+ c = a +:+ (b +:+ c).
Proof. induction a as [|x a IH]; simpl; [reflexivity | now f_equal]. Qed.

Lemma append_empty_r (a : string) : a +:+ EmptyString = a.
Proof. induction a as [|x a IH]; simpl; [reflexivity | now f_equal]. Qed.

Lemma append_snoc (a : string) (c : ascii) (b : string) :
  (a +:+ String c EmptyString) +:+ b = a +:+ String c b.
Proof. now rewrite append_assoc. Qed.

Lemma length_append (a b : string) :
  String.length (a +:+ b) = String.length a + String.length b.
Proof. induction a as [|x a IH]; simpl; [reflexivity | now f_equal]. Qed.

Lemma chars_append (a b : string) : chars (a +:+ b) = chars a ++ chars b.
Proof. induction a as [|x a IH]; simpl; [reflexivity | now f_equal]. Qed.

Lemma isEmpty_append (a b : string) :
  isEmpty (a +:+ b) = isEmpty a && isEmpty b.
Proof. destruct a; reflexivity. Qed.

Lemma startsWith_append (p s : string) : startsWith p (p +:+ s) = true.
Proof.
  induction p as [|x p IH]; simpl; [reflexivity|].
  now rewrite Ascii.eqb_refl.
Qed.

Lemma startsWith_iff (p s : string) :
  startsWith p s = true <-> exists r, s = p +:+ r.
Proof.
  revert s. induction p as [|x p IH]; intros s; simpl.
  - split; [eauto | reflexivity].
  - destruct s as [|y s].
    + split; [discriminate | intros [r H]; discriminate].
    + rewrite andb_true_iff, Ascii.eqb_eq, IH. split.
      * intros [-> [r ->]]. eauto.
      * intros [r H]. injection H as -> ->. eauto.
Qed.

End StringFacts.

(** ** The copy filter *)
Module FilterFacts.
Import Js Path Fs Base StringFacts.

Lemma basenameFrom_noSep name :
  noSep name ->
  forall cur last,
    basenameFrom cur last name =
    if isEmpty (cur +:+ name) then last else cur +:+ name.
Proof.
  unfold noSep. induction name as [|c r IH]; intros H cur last; simpl.
  - now rewrite append_empty_r.
  - inversion H as [|? ? Hc Hr]; subst. rewrite Hc.
    rewrite IH by assumption. now rewrite append_snoc.
Qed.

Lemma basenameFrom_dir dir name :
  forall cur last,
    exists last',
      basenameFrom cur last (dir +:+ String "/" name) =
      basenameFrom EmptyString last' name.
Proof.
  induction dir as [|c d IH]; intros cur last; simpl.
  - eauto.
  - destruct (isSep c); apply IH.
Qed.

(** The base name of a directory entry's path is the entry's name. *)
Lemma basename_join dir name :
  noSep name -> name <> EmptyString ->
  basename (join dir name) = name.
Proof.
  intros Hn Hne. unfold basename, join. simpl.
  destruct (basenameFrom_dir dir name EmptyString EmptyString) as [l ->].
  rewrite basenameFrom_noSep by assumption. simpl.
  destruct name; [congruence | reflexivity].
Qed.

Lemma startsWith_dot (b : string) :
  startsWith "." b = true <-> exists rest, b = String "." rest.
Proof. rewrite startsWith_iff. simpl. reflexivity. Qed.

(** The same rule on the entries of a template directory. *)
Corollary copyFilter_entry (dir name : string) :
  noSep name -> name <> EmptyString ->
  copyFilter (join dir name) =
  negb (startsWith "." name) || String.eqb name ".gitignore".
Proof. intros H1 H2. unfold copyFilter. now rewrite basename_join. Qed.

(** C7.  The copy filter rejects a source path exactly when its base name
    begins with the character [.] and is not [.gitignore]: a test of the
    first character of the base name and one literal exception.  For the
    entry [name] of a directory this is a test on [name] alone, whatever
    the directory is. *)
Theorem copyFilter_rejects_iff (src : string) :
  (copyFilter src = false <->
   (exists rest, basename src = String "." rest) /\
   basename src <> ".gitignore") /\
  (forall dir name,
     noSep name -> name <> EmptyString ->
     (copyFilter (join dir name) = false <->
      (exists rest, name = String "." rest) /\ name <> ".gitignore")).
Proof.
  assert (H : forall b,
             negb (startsWith "." b) || String.eqb b ".gitignore" = false <->
             (exists rest, b = String "." rest) /\ b <> ".gitignore").
  { intros b. rewrite <- startsWith_dot.
    rewrite orb_false_iff, negb_false_iff, String.eqb_neq. reflexivity. }
  split.
  - apply H.
  - intros dir name Hn Hne. rewrite copyFilter_entry by assumption. apply H.
Qed.

End FilterFacts.

(** ** The registry *)
Module RegistryFacts.
Import Types Fs Base Registry.

(** C8.  [getGenerator] fails exactly when no constructor is registered
    under the key of the pair, the failure is the not-found error, and a
    registered constructor is applied to give the result; [hasGenerator]
    answers the same question without constructing anything. *)
Theorem getGenerator_spec (map : gmap string GeneratorConstructor)
    (language : Language) (framework : Framework) :
  (getGenerator map language framework = Err (notFound language framework)
     <-> map !! generatorKey language framework = None) /\
  (forall e, getGenerator map language framework = Err e ->
     e = notFound language framework /\
     map !! generatorKey language framework = None) /\
  (forall C, map !! generatorKey language framework = Some C ->
     getGenerator map language framework = Ok (C tt)) /\
  (hasGenerator map language framework =
     isOk (getGenerator map language framework)) /\
  generatorKey language framework =
    languageValue language +:+ ":" +:+ frameworkValue framework.
Proof.
  unfold getGenerator, hasGenerator.
  destruct (map !! generatorKey language framework) as [C|] eqn:E.
  - split; [split; discriminate|].
    split; [discriminate|].
    split; [intros C' H; congruence|].
    split; [|reflexivity].
    apply bool_decide_eq_true_2. eauto.
  - split; [split; reflexivity|].
    split; [intros e H; injection H as <-; split; reflexivity|].
    split; [discriminate|].
    split; [|reflexivity].
    apply bool_decide_eq_false_2. intros [x H]. discriminate.
Qed.

Lemma registerGenerator_get map language framework C :
  getGenerator (registerGenerator map language framework C) language framework
  = Ok (C tt).
Proof.
  unfold getGenerator, registerGenerator. now rewrite lookup_insert_eq.
Qed.

End RegistryFacts.

(** ** The generation pipeline *)
Module GenerateFacts.
Import Types Fs Base.

(** C4.  When the template is there and something already exists at the
    target path, [generate] fails with the already-exists error whatever
    the options are, and the state it leaves is the state it started
    from: nothing was written. *)
Theorem generate_rejects_existing_target (g : Generator)
    (options : GeneratorOptions) (w : world) :
  is_Some (templates w !! templateDir g) ->
  is_Some (target w) ->
  generate g options w =
    (Err (JsError ("Directory " +:+ targetPath options +:+ " already exists")), w).
Proof.
  intros Ht Hd. unfold generate, bind, getTemplatePath, templateExists,
    targetExists, throw.
  rewrite bool_decide_eq_true_2 by assumption. simpl.
  rewrite bool_decide_eq_true_2 by assumption. reflexivity.
Qed.

Lemma generate_missing_template g options w :
  templates w !! templateDir g = None ->
  generate g options w =
    (Err (JsError ("Template not found: "
                   +:+ Path.join (templatesRoot w) (templateDir g))), w).
Proof.
  intros Ht. unfold generate, bind, getTemplatePath, templateExists, throw.
  rewrite bool_decide_eq_false_2; [reflexivity|].
  rewrite Ht. intros [x H]. discriminate.
Qed.

End GenerateFacts.

(** ** The dependency manifest *)
Module RequirementsFacts.
Import Types PythonOptions Requirements RequirementsAux.

(** *** Set and sort *)

Lemma arrIncludes_In x xs : Js.arrIncludes x xs = true <-> In x xs.
Proof.
  unfold Js.arrIncludes. rewrite existsb_exists. split.
  - intros (y & Hy & E). apply String.eqb_eq in E. now subst.
  - intros H. exists x. split; [assumption | apply String.eqb_refl].
Qed.

Lemma setFrom_acc xs : forall seen,
  List.NoDup seen ->
  List.NoDup (foldl (fun seen x => if Js.arrIncludes x seen then seen
                                   else seen ++ [x]) seen xs) /\
  forall r, In r (foldl (fun seen x => if Js.arrIncludes x seen then seen
                                       else seen ++ [x]) seen xs)
            <-> In r seen \/ In r xs.
Proof.
  induction xs as [|x xs IH]; intros seen Hnd; simpl.
  - split; [assumption | intros r; tauto].
  - destruct (Js.arrIncludes x seen) eqn:E.
    + apply arrIncludes_In in E.
      destruct (IH seen Hnd) as [H1 H2]. split; [assumption|].
      intros r. rewrite H2. intuition (subst; auto).
    + assert (Hx : ~ In x seen).
      { intros H. apply arrIncludes_In in H. congruence. }
      assert (Hnd' : List.NoDup (seen ++ [x])).
      { apply List.NoDup_app; [assumption | repeat constructor; intros [] |].
        intros y Hy [<-|[]]. contradiction. }
      destruct (IH _ Hnd') as [H1 H2]. split; [assumption|].
      intros r. rewrite H2, in_app_iff. simpl. tauto.
Qed.

Lemma setFrom_NoDup xs : List.NoDup (setFrom xs).
Proof. apply (setFrom_acc xs []). constructor. Qed.

Lemma setFrom_In xs r : In r (setFrom xs) <-> In r xs.
Proof.
  unfold setFrom. destruct (setFrom_acc xs [] (List.NoDup_nil _)) as [_ H].
  rewrite H. simpl. tauto.
Qed.

Lemma insertSorted_In x xs r :
  In r (insertSorted x xs) <-> r = x \/ In r xs.
Proof.
  induction xs as [|y ys IH]; simpl.
  - intuition.
  - destruct (String.leb x y); simpl; [intuition|].
    rewrite IH. intuition.
Qed.

Lemma sort_In xs r : In r (sort xs) <-> In r xs.
Proof.
  unfold sort. induction xs as [|x xs IH]; simpl; [tauto|].
  rewrite insertSorted_In, IH. intuition.
Qed.

Lemma insertSorted_NoDup x xs :
  ~ In x xs -> List.NoDup xs -> List.NoDup (insertSorted x xs).
Proof.
  induction xs as [|y ys IH]; intros Hx Hnd; simpl.
  - constructor; [intros [] | constructor].
  - destruct (String.leb x y).
    + constructor; assumption.
    + inversion Hnd as [|? ? Hy Hys]; subst. constructor.
      * rewrite insertSorted_In. intros [->|H]; [simpl in Hx; tauto | tauto].
      * apply IH; [simpl in Hx; tauto | assumption].
Qed.

Lemma sort_NoDup xs : List.NoDup xs -> List.NoDup (sort xs).
Proof.
  unfold sort. induction xs as [|x xs IH]; intros H; simpl; [constructor|].
  inversion H; subst. apply insertSorted_NoDup.
  - change (~ In x (sort xs)). now rewrite sort_In.
  - now apply IH.
Qed.

Lemma leb_false_flip x y : String.leb x y = false -> String.leb y x = true.
Proof. intros H. destruct (String.leb_total x y); congruence. Qed.

Lemma insertSorted_ascending x xs :
  ascending xs -> ascending (insertSorted x xs).
Proof.
  unfold ascending. induction xs as [|y ys IH]; intros H; simpl.
  - repeat constructor.
  - destruct (String.leb x y) eqn:E.
    + constructor; [assumption | now constructor].
    + inversion H as [|? ? Hs Hh]; subst. constructor; [now apply IH|].
      destruct ys as [|z zs]; simpl.
      * constructor. now apply leb_false_flip.
      * destruct (String.leb x z); constructor.
        -- now apply leb_false_flip.
        -- now inversion Hh.
Qed.

Lemma sort_ascending xs : ascending (sort xs).
Proof.
  unfold sort. induction xs as [|x xs IH]; simpl.
  - constructor.
  - now apply insertSorted_ascending.
Qed.

(** *** The loop over the options *)

Lemma pushOption_scan opts options : forall requirements,
  foldl (pushOption opts) requirements options =
  requirements ++ scanWith (enabledIn opts) options.
Proof.
  unfold scanWith, enabledIn.
  induction options as [|o options IH]; intros requirements; simpl.
  - now rewrite app_nil_r.
  - rewrite IH. unfold pushOption, declaredRequirements.
    destruct (dependencies o) as [deps|].
    + destruct (truthy (opts !! key o)); [now rewrite <- app_assoc|reflexivity].
    + now destruct (truthy (opts !! key o)).
Qed.

Lemma someIncludes_app needle xs ys :
  someIncludes needle (xs ++ ys) =
  someIncludes needle xs || someIncludes needle ys.
Proof. apply existsb_app. Qed.

Lemma someIncludes_scan needle enabled options :
  someIncludes needle (scanWith enabled options) =
  existsb (fun o => enabled (key o) &&
                    someIncludes needle (declaredRequirements o)) options.
Proof.
  unfold scanWith. induction options as [|o options IH]; simpl; [reflexivity|].
  rewrite someIncludes_app, IH. now destruct (enabled (key o)).
Qed.

Ltac bool_tidy :=
  repeat (rewrite ?andb_false_r, ?andb_true_r, ?orb_false_r, ?orb_false_l;
          simpl).

(** Which options make a needle appear among the scanned requirements. *)
Lemma needle_dotenv enabled :
  someIncludes "python-dotenv" (baseRequirements ++ scanWith enabled getPythonOptions)
  = enabled "envFiles".
Proof.
  rewrite someIncludes_app, someIncludes_scan.
  unfold getPythonOptions, PYTHON_OPTIONS. simpl. now bool_tidy.
Qed.

Lemma needle_pytest enabled :
  someIncludes "pytest" (baseRequirements ++ scanWith enabled getPythonOptions)
  = enabled "tests".
Proof.
  rewrite someIncludes_app, someIncludes_scan.
  unfold getPythonOptions, PYTHON_OPTIONS. simpl. now bool_tidy.
Qed.

Lemma needle_sqlalchemy enabled :
  someIncludes "sqlalchemy" (baseRequirements ++ scanWith enabled getPythonOptions)
  = enabled "orm".
Proof.
  rewrite someIncludes_app, someIncludes_scan.
  unfold getPythonOptions, PYTHON_OPTIONS. simpl. now bool_tidy.
Qed.

Lemma needle_alembic enabled :
  someIncludes "alembic" (baseRequirements ++ scanWith enabled getPythonOptions)
  = enabled "migrations".
Proof.
  rewrite someIncludes_app, someIncludes_scan.
  unfold getPythonOptions, PYTHON_OPTIONS. simpl. now bool_tidy.
Qed.

(** The array before the sort: the base requirements, the scanned ones,
    and the two defaults for options that are neither enabled nor
    switched off.  The checks for [sqlalchemy] and [alembic] never add
    anything: when the option is enabled the scan has already pushed
    its requirement. *)
Lemma collectRequirements_eq opts :
  collectRequirements opts =
  (baseRequirements ++ scanWith (enabledIn opts) getPythonOptions)
  ++ (if notDisabledIn opts "envFiles" && negb (enabledIn opts "envFiles")
      then dotenvDefault else [])
  ++ (if notDisabledIn opts "tests" && negb (enabledIn opts "tests")
      then pytestDefault else []).
Proof.
  unfold collectRequirements, notDisabledIn. rewrite pushOption_scan.
  change (truthy (opts !! "orm")) with (enabledIn opts "orm").
  change (truthy (opts !! "migrations")) with (enabledIn opts "migrations").
  set (en := enabledIn opts).
  pose proof (needle_dotenv en) as Hd. pose proof (needle_pytest en) as Hp.
  pose proof (needle_sqlalchemy en) as Hs. pose proof (needle_alembic en) as Ha.
  set (r0 := baseRequirements ++ scanWith en getPythonOptions) in *.
  clearbody r0. rewrite Hd.
  destruct (notFalse (opts !! "envFiles")), (en "envFiles") eqn:Ee;
    destruct (en "orm") eqn:Eo, (en "migrations") eqn:Em;
    destruct (notFalse (opts !! "tests")), (en "tests") eqn:Et;
    simpl;
    rewrite ?someIncludes_app, ?Hs, ?Ha, ?Hp; simpl;
    rewrite ?someIncludes_app, ?Hs, ?Ha, ?Hp; simpl;
    rewrite ?someIncludes_app, ?Hs, ?Ha, ?Hp; simpl;
    rewrite ?app_nil_r; try reflexivity;
    now rewrite <- app_assoc.
Qed.

Lemma scanWith_In enabled options r :
  In r (scanWith enabled options) <->
  exists o, In o options /\ enabled (key o) = true /\
            In r (declaredRequirements o).
Proof.
  unfold scanWith. rewrite in_flat_map. split.
  - intros (o & Ho & Hr). exists o.
    destruct (enabled (key o)); [auto | destruct Hr].
  - intros (o & Ho & He & Hr). exists o. now rewrite He.
Qed.

(** The lines of the manifest. *)
Lemma uniqueRequirements_In opts r :
  In r (uniqueRequirements opts) <->
  In r baseRequirements \/
  (exists o, In o getPythonOptions /\ enabledIn opts (key o) = true /\
             In r (declaredRequirements o)) \/
  (In r dotenvDefault /\ notDisabledIn opts "envFiles" = true /\
   enabledIn opts "envFiles" = false) \/
  (In r pytestDefault /\ notDisabledIn opts "tests" = true /\
   enabledIn opts "tests" = false).
Proof.
  unfold uniqueRequirements.
  rewrite sort_In, setFrom_In, collectRequirements_eq, !in_app_iff, scanWith_In.
  destruct (notDisabledIn opts "envFiles"), (enabledIn opts "envFiles"),
           (notDisabledIn opts "tests"), (enabledIn opts "tests");
    simpl; intuition (try discriminate; auto).
Qed.

Lemma uniqueRequirements_sorted opts :
  ascending (uniqueRequirements opts) /\ List.NoDup (uniqueRequirements opts).
Proof.
  split; [apply sort_ascending | apply sort_NoDup, setFrom_NoDup].
Qed.

Lemma listsPackage_line pkg line lines :
  In line lines -> packageName line = pkg -> listsPackage pkg lines.
Proof. intros H <-. unfold listsPackage, packageNames. now apply in_map. Qed.

Lemma tests_option : In (mk "tests" "Testing Framework (pytest)"
    "Add pytest for testing" (Some true)
    (Some ["pytest"; "pytest-asyncio"; "httpx"])) getPythonOptions.
Proof. unfold getPythonOptions, PYTHON_OPTIONS. simpl. tauto. Qed.

Lemma orm_option : In (mk "orm" "ORM (SQLAlchemy)"
    "Add SQLAlchemy ORM for database operations" (Some false)
    (Some ["sqlalchemy"])) getPythonOptions.
Proof. unfold getPythonOptions, PYTHON_OPTIONS. simpl. tauto. Qed.

Lemma envFiles_option : In (mk "envFiles" "Environment Files (.env)"
    "Add .env.example and environment configuration" (Some true)
    (Some ["python-dotenv"])) getPythonOptions.
Proof. unfold getPythonOptions, PYTHON_OPTIONS. simpl. tauto. Qed.

(** The packages of the test option are listed unless [tests] is [false]. *)
Lemma tests_packages opts pkg :
  notDisabledIn opts "tests" = true ->
  In pkg ["pytest"; "pytest-asyncio"; "httpx"] ->
  listsPackage pkg (uniqueRequirements opts).
Proof.
  intros Hn Hp. destruct (enabledIn opts "tests") eqn:Et.
  - apply (listsPackage_line pkg (pkg +:+ ">=0.0.0")).
    + apply uniqueRequirements_In. right; left.
      eexists. split; [apply tests_option|]. split; [exact Et|].
      simpl. simpl in Hp. intuition (subst; auto).
    + simpl in Hp. intuition (subst; reflexivity).
  - simpl in Hp.
    destruct Hp as [<-|[<-|[<-|[]]]];
      [ apply (listsPackage_line _ "pytest>=7.4.3")
      | apply (listsPackage_line _ "pytest-asyncio>=0.21.1")
      | apply (listsPackage_line _ "httpx>=0.25.2") ];
      try reflexivity;
      apply uniqueRequirements_In; right; right; right;
      (split; [simpl; tauto | split; assumption]).
Qed.

Lemma envFiles_package opts :
  notDisabledIn opts "envFiles" = true ->
  listsPackage "python-dotenv" (uniqueRequirements opts).
Proof.
  intros Hn. destruct (enabledIn opts "envFiles") eqn:Ee.
  - apply (listsPackage_line _ "python-dotenv>=0.0.0"); [|reflexivity].
    apply uniqueRequirements_In. right; left.
    eexists. split; [apply envFiles_option|]. split; [exact Ee|].
    simpl. tauto.
  - apply (listsPackage_line _ "python-dotenv>=1.0.0"); [|reflexivity].
    apply uniqueRequirements_In. right; right; left.
    split; [simpl; tauto | split; assumption].
Qed.

(** The package names of the manifest grow with the options, as long as
    no default is switched off on the way. *)
Lemma manifest_packages_monotone (A B : ProjectOptions) :
  (forall k, enabledIn A k = true -> enabledIn B k = true) ->
  (notDisabledIn A "tests" = true -> notDisabledIn B "tests" = true) ->
  (notDisabledIn A "envFiles" = true -> notDisabledIn B "envFiles" = true) ->
  forall pkg, listsPackage pkg (uniqueRequirements A) ->
              listsPackage pkg (uniqueRequirements B).
Proof.
  intros Hen Ht He pkg H.
  unfold listsPackage, packageNames in H. apply in_map_iff in H.
  destruct H as (line & <- & Hl).
  apply uniqueRequirements_In in Hl.
  destruct Hl as [Hb|[(o & Ho & Hk & Hr)|[(Hr & Hn & _)|(Hr & Hn & _)]]].
  - apply (listsPackage_line _ line); [|reflexivity].
    apply uniqueRequirements_In. now left.
  - apply (listsPackage_line _ line); [|reflexivity].
    apply uniqueRequirements_In. right; left. exists o. auto.
  - destruct Hr as [<-|[]]. apply envFiles_package. auto.
  - apply tests_packages; [auto|].
    simpl in Hr. destruct Hr as [<-|[<-|[<-|[]]]]; simpl; tauto.
Qed.

End RequirementsFacts.

(** ** Directory trees *)
Module FsFacts.
Import Types Fs Base Effects.

(** Induction over trees, with the hypothesis for every entry of a
    directory. *)
Lemma node_ind2 (P : node -> Prop) :
  (forall f, P (NFile f)) -> P NOther ->
  (forall es, Forall (fun e => P e.2) es -> P (NDir es)) ->
  forall n, P n.
Proof.
  intros HF HO HD. fix IH 1. intros [f|es|]; [apply HF| |apply HO].
  apply HD. revert es. fix IHes 1. intros [|[x m] es].
  - constructor.
  - constructor; [apply IH | apply IHes].
Qed.

Lemma entry_setEntry_same x m es :
  entry x (setEntry x m es) = (fun _ => m) <$> entry x es.
Proof.
  induction es as [|[y m0] es IH]; simpl; [reflexivity|].
  destruct (String.eqb x y) eqn:E; simpl; rewrite E; [reflexivity | exact IH].
Qed.

Lemma entry_setEntry_other x y m es :
  y <> x -> entry y (setEntry x m es) = entry y es.
Proof.
  intros Hne. induction es as [|[z m0] es IH]; simpl; [reflexivity|].
  destruct (String.eqb x z) eqn:E; simpl.
  - apply String.eqb_eq in E. subst z.
    destruct (String.eqb y x) eqn:E'; [|reflexivity].
    apply String.eqb_eq in E'. contradiction.
  - destruct (String.eqb y z); [reflexivity | exact IH].
Qed.

Lemma entry_snoc_same x m es :
  entry x es = None -> entry x (es ++ [(x, m)]) = Some m.
Proof.
  induction es as [|[y m0] es IH]; simpl; intros H.
  - now rewrite String.eqb_refl.
  - destruct (String.eqb x y); [discriminate | now apply IH].
Qed.

Lemma entry_snoc_other x y m es :
  y <> x -> entry y (es ++ [(x, m)]) = entry y es.
Proof.
  intros Hne. induction es as [|[z m0] es IH]; simpl.
  - destruct (String.eqb y x) eqn:E; [|reflexivity].
    apply String.eqb_eq in E. contradiction.
  - destruct (String.eqb y z); [reflexivity | exact IH].
Qed.

Lemma names_setEntry x m es : map fst (setEntry x m es) = map fst es.
Proof.
  induction es as [|[y m0] es IH]; simpl; [reflexivity|].
  destruct (String.eqb x y); simpl; [reflexivity | now rewrite IH].
Qed.

Lemma entry_None_names x es : entry x es = None <-> ~ In x (map fst es).
Proof.
  induction es as [|[y m0] es IH]; simpl; [tauto|].
  destruct (String.eqb x y) eqn:E.
  - apply String.eqb_eq in E. subst. split; [discriminate | tauto].
  - apply String.eqb_neq in E. rewrite IH. intuition.
Qed.

Lemma entry_In x m es : entry x es = Some m -> In (x, m) es.
Proof.
  induction es as [|[y m0] es IH]; simpl; [discriminate|].
  destruct (String.eqb x y) eqn:E.
  - apply String.eqb_eq in E. intros H. injection H as ->. subst. now left.
  - intros H. right. now apply IH.
Qed.

Lemma In_entry x m es :
  List.NoDup (map fst es) -> In (x, m) es -> entry x es = Some m.
Proof.
  induction es as [|[y m0] es IH]; simpl; intros Hnd Hin; [destruct Hin|].
  inversion Hnd as [|? ? Hy Hnd']; subst.
  destruct Hin as [E|Hin].
  - injection E as -> ->. now rewrite String.eqb_refl.
  - destruct (String.eqb x y) eqn:E.
    + apply String.eqb_eq in E. subst y. exfalso. apply Hy.
      apply in_map_iff. exists (x, m). auto.
    + now apply IH.
Qed.

(** *** Well-formed trees *)

Lemma wf_dir es :
  wf (NDir es) <->
  List.NoDup (map fst es) /\ Forall (fun e => wf e.2) es.
Proof.
  simpl. apply and_iff_compat_l.
  induction es as [|[x m] es IH]; simpl.
  - split; [constructor | trivial].
  - rewrite IH. split.
    + intros [H1 H2]. now constructor.
    + intros H. inversion H; subst. auto.
Qed.

Lemma wf_entry x m es : wf (NDir es) -> entry x es = Some m -> wf m.
Proof.
  rewrite wf_dir. intros [_ H] E. apply entry_In in E.
  rewrite List.Forall_forall in H. exact (H _ E).
Qed.

Lemma Forall_setEntry (P : node -> Prop) x m es :
  Forall (fun e => P e.2) es -> P m ->
  Forall (fun e => P e.2) (setEntry x m es).
Proof.
  intros H Hm. induction es as [|[y m0] es IH]; simpl; [constructor|].
  inversion H; subst.
  destruct (String.eqb x y); constructor; auto.
Qed.

Lemma wf_setEntry x m es :
  wf (NDir es) -> wf m -> wf (NDir (setEntry x m es)).
Proof.
  rewrite !wf_dir, names_setEntry. intros [H1 H2] Hm.
  split; [assumption | now apply Forall_setEntry].
Qed.

Lemma wf_snoc x m es :
  wf (NDir es) -> entry x es = None -> wf m -> wf (NDir (es ++ [(x, m)])).
Proof.
  rewrite !wf_dir, map_app. intros [H1 H2] E Hm. split.
  - apply List.NoDup_app; [assumption | repeat constructor; intros [] |].
    simpl. intros y Hy [<-|[]]. apply entry_None_names in E. contradiction.
  - apply Forall_app. split; [assumption | now repeat constructor].
Qed.

(** *** Looking files up after an update *)

Lemma fileAt_dir x p es :
  fileAt (x :: p) (NDir es) =
  match entry x es with Some m => fileAt p m | None => None end.
Proof.
  unfold fileAt. simpl. now destruct (entry x es).
Qed.


Lemma updateFile_frame upd q :
  forall here n n',
    updateFile upd here q n = Ok n' ->
    forall p, p <> q -> fileAt p n' = fileAt p n.
Proof.
  induction q as [|x q IH]; intros here n n' H p Hp.
  - destruct n as [f0|es|]; simpl in H; try discriminate.
    destruct (upd (Some f0)); simpl in H; [|discriminate].
    injection H as <-. destruct p; [congruence | reflexivity].
  - destruct n as [f0|es|]; simpl in H; try discriminate.
    destruct (entry x es) as [m|] eqn:E.
    + destruct (updateFile upd (here ++ [x]) q m) as [m'|] eqn:U;
        simpl in H; [|discriminate].
      injection H as <-. destruct p as [|y p]; [reflexivity|].
      rewrite !fileAt_dir.
      destruct (String.eqb_spec y x) as [->|Hne].
      * rewrite entry_setEntry_same, E. simpl.
        apply (IH _ _ _ U). congruence.
      * now rewrite entry_setEntry_other.
    + destruct q; [|discriminate].
      destruct (upd None) as [f|]; simpl in H; [|discriminate].
      injection H as <-. destruct p as [|y p]; [reflexivity|].
      rewrite !fileAt_dir.
      destruct (String.eqb_spec y x) as [->|Hne].
      * rewrite entry_snoc_same, E by assumption.
        destruct p; [congruence | reflexivity].
      * now rewrite entry_snoc_other.
Qed.

Lemma updateFile_wf upd q :
  forall here n n',
    updateFile upd here q n = Ok n' -> wf n -> wf n'.
Proof.
  induction q as [|x q IH]; intros here n n' H Hwf.
  - destruct n as [f0|es|]; simpl in H; try discriminate.
    destruct (upd (Some f0)); simpl in H; [|discriminate].
    injection H as <-. exact I.
  - destruct n as [f0|es|]; simpl in H; try discriminate.
    destruct (entry x es) as [m|] eqn:E.
    + destruct (updateFile upd (here ++ [x]) q m) as [m'|] eqn:U;
        simpl in H; [|discriminate].
      injection H as <-. apply wf_setEntry; [assumption|].
      apply (IH _ _ _ U). now apply (wf_entry x m es).
    + destruct q; [|discriminate].
      destruct (upd None) as [f|]; simpl in H; [|discriminate].
      injection H as <-. now apply wf_snoc.
Qed.

(** [ensureDir] only makes directories, whether it fails or not. *)
Lemma ensureDirAt_frame rf q :
  forall here n p, fileAt p (ensureDirAt rf here q n).2 = fileAt p n.
Proof.
  induction q as [|x q IH]; intros here n p.
  - destruct n; reflexivity.
  - destruct n as [f0|es|]; simpl; try reflexivity.
    destruct (entry x es) as [m|] eqn:E.
    + simpl. destruct p as [|y p]; [reflexivity|].
      rewrite !fileAt_dir.
      destruct (String.eqb_spec y x) as [->|Hne].
      * rewrite entry_setEntry_same, E. simpl. apply IH.
      * now rewrite entry_setEntry_other.
    + destruct (rf (Mkdir (here ++ [x]))); [reflexivity|]. simpl.
      destruct p as [|y p]; [reflexivity|].
      rewrite !fileAt_dir.
      destruct (String.eqb_spec y x) as [->|Hne].
      * rewrite entry_snoc_same, E by assumption.
        rewrite IH. now destruct p.
      * now rewrite entry_snoc_other.
Qed.

Lemma ensureDirAt_wf rf q :
  forall here n, wf n -> wf (ensureDirAt rf here q n).2.
Proof.
  induction q as [|x q IH]; intros here n Hwf.
  - destruct n; exact Hwf.
  - destruct n as [f0|es|]; try exact Hwf.
    cbn [ensureDirAt]. destruct (entry x es) as [m|] eqn:E.
    + cbn [snd]. apply wf_setEntry; [assumption|].
      apply IH. now apply (wf_entry x m es).
    + destruct (rf (Mkdir (here ++ [x]))); [exact Hwf|]. cbn [snd].
      apply wf_snoc; [assumption..|].
      apply IH. simpl. split; [constructor | exact I].
Qed.

End FsFacts.

(** ** The placeholder pass on a tree *)
Module PassFacts.
Import Types Fs Base Effects FsFacts.

Lemma rewriteIn_nil repl pre : rewriteIn repl pre (NDir []) = (NDir [], []).
Proof. reflexivity. Qed.

Lemma rewriteIn_cons repl pre x m es :
  rewriteIn repl pre (NDir ((x, m) :: es)) =
  (NDir ((x, (replaceEntry repl (pre ++ [x]) m).1)
         :: dirEntries (rewriteIn repl pre (NDir es)).1),
   (replaceEntry repl (pre ++ [x]) m).2 ++ (rewriteIn repl pre (NDir es)).2).
Proof. destruct m; reflexivity. Qed.

Lemma rewriteIn_isDir repl pre es :
  (rewriteIn repl pre (NDir es)).1 =
  NDir (dirEntries (rewriteIn repl pre (NDir es)).1).
Proof. destruct es as [|[x m] es]; [reflexivity | now rewrite rewriteIn_cons]. Qed.

Lemma fileAt_other p : fileAt p NOther = None.
Proof. now destruct p. Qed.

(** After the pass the file at a path is the rewritten file that was
    there before. *)
Lemma replaceEntry_fileAt repl m :
  forall pre p,
    fileAt p (replaceEntry repl pre m).1 = rewriteFile repl <$> fileAt p m.
Proof.
  induction m as [f| |es IH] using node_ind2; intros pre p.
  - unfold replaceEntry, replaceInFile, rewriteFile, rewritable.
    destruct p as [|y p]; simpl.
    + unfold fileAt. simpl. now destruct (readable f && writable f).
    + now destruct (readable f && writable f).
  - simpl. now rewrite fileAt_other.
  - unfold replaceEntry. revert p.
    induction es as [|[x m] es IHes]; intros p.
    + rewrite rewriteIn_nil. now destruct p.
    + inversion IH as [|? ? Hm Hes]; subst. simpl in Hm.
      rewrite rewriteIn_cons. simpl.
      destruct p as [|y p]; [reflexivity|].
      rewrite !fileAt_dir. simpl.
      destruct (String.eqb y x).
      * apply Hm.
      * specialize (IHes Hes (y :: p)).
        rewrite rewriteIn_isDir, !fileAt_dir in IHes. exact IHes.
Qed.

Lemma rewritableAt_dir y p es :
  rewritableAt (y :: p) (NDir es) <->
  exists m, entry y es = Some m /\ rewritableAt p m.
Proof.
  unfold rewritableAt. rewrite fileAt_dir. destruct (entry y es) as [m|].
  - split.
    + intros H. eauto.
    + intros (m' & E & H). now injection E as <-.
  - split.
    + intros (f & H & _). discriminate.
    + intros (m' & E & _). discriminate.
Qed.

(** A file that can be read and written is written by the pass. *)
Lemma replaceEntry_writes repl m :
  forall pre p,
    rewritableAt p m ->
    In (pre ++ p) (map fst (replaceEntry repl pre m).2).
Proof.
  induction m as [f| |es IH] using node_ind2; intros pre p H.
  - destruct H as (f' & E & Hf). destruct p; [|discriminate].
    unfold fileAt in E. simpl in E. injection E as <-.
    unfold replaceEntry, replaceInFile. unfold rewritable in Hf.
    rewrite Hf. simpl. rewrite app_nil_r. now left.
  - destruct H as (f' & E & _). now rewrite fileAt_other in E.
  - unfold replaceEntry.
    destruct p as [|y p].
    { destruct H as (f' & E & _). discriminate. }
    apply rewritableAt_dir in H. destruct H as (m & E & Hm).
    induction es as [|[x m0] es IHes]; [discriminate|].
    inversion IH as [|? ? H0 Hes]; subst. simpl in H0.
    rewrite rewriteIn_cons. simpl. rewrite map_app, in_app_iff.
    simpl in E. destruct (String.eqb_spec y x) as [->|Hne].
    + injection E as ->. left.
      replace (pre ++ x :: p) with ((pre ++ [x]) ++ p)
        by now rewrite <- app_assoc.
      now apply H0.
    + right. now apply IHes.
Qed.

(** In a well-formed tree the pass writes nothing else. *)
Lemma replaceEntry_written repl m :
  forall pre q,
    wf m ->
    In q (map fst (replaceEntry repl pre m).2) ->
    exists p, q = pre ++ p /\ rewritableAt p m.
Proof.
  induction m as [f| |es IH] using node_ind2; intros pre q Hwf H.
  - unfold replaceEntry, replaceInFile in H.
    destruct (readable f && writable f) eqn:Hf; simpl in H; [|destruct H].
    destruct H as [<-|[]]. exists []. split; [now rewrite app_nil_r|].
    exists f. split; [reflexivity | exact Hf].
  - destruct H.
  - unfold replaceEntry in H.
    induction es as [|[x m] es IHes]; [destruct H|].
    inversion IH as [|? ? Hm Hes]; subst. simpl in Hm.
    apply wf_dir in Hwf. destruct Hwf as [Hnd Hall].
    simpl in Hnd. inversion Hnd as [|? ? Hx Hnd']; subst.
    inversion Hall as [|? ? Hwm Hall']; subst. simpl in Hwm.
    rewrite rewriteIn_cons in H. simpl in H.
    rewrite map_app, in_app_iff in H. destruct H as [H|H].
    + destruct (Hm _ _ Hwm H) as (p & -> & Hp).
      exists (x :: p). split; [now rewrite <- app_assoc|].
      apply rewritableAt_dir. exists m. simpl.
      now rewrite String.eqb_refl.
    + assert (Hwf' : wf (NDir es)) by (apply wf_dir; now split).
      destruct (IHes Hes Hwf' H) as (p & -> & Hp).
      exists p. split; [reflexivity|].
      destruct p as [|y p].
      { destruct Hp as (f' & E & _). discriminate. }
      apply rewritableAt_dir in Hp. destruct Hp as (m' & E & Hm').
      apply rewritableAt_dir. exists m'. split; [|assumption].
      simpl. destruct (String.eqb_spec y x) as [->|Hne]; [|assumption].
      exfalso. apply Hx. apply entry_In in E.
      apply in_map_iff. exists (x, m'). auto.
Qed.

(** *** The pass with its failures *)

Lemma replaceIn_cons rf repl pre x m es :
  rf (Readdir pre) = false ->
  replaceIn rf repl pre (NDir ((x, m) :: es)) =
  match (passEntry rf repl (pre ++ [x]) m).1.1 with
  | Some e =>
      (Some e, NDir ((x, (passEntry rf repl (pre ++ [x]) m).1.2) :: es),
       (passEntry rf repl (pre ++ [x]) m).2)
  | None =>
      ((replaceIn rf repl pre (NDir es)).1.1,
       NDir ((x, (passEntry rf repl (pre ++ [x]) m).1.2)
             :: dirEntries (replaceIn rf repl pre (NDir es)).1.2),
       (passEntry rf repl (pre ++ [x]) m).2
       ++ (replaceIn rf repl pre (NDir es)).2)
  end.
Proof.
  intros H. destruct m; cbn [replaceIn passEntry]; rewrite H;
    match goal with |- context [match ?r.1.1 with _ => _ end] =>
      destruct (r.1.1) end; reflexivity.
Qed.

Lemma replaceIn_nil rf repl pre :
  rf (Readdir pre) = false -> replaceIn rf repl pre (NDir []) = (None, NDir [], []).
Proof. intros H. cbn [replaceIn]. now rewrite H. Qed.

Lemma replaceIn_refused rf repl pre es :
  rf (Readdir pre) = true ->
  replaceIn rf repl pre (NDir es)
  = (Some (FsError "EACCES" pre), NDir es, []).
Proof. intros H. cbn [replaceIn]. now rewrite H. Qed.

(** A pass that goes through has done what the pass without failures
    does. *)
Lemma passEntry_ok rf repl m :
  forall pre,
    (passEntry rf repl pre m).1.1 = None ->
    ((passEntry rf repl pre m).1.2, (passEntry rf repl pre m).2)
    = replaceEntry repl pre m.
Proof.
  induction m as [f| |es IH] using node_ind2; intros pre H.
  - unfold passEntry, replaceEntry. cbn [fst snd].
    now destruct (replaceInFile repl pre f).
  - reflexivity.
  - unfold passEntry, replaceEntry in H |- *.
    destruct (rf (Readdir pre)) eqn:R.
    { rewrite replaceIn_refused in H by assumption. discriminate. }
    induction es as [|[x m] es IHes].
    + now rewrite replaceIn_nil.
    + inversion IH as [|? ? Hm Hes]; subst. simpl in Hm.
      rewrite replaceIn_cons in H |- * by assumption.
      rewrite rewriteIn_cons.
      destruct ((passEntry rf repl (pre ++ [x]) m).1.1) as [e|] eqn:E;
        [discriminate|].
      cbn [fst snd] in H |- *.
      specialize (Hm (pre ++ [x]) E). specialize (IHes Hes H).
      rewrite <- Hm, <- IHes. reflexivity.
Qed.

(** The pass fails only where a directory cannot be listed. *)
Lemma passEntry_listed rf repl m :
  (forall q, rf (Readdir q) = false) ->
  forall pre, (passEntry rf repl pre m).1.1 = None.
Proof.
  intros Hq. induction m as [f| |es IH] using node_ind2; intros pre;
    [reflexivity..|].
  unfold passEntry. induction es as [|[x m] es IHes].
  - now rewrite replaceIn_nil.
  - inversion IH as [|? ? Hm Hes]; subst. simpl in Hm.
    rewrite replaceIn_cons by apply Hq. rewrite (Hm (pre ++ [x])).
    cbn [fst]. now apply IHes.
Qed.

End PassFacts.

(** ** Steps of a run *)
Module RunFacts.
Import Types Fs Base Effects FsFacts PassFacts.
Local Open Scope fs_scope.

Lemma bind_ok {A B} (m : M A) (k : A -> M B) w b w' :
  bind m k w = (Ok b, w') ->
  exists a w1, m w = (Ok a, w1) /\ k a w1 = (Ok b, w').
Proof.
  unfold bind. destruct (m w) as [[a|e] w1]; [eauto | discriminate].
Qed.

Lemma bind_err {A B} (m : M A) (k : A -> M B) w e w' :
  m w = (Err e, w') -> bind m k w = (Err e, w').
Proof. unfold bind. now intros ->. Qed.

Lemma wroteList_refl w : wroteList [] w w.
Proof.
  split; [|split]; [|reflexivity|trivial].
  exists []. now rewrite app_nil_r.
Qed.

Lemma wroteList_trans T1 T2 w w1 w2 :
  wroteList T1 w w1 -> wroteList T2 w1 w2 -> wroteList (T1 ++ T2) w w2.
Proof.
  intros ((l1 & E1 & M1) & F1 & W1) ((l2 & E2 & M2) & F2 & W2).
  split; [|split].
  - exists (l1 ++ l2). rewrite E2, E1, map_app, M1, M2.
    split; [now rewrite app_assoc | reflexivity].
  - intros p Hp. rewrite in_app_iff in Hp.
    rewrite F2, F1 by tauto. reflexivity.
  - auto.
Qed.

(** *** The primitives *)

Lemma onTarget_ok p op w w' :
  onTarget p op w = (Ok tt, w') ->
  exists t t', target w = Some t /\ op t = Ok t' /\ w' = setTarget (Some t') w.
Proof.
  unfold onTarget. destruct (target w) as [t|]; [|discriminate].
  destruct (op t) as [t'|] eqn:E; [|discriminate].
  intros H. injection H as <-. eauto.
Qed.

Lemma post_update upd p c :
  post (bind (onTarget p (updateFile upd [] p))
             (fun _ w => (Ok tt, logWrite p c w)))
       (wrote (fun _ => [p])).
Proof.
  intros w [] w' H. apply bind_ok in H. destruct H as ([] & w1 & H1 & H2).
  injection H2 as <-. apply onTarget_ok in H1.
  destruct H1 as (t & t' & Ht & Hop & ->).
  unfold wrote, wroteList, fileAtW, wfW. simpl. rewrite Ht.
  split; [|split].
  - exists [(p, c)]. auto.
  - intros q Hq. apply (updateFile_frame _ _ _ _ _ Hop). intuition.
  - apply (updateFile_wf _ _ _ _ _ Hop).
Qed.

Lemma post_writeFile p c : post (writeFile p c) (wrote (fun _ => [p])).
Proof. intros w a w' H. exact (post_update _ p c w a w' H). Qed.

Lemma post_appendFile p c : post (appendFile p c) (wrote (fun _ => [p])).
Proof. intros w a w' H. exact (post_update _ p c w a w' H). Qed.

Lemma writeFile_ok p c w w' :
  writeFile p c w = (Ok tt, w') ->
  exists t t',
    target w = Some t /\
    updateFile (writeUpd (refuses w (Create p)) p c) [] p t = Ok t' /\
    w' = logWrite p c (setTarget (Some t') w).
Proof.
  unfold writeFile. intros H. apply bind_ok in H.
  destruct H as ([] & w0 & H1 & H2). injection H2 as <-.
  apply onTarget_ok in H1. destruct H1 as (t & t' & Ht & Hop & ->). eauto.
Qed.

Lemma appendFile_ok p c w w' :
  appendFile p c w = (Ok tt, w') ->
  exists t t',
    target w = Some t /\
    updateFile (appendUpd (refuses w (Create p)) p c) [] p t = Ok t' /\
    w' = logWrite p c (setTarget (Some t') w).
Proof.
  unfold appendFile. intros H. apply bind_ok in H.
  destruct H as ([] & w0 & H1 & H2). injection H2 as <-.
  apply onTarget_ok in H1. destruct H1 as (t & t' & Ht & Hop & ->). eauto.
Qed.

Lemma ensureDir_ok p w w' :
  ensureDir p w = (Ok tt, w') ->
  exists t,
    target w = Some t /\
    (ensureDirAt (refuses w) [] p t).1 = None /\
    w' = setTarget (Some (ensureDirAt (refuses w) [] p t).2) w.
Proof.
  unfold ensureDir. destruct (target w) as [t|]; [|discriminate].
  cbv zeta. destruct ((ensureDirAt (refuses w) [] p t).1) eqn:E;
    [discriminate|].
  intros H. injection H as <-. eauto.
Qed.

Lemma post_ensureDir p : post (ensureDir p) (wrote (fun _ => [])).
Proof.
  intros w [] w' H. apply ensureDir_ok in H.
  destruct H as (t & Ht & _ & ->).
  unfold wrote, wroteList, fileAtW, wfW. simpl. rewrite Ht.
  split; [|split].
  - exists []. now rewrite app_nil_r.
  - intros q _. apply ensureDirAt_frame.
  - apply ensureDirAt_wf.
Qed.

Lemma pathExists_ok p w b w1 :
  pathExists p w = (Ok b, w1) ->
  w1 = w /\ (b = false -> fileAtW p w = None).
Proof.
  unfold pathExists, fileAtW, fileAt. intros H. injection H as <- <-.
  split; [reflexivity|]. destruct (target w) as [t|]; [|reflexivity].
  destruct (nodeAt p t); [|reflexivity].
  rewrite bool_decide_eq_true_2 by eauto. discriminate.
Qed.

Lemma readFile_ok p w c w1 :
  readFile p w = (Ok c, w1) ->
  w1 = w /\ exists f, fileAtW p w = Some f /\ c = content f.
Proof.
  unfold readFile, fileAtW, fileAt. destruct (target w) as [t|]; [|discriminate].
  destruct (nodeAt p t) as [[f|es|]|]; try discriminate.
  destruct (readable f); [|discriminate].
  intros H. injection H as <- <-. eauto.
Qed.

Lemma post_ret {A} (a : A) : post (ret a) (wrote (fun _ => [])).
Proof. intros w a' w' H. injection H as _ <-. apply wroteList_refl. Qed.

(** *** Sequencing *)

Lemma post_seq {A B} (m : M A) (k : A -> M B) P1 P2 P :
  post m (wrote (fun _ => P1)) ->
  (forall a, post (k a) (wrote (fun _ => P2))) ->
  P = P1 ++ P2 ->
  post (bind m k) (wrote (fun _ => P)).
Proof.
  intros H1 H2 -> w b w' H. apply bind_ok in H.
  destruct H as (a & w1 & Ha & Hb).
  exact (wroteList_trans _ _ _ _ _ (H1 _ _ _ Ha) (H2 _ _ _ _ Hb)).
Qed.

Lemma post_when b m P :
  post m (wrote (fun _ => P)) ->
  post (when b m) (wrote (fun _ => if b then P else [])).
Proof. destruct b; [trivial | intros _; apply post_ret]. Qed.

Lemma post_when_dynamic b m P :
  post m (wrote P) ->
  post (when b m) (wrote (fun o => if b then P o else [])).
Proof. destruct b; [trivial | intros _; apply (post_ret tt)]. Qed.

Lemma post_bind_end {A B} (m : M A) (k : A -> M B) P R :
  post m (wrote P) ->
  (forall a, post (k a) R) ->
  post (bind m k) (andThen (wrote P) R).
Proof.
  intros H1 H2 w b w' H. apply bind_ok in H.
  destruct H as (a & w1 & Ha & Hb). exists w1.
  split; [exact (H1 _ _ _ Ha) | exact (H2 _ _ _ _ Hb)].
Qed.

Lemma post_bind_static {A B} (m : M A) (k : A -> M B) P1 P2 P R :
  post m (wrote (fun _ => P1)) ->
  ~ In pyprojectToml P1 ->
  (forall a, post (k a) (andThen (wrote P2) R)) ->
  (forall o, P o = P1 ++ P2 o) ->
  post (bind m k) (andThen (wrote P) R).
Proof.
  intros H1 Hpy H2 HP w b w' H. apply bind_ok in H.
  destruct H as (a & w1 & Ha & Hb).
  destruct (H2 _ _ _ _ Hb) as (w2 & Hw & HR). exists w2. split; [|assumption].
  pose proof (H1 _ _ _ Ha) as Hw1. unfold wrote in *. rewrite HP.
  assert (E : fileAtW pyprojectToml w1 = fileAtW pyprojectToml w).
  { destruct Hw1 as (_ & F & _). now apply F. }
  rewrite E in Hw. now apply (wroteList_trans _ _ _ w1).
Qed.

Lemma post_bind_dynamic {A B} (m : M A) (k : A -> M B) P1 P2 P R :
  post m (wrote P1) ->
  (forall a, post (k a) (andThen (wrote (fun _ => P2)) R)) ->
  (forall o, P o = P1 o ++ P2) ->
  post (bind m k) (andThen (wrote P) R).
Proof.
  intros H1 H2 HP w b w' H. apply bind_ok in H.
  destruct H as (a & w1 & Ha & Hb).
  destruct (H2 _ _ _ _ Hb) as (w2 & Hw & HR). exists w2. split; [|assumption].
  pose proof (H1 _ _ _ Ha) as Hw1. unfold wrote in *. rewrite HP.
  now apply (wroteList_trans _ _ _ w1).
Qed.

Lemma post_replacePlaceholders repl :
  post (replacePlaceholders repl) (passed repl).
Proof.
  intros w [] w' H. unfold replacePlaceholders in H.
  destruct (target w) as [[f|es|]|] eqn:Ht; try discriminate.
  cbv zeta in H.
  destruct ((replaceIn (refuses w) repl [] (NDir es)).1.1) eqn:E;
    [discriminate|].
  injection H as <-.
  pose proof (passEntry_ok (refuses w) repl (NDir es) [] E) as P.
  unfold passEntry, replaceEntry in P.
  exists es. split; [exact Ht|]. cbn [target written].
  rewrite <- P. cbn [fst snd]. split; reflexivity.
Qed.


End RunFacts.

(** ** The steps of the FastAPI generator *)
Module FastAPIFacts.
Import Types Fs Base Effects FsFacts PassFacts RunFacts FastAPI.
Local Open Scope fs_scope.

Ltac post_static :=
  first
    [ apply post_writeFile | apply post_appendFile | apply post_ensureDir
    | apply post_ret
    | eapply post_seq; [post_static | intros; post_static | reflexivity] ].

Ltac not_pyproject :=
  match goal with
  | |- ~ In _ (if ?b then _ else _) =>
      destruct b; simpl; unfold pyprojectToml; intuition discriminate
  | |- ~ In _ _ => simpl; unfold pyprojectToml; intuition discriminate
  end.

Section Steps.
Variable bodies : FileBodies.

Lemma post_generateRequirementsTxt opts :
  post (generateRequirementsTxt opts) (wrote (fun _ => [["requirements.txt"]])).
Proof. apply post_writeFile. Qed.

Lemma post_generateORMFiles name :
  post (generateORMFiles bodies name)
       (wrote (fun _ => [["app"; "db"; "models.py"]; ["app"; "db"; "session.py"];
                         ["app"; "db"; "__init__.py"]])).
Proof. unfold generateORMFiles. cbv zeta. post_static. Qed.

Lemma post_generateMigrationFiles name :
  post (generateMigrationFiles bodies name)
       (wrote (fun _ => [["alembic.ini"]; ["alembic"; "env.py"];
                         ["alembic"; "script.py.mako"]])).
Proof. unfold generateMigrationFiles. cbv zeta. post_static. Qed.

Lemma post_generateDockerFiles name :
  post (generateDockerFiles bodies name)
       (wrote (fun _ => [["Dockerfile"]; [".dockerignore"]])).
Proof. unfold generateDockerFiles. post_static. Qed.

Lemma post_generateDockerCompose name opts :
  post (generateDockerCompose bodies name opts)
       (wrote (fun _ => [["docker-compose.yml"]])).
Proof. apply post_writeFile. Qed.

Lemma post_generateTestFiles name :
  post (generateTestFiles bodies name)
       (wrote (fun _ => [["pytest.ini"]; ["tests"; "conftest.py"];
                         ["tests"; "test_main.py"]; ["tests"; "__init__.py"]])).
Proof. unfold generateTestFiles. cbv zeta. post_static. Qed.

Lemma post_generateEnvFiles :
  post (generateEnvFiles bodies) (wrote (fun _ => [[".env.example"]])).
Proof. apply post_writeFile. Qed.

Lemma post_generateProdConfig :
  post (generateProdConfig bodies)
       (wrote (fun _ => [["app"; "config"; "production.py"]])).
Proof. unfold generateProdConfig. cbv zeta. post_static. Qed.

Lemma post_generateDevConfig :
  post (generateDevConfig bodies)
       (wrote (fun _ => [["app"; "config"; "development.py"]])).
Proof. unfold generateDevConfig. cbv zeta. post_static. Qed.

Lemma post_generateLinterConfig :
  post (generateLinterConfig bodies) (wrote (fun _ => [["ruff.toml"]])).
Proof. apply post_writeFile. Qed.

Lemma post_generatePreCommitConfig :
  post (generatePreCommitConfig bodies)
       (wrote (fun _ => [[".pre-commit-config.yaml"]])).
Proof. apply post_writeFile. Qed.

Lemma post_generateLoggingConfig :
  post (generateLoggingConfig bodies)
       (wrote (fun _ => [["app"; "core"; "logging.py"]])).
Proof. unfold generateLoggingConfig. cbv zeta. post_static. Qed.

Lemma post_generateMonitoring : post generateMonitoring (wrote (fun _ => [])).
Proof. apply post_ret. Qed.

Lemma post_generateREADME name opts :
  post (generateREADME bodies name opts) (wrote (fun _ => [["README.md"]])).
Proof. apply post_writeFile. Qed.

Lemma post_generateMainPy name opts :
  post (generateMainPy bodies name opts) (wrote (fun _ => [["app"; "main.py"]])).
Proof. apply post_writeFile. Qed.

Lemma post_generateConfigPy name opts :
  post (generateConfigPy bodies name opts)
       (wrote (fun _ => [["app"; "core"; "config.py"]])).
Proof. apply post_writeFile. Qed.

(** The formatter step appends to [pyproject.toml] unless the file is
    there and mentions [[tool.black]] already. *)
Lemma post_generateFormatterConfig :
  post (generateFormatterConfig bodies) (wrote formatterPaths).
Proof.
  intros w [] w' H. unfold generateFormatterConfig in H. cbv zeta in H.
  apply bind_ok in H. destruct H as (isThere & w1 & H1 & H).
  apply pathExists_ok in H1. destruct H1 as [-> Hno].
  apply bind_ok in H. destruct H as (c & w2 & H2 & H).
  assert (Hc : w2 = w /\
               c = match fileAtW pyprojectToml w with
                   | Some f => content f
                   | None => EmptyString
                   end).
  { destruct isThere.
    - apply readFile_ok in H2. destruct H2 as (-> & f & Hf & ->).
      unfold pyprojectToml. now rewrite Hf.
    - injection H2 as <- <-. unfold pyprojectToml. now rewrite Hno. }
  destruct Hc as [-> ->].
  unfold wrote, formatterPaths.
  destruct (Js.includes "[tool.black]" _) eqn:Hi; simpl in H.
  - injection H as <-. apply wroteList_refl.
  - exact (post_appendFile _ _ _ _ _ H).
Qed.

(** What a successful run of [generateOptionalFiles] does: the
    option-driven steps write the files of [conditionalPaths], then the
    placeholder pass runs. *)
Lemma post_generateOptionalFiles (options : GeneratorOptions) :
  post (generateOptionalFiles bodies options)
       (andThen
          (wrote (conditionalPaths (default ∅ (Types.options options))))
          (passed (replacements (Types.projectName options)))).
Proof.
  unfold generateOptionalFiles. cbv zeta.
  eapply post_bind_static;
    [apply post_generateRequirementsTxt | not_pyproject | intros _ |].
  eapply post_bind_static;
    [apply post_when, post_generateORMFiles | not_pyproject | intros _ |].
  eapply post_bind_static;
    [apply post_when, post_generateMigrationFiles | not_pyproject | intros _ |].
  eapply post_bind_static;
    [apply post_when, post_generateDockerFiles | not_pyproject | intros _ |].
  eapply post_bind_static;
    [apply post_when, post_generateDockerCompose | not_pyproject | intros _ |].
  eapply post_bind_static;
    [apply post_when, post_generateTestFiles | not_pyproject | intros _ |].
  eapply post_bind_static;
    [apply post_when, post_generateEnvFiles | not_pyproject | intros _ |].
  eapply post_bind_static;
    [apply post_when, post_generateProdConfig | not_pyproject | intros _ |].
  eapply post_bind_static;
    [apply post_when, post_generateDevConfig | not_pyproject | intros _ |].
  eapply post_bind_static;
    [apply post_when, post_generateLinterConfig | not_pyproject | intros _ |].
  eapply post_bind_dynamic;
    [apply post_when_dynamic, post_generateFormatterConfig | intros _ |].
  eapply post_bind_static;
    [apply post_when, post_generatePreCommitConfig | not_pyproject | intros _ |].
  eapply post_bind_static;
    [apply post_when, post_generateLoggingConfig | not_pyproject | intros _ |].
  eapply post_bind_static;
    [apply post_when, post_generateMonitoring | not_pyproject | intros _ |].
  eapply post_bind_static;
    [apply post_when, post_generateREADME | not_pyproject | intros _ |].
  eapply post_bind_static;
    [apply post_generateMainPy | not_pyproject | intros _ |].
  eapply post_bind_end;
    [apply post_generateConfigPy | intros _; apply post_replacePlaceholders].
  all: intros; reflexivity.
Qed.

End Steps.

End FastAPIFacts.

(** ** Monotonicity of generation and the unconditional manifest *)
Module MonotoneFacts.
Import Types Fs Base Effects FsFacts PassFacts RunFacts FastAPI FastAPIFacts.
Import Requirements RequirementsAux RequirementsFacts.
Local Open Scope fs_scope.

Lemma incl_when {X} (a b : bool) (xs : list X) :
  (a = true -> b = true) ->
  incl (if a then xs else []) (if b then xs else []).
Proof.
  intros H. destruct a; [rewrite H by reflexivity; apply incl_refl|].
  intros x [].
Qed.

Lemma conditionalPaths_monotone (A B : ProjectOptions) o :
  (forall k, enabledIn A k = true -> enabledIn B k = true) ->
  incl (conditionalPaths A o) (conditionalPaths B o).
Proof.
  intros H. unfold conditionalPaths.
  repeat (apply incl_app_app;
          [first [apply incl_refl | apply incl_when, H]|]).
  apply incl_refl.
Qed.

Lemma writtenSince_app w w' l :
  written w' = written w ++ l -> writtenSince w w' = l.
Proof. unfold writtenSince. intros ->. now rewrite drop_app_length. Qed.

(** The files a successful run of [generateOptionalFiles] writes: those
    of the option-driven steps, then the files the pass can rewrite. *)
Lemma pathsWritten_run bodies options w w' :
  generateOptionalFiles bodies options w = (Ok tt, w') ->
  exists w1 es,
    wrote (conditionalPaths (default ∅ (Types.options options))) w w1 /\
    target w1 = Some (NDir es) /\
    pathsWrittenSince w w' =
      conditionalPaths (default ∅ (Types.options options))
                       (fileAtW pyprojectToml w)
      ++ map fst (replaceEntry (replacements (Types.projectName options))
                               [] (NDir es)).2.
Proof.
  intros H. destruct (post_generateOptionalFiles bodies options _ _ _ H)
    as (w1 & Hw & es & Ht & _ & Hl).
  exists w1, es. split; [assumption|]. split; [assumption|].
  destruct Hw as ((l & El & Ml) & _ & _).
  unfold pathsWrittenSince.
  rewrite (writtenSince_app w w' (l ++ (rewriteIn (replacements
            (Types.projectName options)) [] (NDir es)).2)).
  - now rewrite map_app, Ml.
  - now rewrite Hl, El, app_assoc.
Qed.

Lemma files_monotone bodies (reqA reqB : GeneratorOptions) w wA wB :
  (forall k, enabledIn (default ∅ (Types.options reqA)) k = true ->
             enabledIn (default ∅ (Types.options reqB)) k = true) ->
  wfW w ->
  generateOptionalFiles bodies reqA w = (Ok tt, wA) ->
  generateOptionalFiles bodies reqB w = (Ok tt, wB) ->
  forall p, In p (pathsWrittenSince w wA) -> In p (pathsWrittenSince w wB).
Proof.
  intros Hen Hwf HA HB p Hp.
  destruct (pathsWritten_run _ _ _ _ HA) as (a1 & esA & WA & TA & EA).
  destruct (pathsWritten_run _ _ _ _ HB) as (b1 & esB & WB & TB & EB).
  rewrite EA in Hp. rewrite EB. rewrite in_app_iff in *.
  pose proof (conditionalPaths_monotone _ _ (fileAtW pyprojectToml w) Hen)
    as Hmono.
  destruct Hp as [Hp|Hp]; [left; now apply Hmono|].
  destruct (List.in_dec (List.list_eq_dec String.string_dec) p
              (conditionalPaths (default ∅ (Types.options reqB))
                                (fileAtW pyprojectToml w))) as [Hin|Hout];
    [now left | right].
  destruct WA as (_ & FA & WfA). destruct WB as (_ & FB & _).
  assert (HwfA : wf (NDir esA)).
  { specialize (WfA Hwf). unfold wfW in WfA. now rewrite TA in WfA. }
  destruct (replaceEntry_written _ _ _ _ HwfA Hp) as (p' & -> & Hrw).
  apply replaceEntry_writes. simpl in *.
  destruct Hrw as (f & Hf & Hr). exists f. split; [|assumption].
  assert (HoutA : ~ In p' (conditionalPaths (default ∅ (Types.options reqA))
                                            (fileAtW pyprojectToml w))).
  { intros Hin. apply Hout. now apply Hmono. }
  specialize (FA _ HoutA). specialize (FB _ Hout).
  unfold fileAtW in FA, FB. rewrite TA in FA. rewrite TB in FB.
  now rewrite FB, <- FA.
Qed.

(** C1 (as amended).  Take two option maps with every key that is truthy
    in the first truthy in the second, where the second does not switch
    off ([false]) a default-on key ([tests], [envFiles]) that the first
    leaves on.  Then the manifest of the second lists every package the
    manifest of the first lists; and when [generateOptionalFiles]
    succeeds for both from the same well-formed state, every file path
    written under the first is written under the second. *)
Theorem generation_monotone bodies (reqA reqB : GeneratorOptions)
    (w wA wB : world) :
  (forall k, enabledIn (default ∅ (Types.options reqA)) k = true ->
             enabledIn (default ∅ (Types.options reqB)) k = true) ->
  (notDisabledIn (default ∅ (Types.options reqA)) "tests" = true ->
   notDisabledIn (default ∅ (Types.options reqB)) "tests" = true) ->
  (notDisabledIn (default ∅ (Types.options reqA)) "envFiles" = true ->
   notDisabledIn (default ∅ (Types.options reqB)) "envFiles" = true) ->
  wfW w ->
  generateOptionalFiles bodies reqA w = (Ok tt, wA) ->
  generateOptionalFiles bodies reqB w = (Ok tt, wB) ->
  (forall p, In p (pathsWrittenSince w wA) -> In p (pathsWrittenSince w wB)) /\
  (forall pkg,
     listsPackage pkg (uniqueRequirements (default ∅ (Types.options reqA))) ->
     listsPackage pkg (uniqueRequirements (default ∅ (Types.options reqB)))).
Proof.
  intros Hen Ht He Hwf HA HB. split.
  - now apply (files_monotone bodies reqA reqB w wA wB).
  - now apply manifest_packages_monotone.
Qed.

End MonotoneFacts.

(** ** The manifest: content and defaults *)
Module ManifestFacts.
Import Types Fs Base Effects RunFacts FastAPI Samples.
Import PythonOptions Requirements RequirementsAux RequirementsFacts.
Local Open Scope fs_scope.

Ltac in_list := vm_compute; repeat first [left; reflexivity | right].

(** C1, the claim as stated fails: the empty map enables nothing, so it
    is below the map that sets the available option [tests] to [false];
    yet the manifest of the empty map lists pytest and the manifest of
    the other does not. *)
Lemma manifest_shrinks_when_tests_switched_off :
  In "tests" (getAvailableOptions (FastAPIGenerator demoBodies)) /\
  (forall k, enabledIn optsEmpty k = true -> enabledIn optsTestsOff k = true) /\
  listsPackage "pytest" (uniqueRequirements optsEmpty) /\
  ~ listsPackage "pytest" (uniqueRequirements optsTestsOff).
Proof.
  split; [simpl; tauto|]. split; [|split].
  - intros k. unfold enabledIn, optsEmpty. rewrite lookup_empty. discriminate.
  - unfold listsPackage. in_list.
  - unfold listsPackage. vm_compute. intuition discriminate.
Qed.

(** C2 (as amended).  With [orm] and [tests] enabled, the manifest is in
    ascending order without repetition, and its lines are exactly the
    base requirements, the declared dependencies of every enabled option
    (each with the suffix [>=0.0.0]), and in addition
    [python-dotenv>=1.0.0] when [envFiles] is neither enabled nor
    [false]; the text written is these lines, each ended by a newline. *)
Theorem manifest_with_orm_and_tests (opts : ProjectOptions) :
  enabledIn opts "orm" = true ->
  enabledIn opts "tests" = true ->
  ascending (uniqueRequirements opts) /\
  List.NoDup (uniqueRequirements opts) /\
  (forall r, In r (uniqueRequirements opts) <->
     In r baseRequirements \/
     (exists o, In o getPythonOptions /\ enabledIn opts (key o) = true /\
                In r (declaredRequirements o)) \/
     (r = "python-dotenv>=1.0.0" /\ notDisabledIn opts "envFiles" = true /\
      enabledIn opts "envFiles" = false)) /\
  In "sqlalchemy>=0.0.0" (uniqueRequirements opts) /\
  In "pytest>=0.0.0" (uniqueRequirements opts) /\
  requirementsTxt opts = join newline (uniqueRequirements opts) +:+ newline.
Proof.
  intros Ho Ht.
  destruct (uniqueRequirements_sorted opts) as [Hs Hn].
  split; [exact Hs|]. split; [exact Hn|]. split; [|split; [|split]].
  - intros r. rewrite uniqueRequirements_In, Ht. simpl.
    intuition (try discriminate; auto).
  - apply uniqueRequirements_In. right; left. eexists.
    split; [apply orm_option|]. split; [exact Ho | now left].
  - apply uniqueRequirements_In. right; left. eexists.
    split; [apply tests_option|]. split; [exact Ht | now left].
  - reflexivity.
Qed.

Lemma manifest_with_orm_and_tests_witness :
  ascending (uniqueRequirements optsOrmTests) /\
  List.NoDup (uniqueRequirements optsOrmTests) /\
  (forall r, In r (uniqueRequirements optsOrmTests) <->
     In r baseRequirements \/
     (exists o, In o getPythonOptions /\ enabledIn optsOrmTests (key o) = true /\
                In r (declaredRequirements o)) \/
     (r = "python-dotenv>=1.0.0" /\
      notDisabledIn optsOrmTests "envFiles" = true /\
      enabledIn optsOrmTests "envFiles" = false)) /\
  In "sqlalchemy>=0.0.0" (uniqueRequirements optsOrmTests) /\
  In "pytest>=0.0.0" (uniqueRequirements optsOrmTests) /\
  requirementsTxt optsOrmTests =
    join newline (uniqueRequirements optsOrmTests) +:+ newline.
Proof.
  apply (manifest_with_orm_and_tests optsOrmTests); vm_compute; reflexivity.
Defined.

(** The declared dependencies of the option stored under a key. *)
Lemma declared_orm_tests :
  (dependencies <$> getPythonOption "orm") = Some (Some ["sqlalchemy"]) /\
  (dependencies <$> getPythonOption "tests")
    = Some (Some ["pytest"; "pytest-asyncio"; "httpx"]).
Proof. split; reflexivity. Qed.

(** C2, the claim as stated fails: with exactly [orm] and [tests]
    enabled the manifest lists python-dotenv, which is neither a base
    dependency nor declared by the ORM or the test option. *)
Lemma manifest_orm_tests_lists_dotenv :
  enabledIn optsOrmTests "orm" = true /\
  enabledIn optsOrmTests "tests" = true /\
  listsPackage "python-dotenv" (uniqueRequirements optsOrmTests) /\
  ~ In "python-dotenv"
      (packageNames baseRequirements
       ++ ["sqlalchemy"] ++ ["pytest"; "pytest-asyncio"; "httpx"]).
Proof.
  split; [reflexivity|]. split; [reflexivity|]. split.
  - unfold listsPackage. in_list.
  - vm_compute. intuition discriminate.
Qed.

Example manifest_orm_tests_lines :
  uniqueRequirements optsOrmTests =
  ["fastapi>=0.104.1"; "httpx>=0.0.0"; "pydantic-settings>=2.1.0";
   "pytest-asyncio>=0.0.0"; "pytest>=0.0.0"; "python-dotenv>=1.0.0";
   "sqlalchemy>=0.0.0"; "uvicorn[standard]>=0.24.0"].
Proof. vm_compute. reflexivity. Qed.

End ManifestFacts.

(** ** Examples of runs *)
Module RunExamples.
Import Types Fs Base Effects RunFacts FastAPI Samples.
Import Requirements RequirementsAux.

Lemma generation_monotone_witness :
  (forall p,
     In p (pathsWrittenSince skeletonWorld
             (generateOptionalFiles demoBodies
                (request "demo" (Some optsEmpty)) skeletonWorld).2) ->
     In p (pathsWrittenSince skeletonWorld
             (generateOptionalFiles demoBodies
                (request "demo" (Some optsDocker)) skeletonWorld).2)) /\
  (forall pkg,
     listsPackage pkg (uniqueRequirements optsEmpty) ->
     listsPackage pkg (uniqueRequirements optsDocker)).
Proof.
  apply (MonotoneFacts.generation_monotone demoBodies
           (request "demo" (Some optsEmpty))
           (request "demo" (Some optsDocker)) skeletonWorld).
  - intros k. simpl. unfold enabledIn, optsEmpty. rewrite lookup_empty.
    discriminate.
  - intros _. vm_compute. reflexivity.
  - intros _. vm_compute. reflexivity.
  - simpl. repeat (split || constructor); simpl; intuition discriminate.
  - vm_compute. reflexivity.
  - vm_compute. reflexivity.
Defined.

Lemma generate_rejects_existing_target_witness :
  generate Express.ExpressGenerator (request "demo" None) takenWorld =
  (Err (JsError "Directory demo already exists"), takenWorld).
Proof.
  apply (GenerateFacts.generate_rejects_existing_target
           Express.ExpressGenerator (request "demo" None) takenWorld).
  - eexists. vm_compute. reflexivity.
  - eexists. reflexivity.
Defined.

(** The same request on a free target path goes through. *)
Example generate_on_fresh_target :
  (generate Express.ExpressGenerator (request "demo" None) freshWorld).1 = Ok tt.
Proof. vm_compute. reflexivity. Qed.

(** What the successful run with the option [docker] writes, in order. *)
Example paths_written_with_docker :
  pathsWrittenSince skeletonWorld
    (generateOptionalFiles demoBodies
       (request "demo" (Some optsDocker)) skeletonWorld).2 =
  [["requirements.txt"]; ["Dockerfile"]; [".dockerignore"];
   ["app"; "main.py"]; ["app"; "core"; "config.py"];
   ["app"; "core"; "config.py"]; ["app"; "main.py"];
   ["requirements.txt"]; ["Dockerfile"]; [".dockerignore"]].
Proof. vm_compute. reflexivity. Qed.

End RunExamples.

(** ** The record of written files only grows *)
Module ExtendsFacts.
Import Types Fs Base Effects RunFacts FastAPI.
Local Open Scope fs_scope.


Lemma extends_throw {A} e : extends (@throw A e).
Proof. intros w. exists []. simpl. now rewrite app_nil_r. Qed.












Lemma generateOptionalFiles_unfold bodies options :
  generateOptionalFiles bodies options =
  (generateRequirementsTxt (default ∅ (Types.options options)) ;;
   afterManifest bodies options).
Proof. reflexivity. Qed.


End ExtendsFacts.

(** ** The record of the manifest *)
Module DefaultsFacts.
Import Types Fs Base Effects RunFacts ExtendsFacts FastAPI.
Import Requirements RequirementsAux RequirementsFacts.
Local Open Scope fs_scope.


End DefaultsFacts.

(** ** The substitution of placeholders in a text *)
Module PlaceholderFacts.
Import Js Base Tokens StringFacts.

#[local] Arguments Ascii.eqb : simpl never.

Lemma getSubstitution_plain matched before after v :
  dollarFree v -> getSubstitution matched before after v = v.
Proof.
  unfold dollarFree. induction v as [|c r IH]; intros H; simpl; [reflexivity|].
  inversion H as [|? ? Hc Hr]; subst.
  destruct (Ascii.eqb_spec c "$"); [contradiction|].
  now rewrite IH.
Qed.

Lemma replaceFrom_skip pat v s :
  forall n before rest,
    String.length s = n ->
    replaceFrom pat v before n (s +:+ rest) =
    replaceFrom pat v (before +:+ s) 0 rest.
Proof.
  induction s as [|c s IH]; intros n before rest Hn; simpl in *.
  - subst n. now rewrite append_empty_r.
  - subst n. rewrite (IH _ _ _ eq_refl). now rewrite append_snoc.
Qed.

(** A stretch without an opening brace holds no start of a match. *)
Lemma replaceFrom_nomatch pat' v s :
  Forall (fun c => c <> "{"%char) (chars s) ->
  forall before rest,
    replaceFrom (String "{" pat') v before 0 (s +:+ rest) =
    s +:+ replaceFrom (String "{" pat') v (before +:+ s) 0 rest.
Proof.
  induction s as [|c s IH]; intros H before rest.
  - simpl. now rewrite append_empty_r.
  - inversion H as [|? ? Hc Hs]; subst.
    change (String c s +:+ rest) with (String c (s +:+ rest)).
    cbn [replaceFrom startsWith].
    destruct (Ascii.eqb_spec "{" c) as [E|_]; [congruence|].
    cbn [andb]. rewrite IH by assumption. now rewrite append_snoc.
Qed.

Lemma braceFree_cons c s :
  braceFree (String c s) <-> (c <> "{"%char /\ c <> "}"%char) /\ braceFree s.
Proof.
  unfold braceFree. simpl. split.
  - intros H. inversion H; subst. auto.
  - intros [H1 H2]. now constructor.
Qed.

Lemma braceFree_append a b : braceFree a -> braceFree b -> braceFree (a +:+ b).
Proof.
  unfold braceFree. rewrite chars_append. intros. now apply Forall_app.
Qed.

Lemma braceFree_noOpen s :
  braceFree s -> Forall (fun c => c <> "{"%char) (chars s).
Proof. unfold braceFree. apply List.Forall_impl. tauto. Qed.

(** Two different brace-free keys: the closing braces of one do not line
    up with the other. *)
Lemma key_mismatch k :
  forall k' rest,
    braceFree k -> braceFree k' -> k <> k' ->
    startsWith (k +:+ "}}") (k' +:+ "}}" +:+ rest) = false.
Proof.
  induction k as [|a k IH]; intros k' rest Hk Hk' Hne.
  - destruct k' as [|b k']; [congruence|].
    apply braceFree_cons in Hk'. destruct Hk' as [[_ Hb] _].
    simpl. destruct (Ascii.eqb_spec "}" b); [congruence | reflexivity].
  - apply braceFree_cons in Hk. destruct Hk as [[_ Ha] Hk].
    destruct k' as [|b k'].
    + simpl. destruct (Ascii.eqb_spec a "}"); [congruence | reflexivity].
    + apply braceFree_cons in Hk'. destruct Hk' as [_ Hk'].
      simpl. destruct (Ascii.eqb_spec a b) as [->|_]; [|reflexivity].
      simpl. apply IH; [assumption..|]. congruence.
Qed.

(** After the first brace of a token no match starts. *)
Lemma second_brace_mismatch pat k' rest :
  braceFree k' ->
  startsWith (String "{" (String "{" pat)) (String "{" (k' +:+ "}}" +:+ rest))
  = false.
Proof.
  intros Hk'. simpl. destruct k' as [|b k']; simpl; [reflexivity|].
  apply braceFree_cons in Hk'. destruct Hk' as [[Hb _] _].
  destruct (Ascii.eqb_spec "{" b); [congruence | reflexivity].
Qed.

Lemma placeholder_eq k : placeholder k = String "{" (String "{" (k +:+ "}}")).
Proof. reflexivity. Qed.

Lemma token_tail_noOpen k' :
  braceFree k' -> Forall (fun c => c <> "{"%char) (chars (k' +:+ "}}")).
Proof.
  intros H. rewrite chars_append. apply Forall_app. split.
  - now apply braceFree_noOpen.
  - simpl. repeat constructor; discriminate.
Qed.

Lemma replaceFrom_token_other k k' v before rest :
  braceFree k -> braceFree k' -> k' <> k ->
  exists before',
    replaceFrom (placeholder k) v before 0 (placeholder k' +:+ rest) =
    placeholder k' +:+ replaceFrom (placeholder k) v before' 0 rest.
Proof.
  intros Hk Hk' Hne. rewrite !placeholder_eq.
  change (String "{" (String "{" (k' +:+ "}}")) +:+ rest)
    with (String "{" (String "{" ((k' +:+ "}}") +:+ rest))).
  rewrite append_assoc.
  eexists.
  cbn [replaceFrom].
  replace (startsWith (String "{" (String "{" (k +:+ "}}")))
             (String "{" (String "{" (k' +:+ "}}" +:+ rest)))) with false.
  2:{ cbn [startsWith]. rewrite key_mismatch by congruence.
      now rewrite !andb_false_r. }
  rewrite second_brace_mismatch by assumption.
  rewrite <- append_assoc.
  rewrite replaceFrom_nomatch by now apply token_tail_noOpen.
  reflexivity.
Qed.

Lemma replaceFrom_token_same k v before rest :
  dollarFree v ->
  exists before',
    replaceFrom (placeholder k) v before 0 (placeholder k +:+ rest) =
    v +:+ replaceFrom (placeholder k) v before' 0 rest.
Proof.
  intros Hv. rewrite !placeholder_eq.
  set (pat' := String "{" (k +:+ "}}")).
  change (String "{" pat' +:+ rest) with (String "{" (pat' +:+ rest)).
  eexists. cbn [replaceFrom].
  change (String "{" (pat' +:+ rest)) with (String "{" pat' +:+ rest).
  rewrite startsWith_append, getSubstitution_plain by assumption.
  change (String.length (String "{" pat') - 1) with (String.length pat' - 0).
  rewrite Nat.sub_0_r, (replaceFrom_skip _ _ pat' _ _ _ eq_refl).
  reflexivity.
Qed.

(** One turn of the loop, on a text whose braces only delimit tokens. *)
Lemma replaceAll_render k v segs :
  braceFree k -> dollarFree v -> wellFormed segs ->
  forall before,
    replaceFrom (placeholder k) v before 0 (render segs) =
    render (map (resolveKey k v) segs).
Proof.
  intros Hk Hv. unfold wellFormed.
  induction segs as [|seg segs IH]; intros Hwf before; [reflexivity|].
  inversion Hwf as [|? ? Hseg Hrest]; subst.
  destruct seg as [s|k']; cbn [render renderSegment map resolveKey].
  - rewrite placeholder_eq.
    rewrite replaceFrom_nomatch by now apply braceFree_noOpen.
    rewrite <- placeholder_eq. now rewrite IH.
  - destruct (String.eqb_spec k' k) as [->|Hne].
    + destruct (replaceFrom_token_same k v before (render segs) Hv) as [b' ->].
      cbn [renderSegment]. now rewrite IH.
    + destruct (replaceFrom_token_other k k' v before (render segs))
        as [b' ->]; try assumption.
      cbn [renderSegment]. now rewrite IH.
Qed.

Lemma resolveKey_wellFormed k v segs :
  braceFree v -> wellFormed segs -> wellFormed (map (resolveKey k v) segs).
Proof.
  intros Hv. unfold wellFormed. induction 1 as [|seg segs Hseg _ IH]; simpl;
    constructor; try assumption.
  destruct seg as [s|k']; simpl; [assumption|].
  now destruct (String.eqb k' k).
Qed.

Lemma resolve_cons k v repl seg :
  resolve repl (resolveKey k v seg) = resolve ((k, v) :: repl) seg.
Proof.
  destruct seg as [s|k']; simpl; [reflexivity|].
  now destruct (String.eqb k' k).
Qed.

(** The whole loop over the replacement map. *)
Lemma substitute_render repl :
  plainReplacements repl ->
  forall segs,
    wellFormed segs ->
    substitute repl (render segs) = render (map (resolve repl) segs).
Proof.
  unfold plainReplacements, substitute.
  induction repl as [|[k v] repl IH]; intros Hp segs Hwf.
  - simpl. f_equal. induction segs as [|[s|k'] segs IHs]; simpl;
      [reflexivity | |]; inversion Hwf; subst; now rewrite <- IHs.
  - inversion Hp as [|? ? (Hk & Hv & Hd) Hrest]; subst. simpl in Hk, Hv, Hd.
    cbn [foldl fst snd]. unfold replaceAll.
    rewrite replaceAll_render by assumption.
    rewrite IH by (try assumption; now apply resolveKey_wellFormed).
    rewrite map_map. f_equal. apply map_ext. intros seg. apply resolve_cons.
Qed.

(** *** No recognized token is left *)

Lemma includes_nomatch pat' s rest :
  Forall (fun c => c <> "{"%char) (chars s) ->
  includes (String "{" pat') (s +:+ rest) = includes (String "{" pat') rest.
Proof.
  induction s as [|c s IH]; intros H; [reflexivity|].
  inversion H as [|? ? Hc Hs]; subst.
  change (String c s +:+ rest) with (String c (s +:+ rest)).
  cbn [includes startsWith].
  destruct (Ascii.eqb_spec "{" c) as [E|_]; [congruence|].
  cbn [andb orb]. now apply IH.
Qed.

Lemma includes_token_other k k' rest :
  braceFree k -> braceFree k' -> k' <> k ->
  includes (placeholder k) (placeholder k' +:+ rest) =
  includes (placeholder k) rest.
Proof.
  intros Hk Hk' Hne. rewrite !placeholder_eq.
  change (String "{" (String "{" (k' +:+ "}}")) +:+ rest)
    with (String "{" (String "{" ((k' +:+ "}}") +:+ rest))).
  rewrite append_assoc.
  cbn [includes].
  replace (startsWith (String "{" (String "{" (k +:+ "}}")))
             (String "{" (String "{" (k' +:+ "}}" +:+ rest)))) with false.
  2:{ cbn [startsWith]. rewrite key_mismatch by congruence.
      now rewrite !andb_false_r. }
  rewrite second_brace_mismatch by assumption. cbn [orb].
  rewrite <- append_assoc.
  now apply includes_nomatch, token_tail_noOpen.
Qed.

Lemma includes_render k segs :
  braceFree k -> wellFormed segs ->
  (forall k', In (Token k') segs -> k' <> k) ->
  includes (placeholder k) (render segs) = false.
Proof.
  intros Hk. unfold wellFormed.
  induction segs as [|seg segs IH]; intros Hwf Hno; [reflexivity|].
  inversion Hwf as [|? ? Hseg Hrest]; subst.
  assert (Hno' : forall k', In (Token k') segs -> k' <> k)
    by (intros k' Hin; apply Hno; now right).
  destruct seg as [s|k']; cbn [render renderSegment].
  - rewrite placeholder_eq, includes_nomatch by now apply braceFree_noOpen.
    rewrite <- placeholder_eq. now apply IH.
  - rewrite includes_token_other; try assumption.
    + now apply IH.
    + apply Hno. now left.
Qed.

Lemma valueOf_None k repl : valueOf k repl = None <-> ~ In k (map fst repl).
Proof.
  induction repl as [|[k0 v] repl IH]; simpl; [tauto|].
  destruct (String.eqb_spec k k0) as [->|Hne].
  - split; [discriminate | tauto].
  - rewrite IH. intuition.
Qed.

Lemma resolve_wellFormed repl segs :
  plainReplacements repl -> wellFormed segs ->
  wellFormed (map (resolve repl) segs).
Proof.
  intros Hp. unfold wellFormed. induction 1 as [|seg segs Hseg _ IH]; simpl;
    constructor; try assumption.
  destruct seg as [s|k']; simpl; [assumption|].
  destruct (valueOf k' repl) as [v|] eqn:E; [|assumption].
  clear -Hp E. induction repl as [|[k0 v0] repl IHr]; [discriminate|].
  inversion Hp as [|? ? (_ & Hv & _) Hrest]; subst. simpl in *.
  destruct (String.eqb k' k0); [now injection E as <- | auto].
Qed.

Lemma resolve_tokens repl segs k' :
  In (Token k') (map (resolve repl) segs) -> ~ In k' (map fst repl).
Proof.
  rewrite in_map_iff. intros ([s|k0] & E & _); simpl in E; [discriminate|].
  destruct (valueOf k0 repl) eqn:V; [discriminate|].
  injection E as <-. now apply valueOf_None.
Qed.

(** The pass on one text: every token with a recognized key is replaced by
    its value, no such token is left, the other tokens and the text between
    tokens are kept. *)
Lemma substitute_spec repl segs :
  plainReplacements repl -> wellFormed segs ->
  substitute repl (render segs) = render (map (resolve repl) segs) /\
  forall k, In k (map fst repl) ->
            includes (placeholder k) (substitute repl (render segs)) = false.
Proof.
  intros Hp Hwf. split; [now apply substitute_render|].
  intros k Hk. rewrite substitute_render by assumption.
  apply includes_render.
  - unfold plainReplacements in Hp. rewrite List.Forall_forall in Hp.
    apply in_map_iff in Hk. destruct Hk as ([k0 v] & <- & Hin).
    now destruct (Hp _ Hin).
  - now apply resolve_wellFormed.
  - intros k' Hin <-. now apply (resolve_tokens repl segs k').
Qed.

End PlaceholderFacts.

(** ** The placeholder pass of the generators *)
Module SubstitutionFacts.
Import Js Types Fs Base Effects Tokens FsFacts PassFacts RunFacts.
Import PlaceholderFacts FastAPI Samples PassSamples.

#[local] Arguments Ascii.eqb : simpl never.

(** The derived names consist of small letters, digits and the separator:
    they hold no brace and no dollar sign. *)
Lemma onlyWordChars_plain sep s :
  sep = "_"%char \/ sep = "-"%char ->
  braceFree (onlyWordChars sep s) /\ dollarFree (onlyWordChars sep s).
Proof.
  intros Hsep. unfold braceFree, dollarFree.
  induction s as [|c s [IH1 IH2]]; simpl; [split; constructor|].
  assert (H : forall d, d = "{"%char \/ d = "}"%char \/ d = "$"%char ->
                        (if isLowerAZ c || isDigit c || Ascii.eqb c sep
                         then c else sep) <> d).
  { intros d Hd E.
    destruct (isLowerAZ c || isDigit c || Ascii.eqb c sep) eqn:Hc.
    - subst c.
      destruct Hsep as [-> | ->], Hd as [-> | [-> | ->]];
        vm_compute in Hc; discriminate.
    - subst d. destruct Hsep as [-> | ->], Hd as [E | [E | E]]; discriminate. }
  split; constructor; try assumption; [split|]; apply H; tauto.
Qed.

Lemma toSnakeCase_plain name :
  braceFree (toSnakeCase name) /\ dollarFree (toSnakeCase name).
Proof. apply onlyWordChars_plain. now left. Qed.

Lemma toKebabCase_plain name :
  braceFree (toKebabCase name) /\ dollarFree (toKebabCase name).
Proof. apply onlyWordChars_plain. now right. Qed.

Lemma braceFree_literal_keys :
  braceFree "projectName" /\ braceFree "projectNameSnake" /\
  braceFree "projectNameKebab".
Proof.
  unfold braceFree. simpl.
  repeat split; repeat (constructor; [split; discriminate|]); constructor.
Qed.

Lemma replacements_plain name :
  braceFree name -> dollarFree name -> plainReplacements (replacements name).
Proof.
  intros Hb Hd. destruct braceFree_literal_keys as (K1 & K2 & K3).
  destruct (toSnakeCase_plain name) as [S1 S2].
  destruct (toKebabCase_plain name) as [B1 B2].
  unfold plainReplacements, replacements.
  repeat (apply List.Forall_cons; [simpl; repeat split; assumption|]).
  apply List.Forall_nil.
Qed.

(** The pass does not fail on a directory whose directories can be
    listed: a file it cannot read or cannot write back is passed over. *)
Lemma replacePlaceholders_listed repl w es :
  (forall q, refuses w (Readdir q) = false) ->
  target w = Some (NDir es) ->
  replacePlaceholders repl w =
  (Ok tt, mkWorld (templatesRoot w) (templates w)
                  (Some (rewriteIn repl [] (NDir es)).1)
                  (written w ++ (rewriteIn repl [] (NDir es)).2) (refuses w)).
Proof.
  intros Hq H. unfold replacePlaceholders. rewrite H. cbv zeta.
  pose proof (passEntry_listed (refuses w) repl (NDir es) Hq []) as E.
  pose proof (passEntry_ok (refuses w) repl (NDir es) [] E) as P.
  unfold passEntry, replaceEntry in E, P. rewrite E, <- P. reflexivity.
Qed.

Lemma replacePlaceholders_ok repl w es :
  (forall q, refuses w (Readdir q) = false) ->
  target w = Some (NDir es) -> (replacePlaceholders repl w).1 = Ok tt.
Proof. intros Hq H. now rewrite (replacePlaceholders_listed repl w es Hq H). Qed.

Lemma replacePlaceholders_fileAt repl w w' p :
  replacePlaceholders repl w = (Ok tt, w') ->
  fileAtW p w' = rewriteFile repl <$> fileAtW p w.
Proof.
  intros H. destruct (post_replacePlaceholders repl _ _ _ H)
    as (es & Ht & Ht' & _).
  unfold fileAtW. rewrite Ht, Ht'.
  apply (replaceEntry_fileAt repl (NDir es) [] p).
Qed.

(** The pass on a file it can read and write, for any replacement map with
    plain values. *)
Lemma pass_spec repl w w' p f segs :
  plainReplacements repl ->
  replacePlaceholders repl w = (Ok tt, w') ->
  fileAtW p w = Some f -> rewritable f = true ->
  content f = render segs -> wellFormed segs ->
  exists f',
    fileAtW p w' = Some f' /\
    content f' = render (map (resolve repl) segs) /\
    forall k, In k (map fst repl) ->
              includes (placeholder k) (content f') = false.
Proof.
  intros Hp Hrun Hf Hrw Hc Hwf.
  rewrite (replacePlaceholders_fileAt _ _ _ p Hrun), Hf. simpl.
  eexists. split; [reflexivity|].
  unfold rewriteFile. rewrite Hrw. simpl. rewrite Hc.
  destruct (substitute_spec repl segs Hp Hwf) as [E N]. split; assumption.
Qed.

Example about_file_after_pass :
  fileAtW ["about.py"] (replacePlaceholders (replacements "MyApp") tokenWorld).2
  = Some (mkFile "name = MyApp (my_app), {{unknown}}" true true).
Proof. vm_compute. reflexivity. Qed.

End SubstitutionFacts.

(** ** Failures during a run *)
Module FailureFacts.
Import Js Types Fs Base Effects RunFacts FastAPI Samples.
Local Open Scope fs_scope.

Lemma generate_steps g options w :
  is_Some (templates w !! templateDir g) -> target w = None ->
  refuses w (Mkdir []) = false ->
  generate g options w =
  (copyTemplate g (Path.join (templatesRoot w) (templateDir g)) options ;;
   Base.generateOptionalFiles g options) (setTarget (Some (NDir [])) w).
Proof.
  intros Ht Hd Hm. unfold generate, bind at 1 2 3, getTemplatePath,
    templateExists, targetExists.
  rewrite bool_decide_eq_true_2 by assumption. simpl.
  rewrite bool_decide_eq_false_2 by (rewrite Hd; intros [x Hx]; discriminate).
  unfold bind at 1, ensureTarget. now rewrite Hd, Hm.
Qed.


(** A failure of the template copy ends the run with the error of the
    copy. *)
Lemma generate_surfaces_copy_error g options w e w1 :
  is_Some (templates w !! templateDir g) -> target w = None ->
  refuses w (Mkdir []) = false ->
  copyTemplate g (Path.join (templatesRoot w) (templateDir g)) options
               (setTarget (Some (NDir [])) w) = (Err e, w1) ->
  generate g options w = (Err e, w1).
Proof.
  intros Ht Hd Hm Hc. rewrite generate_steps by assumption. now apply bind_err.
Qed.

(** A failure of the option-driven steps ends the run with their error. *)
Lemma generate_surfaces_step_error g options w e w1 w2 :
  is_Some (templates w !! templateDir g) -> target w = None ->
  refuses w (Mkdir []) = false ->
  copyTemplate g (Path.join (templatesRoot w) (templateDir g)) options
               (setTarget (Some (NDir [])) w) = (Ok tt, w1) ->
  Base.generateOptionalFiles g options w1 = (Err e, w2) ->
  generate g options w = (Err e, w2).
Proof.
  intros Ht Hd Hm Hc He. rewrite generate_steps by assumption.
  unfold bind. now rewrite Hc.
Qed.

(** A failed write of a generated file ends the option-driven steps of the
    FastAPI generator; here for the last of them. *)
Example missing_directory_is_fatal :
  (generateOptionalFiles demoBodies (request "demo" None) takenWorld).1
  = Err (FsError "ENOENT" ["app"; "main.py"]).
Proof. vm_compute. reflexivity. Qed.

(** C5, on the code: the template holds a licence file without write
    permission and with a placeholder.  The copy keeps the mode, the
    placeholder pass cannot write the file back, and [generate] still
    succeeds; the file is left with its placeholder, although writing the
    substituted text to it fails with [EACCES]. *)
Theorem substitution_write_failure_is_swallowed :
  demoRun.1 = Ok tt /\
  fileAtW ["LICENSE"] demoRun.2
    = Some (mkFile "Copyright {{projectName}}" true false) /\
  includes (placeholder "projectName") "Copyright {{projectName}}" = true /\
  substitute (replacements "demo") "Copyright {{projectName}}"
    = "Copyright demo" /\
  (writeFile ["LICENSE"] "Copyright demo" demoRun.2).1
    = Err (FsError "EACCES" ["LICENSE"]) /\
  ~ In ["LICENSE"] (pathsWrittenSince freshWorld demoRun.2).
Proof.
  repeat split; try (vm_compute; reflexivity).
  vm_compute. intuition discriminate.
Qed.

End FailureFacts.

(** ** Further examples *)
Module MoreExamples.
Import Js Types Fs Base Effects FastAPI Samples FailureSamples.
Import Utils Requirements RequirementsAux RequirementsFacts.

(** The validators on some names. *)
Example validate_plain_name :
  validateProjectName "my-fastapi-app" = true /\
  getProjectNameError "my-fastapi-app" = None.
Proof. split; reflexivity. Qed.

Example validate_blank_name :
  validateProjectName "  " = false /\
  getProjectNameError "  " = Some "Project name cannot be empty".
Proof. split; reflexivity. Qed.

Example validate_slash :
  validateProjectName "a/b" = false /\
  getProjectNameError "a/b" = Some "Project name contains invalid characters".
Proof. split; reflexivity. Qed.

Example validate_reserved_name :
  validateProjectName "Com1" = false /\
  getProjectNameError "Com1" = Some "Project name is a reserved name".
Proof. split; reflexivity. Qed.

(** The copy of the sample template: the directory [.git] is left out,
    [.gitignore] is copied, and the licence file keeps its mode. *)
Example copy_of_the_template :
  copyNode (fun _ => false) copyFilter
           (Path.join templatesDir "python/fastapi") []
           demoTemplate (Some (NDir [])) =
  (None,
   Some (NDir [("app", NDir [("core",
                              NDir [("about.py",
                                     textFile "name = {{projectName}}")])]);
               (".gitignore", textFile "venv/");
               ("LICENSE", readOnlyFile "Copyright {{projectName}}")])).
Proof. vm_compute. reflexivity. Qed.

(** Why the file half of monotonicity is about runs that succeed: with
    the name [Dockerfile] taken by a directory, the run without options
    succeeds and writes [app/main.py], the run with [docker] stops at the
    Dockerfile and never writes it. *)
Example files_lost_when_a_step_fails :
  (generateOptionalFiles demoBodies (request "demo" (Some optsEmpty))
                         blockedWorld).1 = Ok tt /\
  (generateOptionalFiles demoBodies (request "demo" (Some optsDocker))
                         blockedWorld).1 = Err (FsError "EISDIR" ["Dockerfile"]) /\
  In ["app"; "main.py"]
     (pathsWrittenSince blockedWorld
        (generateOptionalFiles demoBodies (request "demo" (Some optsEmpty))
                               blockedWorld).2) /\
  ~ In ["app"; "main.py"]
      (pathsWrittenSince blockedWorld
         (generateOptionalFiles demoBodies (request "demo" (Some optsDocker))
                                blockedWorld).2).
Proof.
  split; [vm_compute; reflexivity|]. split; [vm_compute; reflexivity|]. split.
  - vm_compute. tauto.
  - vm_compute. intuition discriminate.
Qed.

(** For option maps as the prompts build them, with no key set to [false],
    the manifest is monotone without further conditions. *)
Lemma manifest_monotone_for_selections (A B : ProjectOptions) :
  (forall k, B !! k <> Some (VBool false)) ->
  (forall k, enabledIn A k = true -> enabledIn B k = true) ->
  forall pkg, listsPackage pkg (uniqueRequirements A) ->
              listsPackage pkg (uniqueRequirements B).
Proof.
  intros Hno Hen. apply manifest_packages_monotone; [assumption| |];
    intros _; unfold notDisabledIn, notFalse.
  - specialize (Hno "tests"). destruct (B !! "tests") as [[[]|]|]; congruence.
  - specialize (Hno "envFiles").
    destruct (B !! "envFiles") as [[[]|]|]; congruence.
Qed.

End MoreExamples.

(** ** The registry and the language catalogue *)
Module CatalogueFacts.
Import Types Fs Base Registry Languages.

Lemma generatorKey_inj l f l' f' :
  generatorKey l f = generatorKey l' f' -> l = l' /\ f = f'.
Proof.
  destruct l, f, l', f'; intros H;
    first [split; reflexivity | vm_compute in H; discriminate].
Qed.

(** X1.  Registering a constructor for a pair makes [getGenerator] return
    an instance built by it, replacing whatever was registered for the
    pair before, and changes the answer for no other pair. *)
Theorem register_then_get (map : gmap string GeneratorConstructor)
    (language : Language) (framework : Framework) (C : GeneratorConstructor) :
  getGenerator (registerGenerator map language framework C) language framework
    = Ok (C tt) /\
  hasGenerator (registerGenerator map language framework C) language framework
    = true /\
  (forall C',
     registerGenerator (registerGenerator map language framework C')
                       language framework C
     = registerGenerator map language framework C) /\
  (forall language' framework',
     (language', framework') <> (language, framework) ->
     getGenerator (registerGenerator map language framework C)
                  language' framework'
     = getGenerator map language' framework' /\
     hasGenerator (registerGenerator map language framework C)
                  language' framework'
     = hasGenerator map language' framework').
Proof.
  unfold getGenerator, hasGenerator, registerGenerator.
  split; [now rewrite lookup_insert_eq|].
  split; [rewrite lookup_insert_eq; apply bool_decide_eq_true_2; eauto|].
  split; [intros C'; apply insert_insert_eq|].
  intros l' f' Hne.
  assert (Hk : generatorKey language framework <> generatorKey l' f').
  { intros E. apply generatorKey_inj in E. destruct E as [-> ->]. now apply Hne. }
  now rewrite !lookup_insert_ne by assumption.
Qed.

Lemma generatorMap_lookup bodies l f :
  is_Some (generatorMap bodies !! generatorKey l f) <->
  (l = PYTHON /\ f = FASTAPI) \/ (l = JAVASCRIPT /\ f = EXPRESS).
Proof.
  unfold generatorMap. split.
  - intros [C H].
    destruct (decide (generatorKey JAVASCRIPT EXPRESS = generatorKey l f)) as [E|N].
    + apply generatorKey_inj in E. destruct E as [<- <-]. now right.
    + rewrite lookup_insert_ne in H by assumption.
      destruct (decide (generatorKey PYTHON FASTAPI = generatorKey l f)) as [E|N'].
      * apply generatorKey_inj in E. destruct E as [<- <-]. now left.
      * rewrite lookup_insert_ne in H by assumption.
        rewrite lookup_empty in H. discriminate.
  - intros [[-> ->]|[-> ->]].
    + rewrite lookup_insert_ne by (vm_compute; discriminate).
      rewrite lookup_insert_eq. eauto.
    + rewrite lookup_insert_eq. eauto.
Qed.

(** X2.  Of the language and framework pairs, the registry loaded with the
    module serves exactly Python with FastAPI and JavaScript with Express.
    Every language offers a framework in the prompts, and the frameworks
    offered but not served are Django, Flask, Gin and the Rust default:
    for those [getGenerator] fails with the not-found error. *)
Theorem generators_of_the_catalogue (bodies : FastAPI.FileBodies)
    (language : Language) (framework : Framework) :
  (hasGenerator (generatorMap bodies) language framework = true <->
   (language = PYTHON /\ framework = FASTAPI) \/
   (language = JAVASCRIPT /\ framework = EXPRESS)) /\
  getGenerator (generatorMap bodies) PYTHON FASTAPI
    = Ok (FastAPI.FastAPIGenerator bodies) /\
  getGenerator (generatorMap bodies) JAVASCRIPT EXPRESS
    = Ok Express.ExpressGenerator /\
  getFrameworkChoices language <> [] /\
  (In framework (map snd (getFrameworkChoices language)) ->
   hasGenerator (generatorMap bodies) language framework = false ->
   In (language, framework)
      [(PYTHON, DJANGO); (PYTHON, FLASK); (GO, GIN); (RUST, DEFAULT)] /\
   getGenerator (generatorMap bodies) language framework
     = Err (notFound language framework)).
Proof.
  assert (Hhas : hasGenerator (generatorMap bodies) language framework = true <->
                 (language = PYTHON /\ framework = FASTAPI) \/
                 (language = JAVASCRIPT /\ framework = EXPRESS)).
  { unfold hasGenerator. rewrite bool_decide_eq_true. apply generatorMap_lookup. }
  split; [exact Hhas|].
  split; [reflexivity|]. split; [reflexivity|].
  split; [destruct language; discriminate|].
  intros Hin Hno. split.
  - destruct language, framework; simpl in Hin;
      try (exfalso; intuition discriminate); try (simpl; tauto);
      exfalso; rewrite (proj2 Hhas) in Hno by tauto; discriminate.
  - unfold getGenerator.
    destruct (generatorMap bodies !! generatorKey language framework) eqn:E;
      [|reflexivity].
    exfalso. unfold hasGenerator in Hno.
    rewrite bool_decide_eq_true_2 in Hno by eauto. discriminate.
Qed.

End CatalogueFacts.

(** ** The lines of the manifest, for every option map *)
Module ManifestLinesFacts.
Import Types PythonOptions Requirements RequirementsAux RequirementsFacts.

Ltac pick := simpl; repeat first [left; reflexivity | right].

Lemma declared_line opts o line :
  In o getPythonOptions -> enabledIn opts (key o) = true ->
  In line (declaredRequirements o) ->
  (enabledIn opts "orm" = true /\ line = "sqlalchemy>=0.0.0") \/
  (enabledIn opts "migrations" = true /\ line = "alembic>=0.0.0") \/
  (enabledIn opts "tests" = true /\
   In line ["pytest>=0.0.0"; "pytest-asyncio>=0.0.0"; "httpx>=0.0.0"]) \/
  (enabledIn opts "envFiles" = true /\ line = "python-dotenv>=0.0.0") \/
  (enabledIn opts "linter" = true /\ line = "ruff>=0.0.0") \/
  (enabledIn opts "formatter" = true /\ line = "black>=0.0.0") \/
  (enabledIn opts "preCommit" = true /\ line = "pre-commit>=0.0.0") \/
  (enabledIn opts "logging" = true /\ line = "structlog>=0.0.0").
Proof.
  intros Ho He Hl. unfold getPythonOptions, PYTHON_OPTIONS in Ho.
  simpl in Ho.
  repeat (destruct Ho as [<-|Ho];
          [solve [simpl in He, Hl; intuition (subst; simpl; auto 15)]|]).
  destruct Ho.
Qed.

Lemma option_with_key k deps :
  In (k, deps) (map (fun o => (key o, dependencies o)) getPythonOptions) ->
  exists o, In o getPythonOptions /\ key o = k /\ dependencies o = deps.
Proof.
  intros H. apply in_map_iff in H. destruct H as (o & E & Ho).
  injection E as <- <-. eauto.
Qed.

Lemma scanned opts k dep deps :
  In (k, Some deps) (map (fun o => (key o, dependencies o)) getPythonOptions) ->
  enabledIn opts k = true -> In dep deps ->
  In (dep +:+ ">=0.0.0") (uniqueRequirements opts).
Proof.
  intros Hk He Hd. apply option_with_key in Hk. destruct Hk as (o & Ho & <- & Hdeps).
  apply uniqueRequirements_In. right; left. exists o.
  split; [assumption|]. split; [assumption|].
  unfold declaredRequirements. rewrite Hdeps.
  apply in_map_iff. eauto.
Qed.

(** X3.  The lines of [requirements.txt], for every option map: the three
    base lines; for each option that declares packages and whose key is
    truthy, its packages with the bound [>=0.0.0]; the pinned line of
    python-dotenv, and the three pinned lines of the test packages, when
    the key is not [false] and not truthy either.  The lines are in
    ascending order without repetition, so these memberships fix the file.
    The pinned lines for sqlalchemy and alembic are never written. *)
Theorem manifest_lines (opts : ProjectOptions) (line : string) :
  (In line (uniqueRequirements opts) <->
     In line baseRequirements \/
     (enabledIn opts "orm" = true /\ line = "sqlalchemy>=0.0.0") \/
     (enabledIn opts "migrations" = true /\ line = "alembic>=0.0.0") \/
     (enabledIn opts "tests" = true /\
      In line ["pytest>=0.0.0"; "pytest-asyncio>=0.0.0"; "httpx>=0.0.0"]) \/
     (enabledIn opts "envFiles" = true /\ line = "python-dotenv>=0.0.0") \/
     (enabledIn opts "linter" = true /\ line = "ruff>=0.0.0") \/
     (enabledIn opts "formatter" = true /\ line = "black>=0.0.0") \/
     (enabledIn opts "preCommit" = true /\ line = "pre-commit>=0.0.0") \/
     (enabledIn opts "logging" = true /\ line = "structlog>=0.0.0") \/
     (notDisabledIn opts "envFiles" = true /\ enabledIn opts "envFiles" = false /\
      line = "python-dotenv>=1.0.0") \/
     (notDisabledIn opts "tests" = true /\ enabledIn opts "tests" = false /\
      In line ["pytest>=7.4.3"; "pytest-asyncio>=0.21.1"; "httpx>=0.25.2"])) /\
  ascending (uniqueRequirements opts) /\
  List.NoDup (uniqueRequirements opts) /\
  ~ In "sqlalchemy>=2.0.23" (uniqueRequirements opts) /\
  ~ In "alembic>=1.12.1" (uniqueRequirements opts).
Proof.
  assert (Hto : forall l, In l (uniqueRequirements opts) ->
     In l baseRequirements \/
     (enabledIn opts "orm" = true /\ l = "sqlalchemy>=0.0.0") \/
     (enabledIn opts "migrations" = true /\ l = "alembic>=0.0.0") \/
     (enabledIn opts "tests" = true /\
      In l ["pytest>=0.0.0"; "pytest-asyncio>=0.0.0"; "httpx>=0.0.0"]) \/
     (enabledIn opts "envFiles" = true /\ l = "python-dotenv>=0.0.0") \/
     (enabledIn opts "linter" = true /\ l = "ruff>=0.0.0") \/
     (enabledIn opts "formatter" = true /\ l = "black>=0.0.0") \/
     (enabledIn opts "preCommit" = true /\ l = "pre-commit>=0.0.0") \/
     (enabledIn opts "logging" = true /\ l = "structlog>=0.0.0") \/
     (notDisabledIn opts "envFiles" = true /\ enabledIn opts "envFiles" = false /\
      l = "python-dotenv>=1.0.0") \/
     (notDisabledIn opts "tests" = true /\ enabledIn opts "tests" = false /\
      In l ["pytest>=7.4.3"; "pytest-asyncio>=0.21.1"; "httpx>=0.25.2"])).
  { intros l H. apply uniqueRequirements_In in H.
    destruct H as [H|[(o & Ho & He & Hl)|[(Hl & Hn & He)|(Hl & Hn & He)]]].
    - now left.
    - right. pose proof (declared_line opts o l Ho He Hl) as D. tauto.
    - do 9 right. left. unfold dotenvDefault in Hl. simpl in Hl.
      destruct Hl as [<-|[]]. auto.
    - do 10 right. auto. }
  split; [split; [apply Hto|]|].
  - intros H.
    destruct H as [H|[[He ->]|[[He ->]|[[He H]|[[He ->]|[[He ->]|[[He ->]
                  |[[He ->]|[[He ->]|[(Hn & He & ->)|(Hn & He & H)]]]]]]]]]].
    + apply uniqueRequirements_In. now left.
    + apply (scanned opts "orm" "sqlalchemy" ["sqlalchemy"]); [pick|assumption|pick].
    + apply (scanned opts "migrations" "alembic" ["alembic"]); [pick|assumption|pick].
    + simpl in H. destruct H as [<-|[<-|[<-|[]]]].
      * apply (scanned opts "tests" "pytest" ["pytest"; "pytest-asyncio"; "httpx"]);
          [pick|assumption|pick].
      * apply (scanned opts "tests" "pytest-asyncio"
                 ["pytest"; "pytest-asyncio"; "httpx"]); [pick|assumption|pick].
      * apply (scanned opts "tests" "httpx" ["pytest"; "pytest-asyncio"; "httpx"]);
          [pick|assumption|pick].
    + apply (scanned opts "envFiles" "python-dotenv" ["python-dotenv"]);
        [pick|assumption|pick].
    + apply (scanned opts "linter" "ruff" ["ruff"]); [pick|assumption|pick].
    + apply (scanned opts "formatter" "black" ["black"]); [pick|assumption|pick].
    + apply (scanned opts "preCommit" "pre-commit" ["pre-commit"]);
        [pick|assumption|pick].
    + apply (scanned opts "logging" "structlog" ["structlog"]);
        [pick|assumption|pick].
    + apply uniqueRequirements_In. do 2 right. left.
      split; [left; reflexivity|auto].
    + apply uniqueRequirements_In. do 3 right. auto.
  - split; [apply uniqueRequirements_sorted|].
    split; [apply uniqueRequirements_sorted|].
    split; intros H; apply Hto in H; simpl in H;
      intuition discriminate.
Qed.

End ManifestLinesFacts.

(** ** Option keys the FastAPI generator does not read *)
Module OptionKeysFacts.
Import Types Fs Base PythonOptions Requirements RequirementsAux
       RequirementsFacts FastAPI OptionKeys.

Ltac pick := simpl; repeat first [left; reflexivity | right].

Lemma scanWith_ext (en1 en2 : string -> bool) options :
  (forall o, In o options -> declaredRequirements o <> [] ->
             en1 (key o) = en2 (key o)) ->
  scanWith en1 options = scanWith en2 options.
Proof.
  induction options as [|o rest IH]; intros H; [reflexivity|].
  unfold scanWith in *. cbn [flat_map]. f_equal.
  - destruct (declaredRequirements o) eqn:E.
    + now destruct (en1 (key o)), (en2 (key o)).
    + rewrite (H o); [reflexivity|now left|]. rewrite E. discriminate.
  - apply IH. intros o' Ho'. apply H. now right.
Qed.

Lemma requirementsTxt_agree (A B : ProjectOptions) :
  (forall k, In k inspectedKeys -> A !! k = B !! k) ->
  requirementsTxt A = requirementsTxt B.
Proof.
  intros H. unfold requirementsTxt, uniqueRequirements.
  rewrite !collectRequirements_eq. unfold notDisabledIn, enabledIn.
  rewrite (H "envFiles") by pick. rewrite (H "tests") by pick.
  rewrite (scanWith_ext (fun k => truthy (A !! k)) (fun k => truthy (B !! k)));
    [reflexivity|].
  intros o Ho Hd. unfold getPythonOptions, PYTHON_OPTIONS in Ho. simpl in Ho.
  repeat (destruct Ho as [<-|Ho];
          [first [now (exfalso; apply Hd)
                 | cbn [key mk]; rewrite H by pick; reflexivity]|]).
  destruct Ho.
Qed.

Lemma generateOptionalFiles_agree bodies name tp (A B : ProjectOptions) :
  (forall k, In k inspectedKeys -> A !! k = B !! k) ->
  generateOptionalFiles bodies
    {| projectName := name; targetPath := tp; options := Some A |}
  = generateOptionalFiles bodies
    {| projectName := name; targetPath := tp; options := Some B |}.
Proof.
  intros H.
  unfold generateOptionalFiles, generateREADME, readmeFeatures,
    generateDockerCompose, generateMainPy, generateConfigPy,
    generateRequirementsTxt.
  cbn [default from_option Types.options Types.projectName]. unfold id.
  rewrite (requirementsTxt_agree A B H).
  rewrite (H "orm"), (H "migrations"), (H "docker"), (H "dockerCompose"),
    (H "tests"), (H "envFiles"), (H "prodConfig"), (H "devConfig"),
    (H "linter"), (H "formatter"), (H "preCommit"), (H "logging"),
    (H "monitoring"), (H "readme") by pick.
  reflexivity.
Qed.

(** X4.  The FastAPI generator reads fourteen keys of the option map.
    Setting any other key to any value, or removing it, changes nothing of
    what [generateOptionalFiles] does: the same result and the same final
    state from every state.  Every option the generator offers is one of
    the fourteen except [apiDocs], so selecting [apiDocs] has no effect. *)
Theorem unread_option_is_inert (bodies : FileBodies) (name tp : string)
    (opts : ProjectOptions) (k : string) :
  ~ In k inspectedKeys ->
  (forall v,
     generateOptionalFiles bodies
       {| projectName := name; targetPath := tp;
          options := Some (<[k := v]> opts) |}
     = generateOptionalFiles bodies
       {| projectName := name; targetPath := tp; options := Some opts |}) /\
  generateOptionalFiles bodies
    {| projectName := name; targetPath := tp; options := Some (delete k opts) |}
  = generateOptionalFiles bodies
    {| projectName := name; targetPath := tp; options := Some opts |} /\
  (forall k', In k' (getAvailableOptions (FastAPIGenerator bodies)) ->
              In k' inspectedKeys \/ k' = "apiDocs") /\
  ~ In "apiDocs" inspectedKeys.
Proof.
  intros Hk. split; [|split; [|split]].
  - intros v. apply generateOptionalFiles_agree. intros k' Hk'.
    apply lookup_insert_ne. intros ->. now apply Hk.
  - apply generateOptionalFiles_agree. intros k' Hk'.
    apply lookup_delete_ne. intros ->. now apply Hk.
  - intros k' H. simpl in H. unfold inspectedKeys. simpl.
    intuition (subst; auto 20).
  - simpl. intuition discriminate.
Qed.

Lemma unread_option_is_inert_witness :
  ~ In "apiDocs" inspectedKeys /\
  generateOptionalFiles Samples.demoBodies
    {| projectName := "demo"; targetPath := "demo";
       options := Some (<["apiDocs" := VBool true]> Samples.optsDocker) |}
  = generateOptionalFiles Samples.demoBodies
    {| projectName := "demo"; targetPath := "demo";
       options := Some Samples.optsDocker |}.
Proof.
  assert (H : ~ In "apiDocs" inspectedKeys) by (simpl; intuition discriminate).
  split; [exact H|].
  exact (proj1 (unread_option_is_inert Samples.demoBodies "demo" "demo"
                  Samples.optsDocker "apiDocs" H) (VBool true)).
Defined.

End OptionKeysFacts.

(** ** [formatProjectName] *)
Module FormatFacts.
Import Js Utils UtilsFormat CaseAux.

#[local] Arguments Ascii.eqb : simpl never.

Lemma allowedChar_facts c :
  allowedChar c = true ->
  lowerChar c = c /\ invalidCharClass c = false /\ isWhiteSpace c = false /\
  isUpperAZ c = false.
Proof.
  destruct c as [[] [] [] [] [] [] [] []]; vm_compute; intros H;
    first [discriminate H | repeat split].
Qed.

Lemma replaceDisallowed_allowed s : wordChars "-" (replaceDisallowed s).
Proof.
  unfold wordChars. induction s as [|c r IH]; simpl; constructor; [|exact IH].
  change (wordChar "-" (if allowedChar c then c else "-"%char) = true).
  destruct (allowedChar c) eqn:E; [exact E|reflexivity].
Qed.

Lemma stripLeadingDashes_allowed s :
  wordChars "-" s -> wordChars "-" (stripLeadingDashes s).
Proof.
  unfold wordChars. induction s as [|c r IH]; simpl; intros H; [constructor|].
  destruct (Ascii.eqb c "-"); [|exact H].
  apply IH. now inversion H.
Qed.

Lemma stripTrailingDashes_allowed s :
  wordChars "-" s -> wordChars "-" (stripTrailingDashes s).
Proof.
  unfold wordChars. induction s as [|c r IH]; simpl; intros H; [constructor|].
  inversion H as [|? ? Hc Hr]; subst.
  destruct (isEmpty (stripTrailingDashes r) && Ascii.eqb c "-");
    simpl; constructor; auto.
Qed.

Lemma stripLeadingDashes_head s :
  startsWith "-" (stripLeadingDashes s) = false.
Proof.
  induction s as [|c r IH]; simpl; [reflexivity|].
  destruct (Ascii.eqb c "-") eqn:E; [exact IH|].
  simpl. rewrite Ascii.eqb_sym, E. reflexivity.
Qed.

Lemma stripTrailingDashes_head s :
  startsWith "-" s = false -> startsWith "-" (stripTrailingDashes s) = false.
Proof.
  destruct s as [|c r]; simpl; [reflexivity|]. intros H.
  destruct (Ascii.eqb "-" c) eqn:E; [discriminate H|].
  rewrite Ascii.eqb_sym, E, andb_false_r. simpl. now rewrite E.
Qed.

Lemma stripTrailingDashes_last s t :
  stripTrailingDashes s <> t +:+ "-".
Proof.
  revert t. induction s as [|c r IH]; simpl; intros t.
  - destruct t; discriminate.
  - destruct (stripTrailingDashes r) as [|d r'] eqn:E; simpl.
    + destruct (Ascii.eqb c "-") eqn:Ec; [destruct t; discriminate|].
      destruct t as [|a [|b t']]; simpl; intros H; try discriminate.
      injection H as ->. now rewrite Ascii.eqb_refl in Ec.
    + destruct t as [|a t']; simpl; [discriminate|].
      intros H. injection H as _ H. exact (IH t' H).
Qed.

Lemma stripTrailingDashes_idem s :
  stripTrailingDashes (stripTrailingDashes s) = stripTrailingDashes s.
Proof.
  induction s as [|c r IH]; simpl; [reflexivity|].
  destruct (isEmpty (stripTrailingDashes r) && Ascii.eqb c "-") eqn:E;
    [reflexivity|].
  simpl. rewrite IH, E. reflexivity.
Qed.

Lemma stripLeadingDashes_fixed s :
  startsWith "-" s = false -> stripLeadingDashes s = s.
Proof.
  destruct s as [|c r]; simpl; [reflexivity|].
  rewrite Ascii.eqb_sym. destruct (Ascii.eqb c "-"); [discriminate|reflexivity].
Qed.

Lemma allowed_fixed s :
  wordChars "-" s -> toLowerCase s = s /\ replaceDisallowed s = s.
Proof.
  unfold wordChars. induction s as [|c r IH]; simpl; intros H; [auto|].
  inversion H as [|? ? Hc Hr]; subst. destruct (IH Hr) as [-> ->].
  change (allowedChar c = true) in Hc. rewrite Hc.
  now rewrite (proj1 (allowedChar_facts c Hc)).
Qed.

Lemma allowed_trim s : wordChars "-" s -> trim s = s.
Proof.
  unfold wordChars, trim. intros H.
  assert (Hs : trimStart s = s).
  { destruct s as [|c r]; simpl; [reflexivity|].
    inversion H; subst.
    now rewrite (proj1 (proj2 (proj2 (allowedChar_facts c ltac:(assumption))))). }
  rewrite Hs. clear Hs. induction s as [|c r IH]; simpl; [reflexivity|].
  inversion H as [|? ? Hc Hr]; subst. rewrite (IH Hr).
  rewrite (proj1 (proj2 (proj2 (allowedChar_facts c Hc)))).
  now rewrite andb_false_r.
Qed.

Lemma allowed_invalidChars s : wordChars "-" s -> invalidChars_test s = false.
Proof.
  unfold wordChars, invalidChars_test. induction 1 as [|c l Hc Hl IH]; simpl;
    [reflexivity|].
  now rewrite (proj1 (proj2 (allowedChar_facts c Hc))), IH.
Qed.

(** X5.  [formatProjectName] returns a name over the small letters, the
    digits and the dash that neither starts nor ends with a dash; it
    returns such a name unchanged, so formatting twice is formatting once.
    The formatted name passes [validateProjectName] exactly when it is not
    empty and is not a reserved device name in small letters. *)
Theorem formatProjectName_spec (name : string) :
  wordChars "-" (formatProjectName name) /\
  startsWith "-" (formatProjectName name) = false /\
  (forall t, formatProjectName name <> t +:+ "-") /\
  formatProjectName (formatProjectName name) = formatProjectName name /\
  (validateProjectName (formatProjectName name) = true <->
   formatProjectName name <> EmptyString /\
   arrIncludes (toUpperCase (formatProjectName name)) reservedNames = false) /\
  (forall s, wordChars "-" s -> startsWith "-" s = false ->
             (forall t, s <> t +:+ "-") -> formatProjectName s = s).
Proof.
  assert (Hfix : forall s, wordChars "-" s -> startsWith "-" s = false ->
                   stripTrailingDashes s = s -> formatProjectName s = s).
  { intros s Ha Hh Ht. unfold formatProjectName, stripDashes.
    destruct (allowed_fixed s Ha) as [-> ->].
    now rewrite (stripLeadingDashes_fixed s Hh). }
  assert (Ha : wordChars "-" (formatProjectName name)).
  { apply stripTrailingDashes_allowed, stripLeadingDashes_allowed,
      replaceDisallowed_allowed. }
  assert (Hh : startsWith "-" (formatProjectName name) = false).
  { apply stripTrailingDashes_head, stripLeadingDashes_head. }
  split; [exact Ha|]. split; [exact Hh|].
  split; [intros t; apply stripTrailingDashes_last|].
  split; [apply Hfix; auto; apply stripTrailingDashes_idem|].
  split.
  - unfold validateProjectName. rewrite (allowed_trim _ Ha), orb_diag.
    rewrite (allowed_invalidChars _ Ha).
    destruct (formatProjectName name) as [|c r]; cbn [isEmpty].
    + split; [discriminate|]. intros [H _]. now contradiction H.
    + destruct (arrIncludes (toUpperCase (String c r)) reservedNames).
      * split; [discriminate|]. intros [_ H]. discriminate H.
      * split; [|reflexivity]. intros _. split; [discriminate|reflexivity].
  - intros s Hs Hs1 Hs2. apply Hfix; auto.
    clear -Hs2. induction s as [|c r IH]; simpl; [reflexivity|].
    rewrite IH.
    + destruct r as [|d r']; simpl; [|reflexivity].
      destruct (Ascii.eqb c "-") eqn:E; [|reflexivity].
      apply Ascii.eqb_eq in E. subst c. exfalso. now apply (Hs2 EmptyString).
    + intros t E. apply (Hs2 (String c t)). simpl. now rewrite E.
Qed.

End FormatFacts.

(** ** [toSnakeCase] and [toKebabCase] *)
Module CaseFacts.
Import Js FastAPI CaseAux.

#[local] Arguments Ascii.eqb : simpl never.

Lemma wordChar_facts sep c :
  sep = "_"%char \/ sep = "-"%char ->
  (wordChar sep c = true -> isUpperAZ c = false /\ lowerChar c = c) /\
  (isUpperAZ c = true ->
   isUpperAZ (lowerChar c) = false /\
   lowerChar (lowerChar c) = lowerChar c /\
   Ascii.eqb (lowerChar c) sep = false).
Proof.
  intros [-> | ->]; destruct c as [[] [] [] [] [] [] [] []]; vm_compute;
    (split; intros H; first [discriminate H | repeat split]).
Qed.

Lemma onlyWordChars_word sep s : wordChars sep (onlyWordChars sep s).
Proof.
  unfold wordChars. induction s as [|c r IH]; simpl; constructor; [|exact IH].
  change (wordChar sep (if wordChar sep c then c else sep) = true).
  destruct (wordChar sep c) eqn:E; [exact E|].
  unfold wordChar. now rewrite Ascii.eqb_refl, orb_true_r.
Qed.

Lemma toCase_capital sep c r :
  sep = "_"%char \/ sep = "-"%char -> isUpperAZ c = true ->
  toCase sep (String c r) = toCase sep (String (lowerChar c) r).
Proof.
  intros Hsep Hc.
  destruct (proj2 (wordChar_facts sep c Hsep) Hc) as (H1 & H2 & H3).
  assert (Hs : lowerChar sep = sep) by (destruct Hsep as [-> | ->]; reflexivity).
  unfold toCase. cbn [prefixCapitals]. rewrite Hc, H1.
  cbn [toLowerCase dropLeading]. rewrite Hs, Ascii.eqb_refl, H2, H3.
  reflexivity.
Qed.

Lemma toCase_fixed sep s :
  sep = "_"%char \/ sep = "-"%char ->
  wordChars sep s -> startsWith (String sep EmptyString) s = false ->
  toCase sep s = s.
Proof.
  intros Hsep Hw Hs. unfold toCase.
  assert (H1 : prefixCapitals sep s = s /\ toLowerCase s = s /\
               onlyWordChars sep s = s).
  { clear Hs. unfold wordChars in Hw.
    induction s as [|c r IH]; simpl; [auto|].
    inversion Hw as [|? ? Hc Hr]; subst. destruct (IH Hr) as (-> & -> & ->).
    destruct (proj1 (wordChar_facts sep c Hsep) Hc) as [-> ->].
    change (isLowerAZ c || isDigit c || Ascii.eqb c sep) with (wordChar sep c).
    now rewrite Hc. }
  destruct H1 as (-> & -> & H3).
  destruct s as [|c r]; [reflexivity|].
  cbn [startsWith] in Hs. cbn [dropLeading].
  rewrite Ascii.eqb_sym. destruct (Ascii.eqb sep c); [discriminate Hs|exact H3].
Qed.

(** X6.  The derived names [toSnakeCase] and [toKebabCase] consist of small
    letters, digits and the separator (the underscore, the dash).  A
    capital as the first letter gives no leading separator: the name
    converts as with that letter in lower case.  A name that is already
    over the alphabet and does not start with the separator is returned
    unchanged. *)
Theorem derived_names (str : string) :
  wordChars "_" (toSnakeCase str) /\
  wordChars "-" (toKebabCase str) /\
  (forall c r, str = String c r -> isUpperAZ c = true ->
     toSnakeCase str = toSnakeCase (String (lowerChar c) r) /\
     toKebabCase str = toKebabCase (String (lowerChar c) r)) /\
  (wordChars "_" str -> startsWith "_" str = false -> toSnakeCase str = str) /\
  (wordChars "-" str -> startsWith "-" str = false -> toKebabCase str = str).
Proof.
  split; [apply onlyWordChars_word|]. split; [apply onlyWordChars_word|].
  split; [|split].
  - intros c r -> Hc. split; apply toCase_capital; auto.
  - apply toCase_fixed. now left.
  - apply toCase_fixed. now right.
Qed.

End CaseFacts.

(** ** What the placeholder pass keeps *)
Module PassShapeFacts.
Import Types Fs Base Effects Shape FsFacts PassFacts RunFacts SubstitutionFacts.

Lemma kindAt_dir y p es :
  kindAt (y :: p) (NDir es) =
  match entry y es with Some m => kindAt p m | None => None end.
Proof. unfold kindAt. simpl. now destruct (entry y es). Qed.

Lemma replaceEntry_kindAt repl m :
  forall pre p, kindAt p (replaceEntry repl pre m).1 = kindAt p m.
Proof.
  induction m as [f| |es IH] using node_ind2; intros pre p.
  - unfold replaceEntry, replaceInFile.
    destruct (readable f && writable f); simpl; [|reflexivity].
    now destruct p.
  - reflexivity.
  - unfold replaceEntry. revert p.
    induction es as [|[x m] es IHes]; intros p.
    + now rewrite rewriteIn_nil.
    + inversion IH as [|? ? Hm Hes]; subst. simpl in Hm.
      rewrite rewriteIn_cons. simpl.
      destruct p as [|y p]; [reflexivity|].
      rewrite !kindAt_dir. simpl.
      destruct (String.eqb y x).
      * apply Hm.
      * specialize (IHes Hes (y :: p)).
        rewrite rewriteIn_isDir, !kindAt_dir in IHes. exact IHes.
Qed.

Lemma rewriteFile_modes repl f :
  readable (rewriteFile repl f) = readable f /\
  writable (rewriteFile repl f) = writable f /\
  (rewritable f = false -> rewriteFile repl f = f) /\
  (rewritable f = true ->
   content (rewriteFile repl f) = substitute repl (content f)).
Proof.
  unfold rewriteFile. destruct (rewritable f); simpl; repeat split;
    intros; congruence.
Qed.

Lemma replacements_identifierKeys name :
  Keys.identifierKeys (FastAPI.replacements name).
Proof. repeat constructor. Qed.

(** X7.  The placeholder pass on a target that is a directory, for a
    replacement map whose keys are identifiers.  It fails only where a
    directory cannot be listed: when the file system lists every
    directory the pass succeeds, whatever the files and the values of the
    map.  A pass that succeeds has created and removed nothing: the same
    paths hold files, directories and other entries as before.  Every
    file keeps its permissions; a file that cannot be read or cannot be
    written keeps its text, a file that can be read and written holds
    the text with the values put in; the templates are not touched.  In
    a tree without repeated names the files written are exactly the
    regular files that can be read and written. *)
Theorem pass_keeps_the_tree (repl : list (string * string)) (w : world)
    (es : list (string * node)) :
  Keys.identifierKeys repl ->
  target w = Some (NDir es) ->
  ((forall q, refuses w (Readdir q) = false) ->
   exists w', replacePlaceholders repl w = (Ok tt, w')) /\
  (forall w',
    replacePlaceholders repl w = (Ok tt, w') ->
    templates w' = templates w /\
    (forall p, kindAtW p w' = kindAtW p w) /\
    (forall p, fileAtW p w' = rewriteFile repl <$> fileAtW p w) /\
    (forall p f, fileAtW p w = Some f ->
       exists f', fileAtW p w' = Some f' /\
                  readable f' = readable f /\ writable f' = writable f /\
                  (rewritable f = false -> f' = f) /\
                  (rewritable f = true ->
                   content f' = substitute repl (content f))) /\
    (wfW w ->
     forall q, In q (pathsWrittenSince w w') <->
               exists f, fileAtW q w = Some f /\ rewritable f = true)).
Proof.
  intros _ Ht. split.
  { intros Hq. eexists. exact (replacePlaceholders_listed repl w es Hq Ht). }
  intros w' Hrun.
  destruct (post_replacePlaceholders repl _ _ _ Hrun) as (es' & Ht0 & Ht' & Hw').
  rewrite Ht in Ht0. injection Ht0 as <-.
  assert (Hfile : forall p,
            fileAt p (rewriteIn repl [] (NDir es)).1
            = rewriteFile repl <$> fileAt p (NDir es))
    by (intros p; apply (replaceEntry_fileAt repl (NDir es) [] p)).
  split; [|split; [|split; [|split]]].
  - unfold replacePlaceholders in Hrun. rewrite Ht in Hrun. cbv zeta in Hrun.
    now injection Hrun as _ <-.
  - intros p. unfold kindAtW. rewrite Ht, Ht'.
    apply (replaceEntry_kindAt repl (NDir es) [] p).
  - intros p. unfold fileAtW. rewrite Ht, Ht'. apply Hfile.
  - intros p f Hf. unfold fileAtW in *. rewrite Ht in Hf. rewrite Ht'.
    rewrite Hfile, Hf. simpl. eexists. split; [reflexivity|].
    apply rewriteFile_modes.
  - intros Hwf q. unfold pathsWrittenSince, writtenSince, fileAtW, wfW in *.
    rewrite Ht in *. rewrite Hw', drop_app_length. split.
    + intros H.
      destruct (replaceEntry_written repl (NDir es) [] q Hwf H)
        as (p & -> & f & Hf & Hrw).
      simpl. eauto.
    + intros (f & Hf & Hrw).
      apply (replaceEntry_writes repl (NDir es) [] q). exists f. auto.
Qed.

Lemma pass_keeps_the_tree_witness :
  exists w',
    replacePlaceholders (FastAPI.replacements "demo")
                        FailureSamples.blockedWorld = (Ok tt, w') /\
    forall p, kindAtW p w' = kindAtW p FailureSamples.blockedWorld.
Proof.
  destruct (pass_keeps_the_tree (FastAPI.replacements "demo")
              FailureSamples.blockedWorld _
              (replacements_identifierKeys "demo") eq_refl)
    as (H1 & H2).
  destruct (H1 (fun _ => eq_refl)) as (w' & Hw).
  exists w'. split; [exact Hw|]. apply (H2 w' Hw).
Defined.

End PassShapeFacts.

(** ** [replaceInFiles] against the pass of the generators *)
Module StrictPassFacts.
Import Types Fs Base Effects Shape UtilsFiles FsFacts PassFacts.

Lemma replaceInFilesIn_cons rf repl pre x m es :
  rf (Readdir pre) = false ->
  replaceInFilesIn rf repl pre (NDir ((x, m) :: es)) =
  match (replaceInFilesEntry rf repl (pre ++ [x]) m).1.1 with
  | Some e =>
      (Some e,
       NDir ((x, (replaceInFilesEntry rf repl (pre ++ [x]) m).1.2) :: es),
       (replaceInFilesEntry rf repl (pre ++ [x]) m).2)
  | None =>
      ((replaceInFilesIn rf repl pre (NDir es)).1.1,
       NDir ((x, (replaceInFilesEntry rf repl (pre ++ [x]) m).1.2)
             :: dirEntries (replaceInFilesIn rf repl pre (NDir es)).1.2),
       (replaceInFilesEntry rf repl (pre ++ [x]) m).2
       ++ (replaceInFilesIn rf repl pre (NDir es)).2)
  end.
Proof.
  intros H. destruct m; cbn [replaceInFilesIn replaceInFilesEntry]; rewrite H;
    match goal with |- context [match ?r.1.1 with _ => _ end] =>
      destruct (r.1.1) end; reflexivity.
Qed.

Lemma replaceInFilesIn_nil rf repl pre :
  rf (Readdir pre) = false ->
  replaceInFilesIn rf repl pre (NDir []) = (None, NDir [], []).
Proof. intros H. cbn [replaceInFilesIn]. now rewrite H. Qed.

Lemma replaceInFilesIn_refused rf repl pre es :
  rf (Readdir pre) = true ->
  replaceInFilesIn rf repl pre (NDir es)
  = (Some (FsError "EACCES" pre), NDir es, []).
Proof. intros H. cbn [replaceInFilesIn]. now rewrite H. Qed.

Lemma allRewritable_cons x m es :
  allRewritable (NDir ((x, m) :: es)) =
  allRewritable m && allRewritable (NDir es).
Proof. reflexivity. Qed.

(** When the strict loop goes through, every regular file can be read
    and written, the lenient loop goes through as well, and both have
    done the same. *)
Lemma replaceInFilesEntry_ok rf repl m :
  forall pre,
    (replaceInFilesEntry rf repl pre m).1.1 = None ->
    allRewritable m = true /\
    (passEntry rf repl pre m).1.1 = None /\
    ((replaceInFilesEntry rf repl pre m).1.2,
     (replaceInFilesEntry rf repl pre m).2)
    = replaceEntry repl pre m.
Proof.
  induction m as [f| |es IH] using node_ind2; intros pre H.
  - unfold replaceInFilesEntry, replaceInOneFile, replaceEntry, replaceInFile,
      passEntry in *.
    cbn [allRewritable]. unfold rewritable.
    destruct (readable f), (writable f); simpl in *;
      first [discriminate | repeat split].
  - repeat split.
  - unfold replaceInFilesEntry, replaceEntry, passEntry in H |- *.
    destruct (rf (Readdir pre)) eqn:R.
    { rewrite replaceInFilesIn_refused in H by assumption. discriminate. }
    induction es as [|[x m] es IHes].
    + rewrite replaceInFilesIn_nil, replaceIn_nil by assumption.
      repeat split.
    + inversion IH as [|? ? Hm Hes]; subst. simpl in Hm.
      rewrite replaceInFilesIn_cons in H |- * by assumption.
      rewrite replaceIn_cons by assumption.
      rewrite rewriteIn_cons, allRewritable_cons.
      destruct ((replaceInFilesEntry rf repl (pre ++ [x]) m).1.1) as [e|] eqn:E;
        [discriminate|].
      cbn [fst snd] in H |- *.
      destruct (Hm (pre ++ [x]) E) as (M1 & M2 & M3).
      destruct (IHes Hes H) as (I1 & I2 & I3).
      rewrite M1, M2. cbn [fst snd andb]. split; [exact I1|].
      split; [exact I2|]. rewrite <- M3, <- I3. reflexivity.
Qed.

(** When every directory can be listed and every regular file can be
    read and written, the strict loop goes through. *)
Lemma replaceInFilesEntry_listed rf repl m :
  (forall q, rf (Readdir q) = false) ->
  forall pre,
    allRewritable m = true ->
    (replaceInFilesEntry rf repl pre m).1.1 = None.
Proof.
  intros Hq. induction m as [f| |es IH] using node_ind2; intros pre H.
  - unfold replaceInFilesEntry, replaceInOneFile.
    cbn [allRewritable] in H. unfold rewritable in H.
    destruct (readable f), (writable f); simpl in *;
      first [discriminate | reflexivity].
  - reflexivity.
  - unfold replaceInFilesEntry.
    induction es as [|[x m] es IHes].
    + now rewrite replaceInFilesIn_nil.
    + inversion IH as [|? ? Hm Hes]; subst. simpl in Hm.
      rewrite allRewritable_cons in H. apply andb_true_iff in H.
      destruct H as [H1 H2].
      rewrite replaceInFilesIn_cons by apply Hq.
      rewrite (Hm (pre ++ [x]) H1). cbn [fst]. now apply IHes.
Qed.

(** X8.  [replaceInFiles] of the utilities runs the same loop as the
    placeholder pass of the generators without catching anything; the
    keys of the replacement map are identifiers.  When it succeeds on a
    directory, every regular file below can be read and written, and the
    pass succeeds too and leaves the same state.  When the file system
    lists every directory, it succeeds exactly when every regular file
    below can be read and written, and the pass succeeds in any case.
    When some regular file cannot be read or written it fails. *)
Theorem replaceInFiles_strict (repl : list (string * string)) (w : world)
    (es : list (string * node)) :
  Keys.identifierKeys repl ->
  target w = Some (NDir es) ->
  (forall w',
     replaceInFiles repl w = (Ok tt, w') ->
     allRewritable (NDir es) = true /\
     replacePlaceholders repl w = (Ok tt, w')) /\
  ((forall q, refuses w (Readdir q) = false) ->
   ((replaceInFiles repl w).1 = Ok tt <-> allRewritable (NDir es) = true) /\
   (replacePlaceholders repl w).1 = Ok tt) /\
  (allRewritable (NDir es) = false -> (replaceInFiles repl w).1 <> Ok tt).
Proof.
  intros _ Ht.
  assert (Hok : (replaceInFiles repl w).1 = Ok tt ->
                (replaceInFilesIn (refuses w) repl [] (NDir es)).1.1 = None).
  { unfold replaceInFiles. rewrite Ht. cbv zeta. cbn [fst].
    now destruct ((replaceInFilesIn (refuses w) repl [] (NDir es)).1.1). }
  split; [|split].
  - intros w' H.
    assert (H1 : (replaceInFiles repl w).1 = Ok tt) by now rewrite H.
    apply Hok in H1.
    destruct (replaceInFilesEntry_ok (refuses w) repl (NDir es) [] H1)
      as (A & P & E).
    split; [exact A|].
    unfold replaceInFilesEntry, passEntry, replaceEntry in P, E.
    pose proof (passEntry_ok (refuses w) repl (NDir es) [] P) as Q.
    unfold passEntry, replaceEntry in Q.
    apply (f_equal fst) in E as E1. apply (f_equal snd) in E as E2.
    apply (f_equal fst) in Q as Q1. apply (f_equal snd) in Q as Q2.
    cbn [fst snd] in E1, E2, Q1, Q2.
    rewrite <- H. unfold replaceInFiles, replacePlaceholders.
    rewrite Ht. cbv zeta. now rewrite H1, P, E1, E2, Q1, Q2.
  - intros Hq. split.
    + split.
      * intros H. apply Hok in H.
        now destruct (replaceInFilesEntry_ok (refuses w) repl (NDir es) [] H).
      * intros A.
        pose proof (replaceInFilesEntry_listed (refuses w) repl (NDir es)
                      Hq [] A) as H.
        unfold replaceInFilesEntry in H. unfold replaceInFiles.
        rewrite Ht. cbv zeta. cbn [fst]. now rewrite H.
    + now apply (SubstitutionFacts.replacePlaceholders_ok repl w es).
  - intros A H. apply Hok in H.
    destruct (replaceInFilesEntry_ok (refuses w) repl (NDir es) [] H)
      as (A' & _). congruence.
Qed.

Lemma replaceInFiles_strict_witness :
  (replaceInFiles (FastAPI.replacements "demo") Samples.demoRun.2).1 <> Ok tt /\
  (replacePlaceholders (FastAPI.replacements "demo") Samples.demoRun.2).1
    = Ok tt.
Proof.
  destruct (replaceInFiles_strict (FastAPI.replacements "demo")
              Samples.demoRun.2
              (dirEntries (default NOther (target Samples.demoRun.2)))
              (PassShapeFacts.replacements_identifierKeys "demo")
              ltac:(vm_compute; reflexivity)) as (_ & H2 & H3).
  split; [apply H3; vm_compute; reflexivity|].
  apply (H2 (fun _ => eq_refl)).
Defined.

End StrictPassFacts.

(** ** More on the substitution *)
Module SubstituteFacts.
Import Js Types Fs Base Effects Shape Tokens StringFacts PlaceholderFacts
       SubstitutionFacts.

#[local] Arguments Ascii.eqb : simpl never.

Lemma replaceAll_noOpen k v s :
  noOpenBrace s -> replaceAll (placeholder k) v s = s.
Proof.
  intros H. unfold replaceAll. rewrite placeholder_eq.
  rewrite <- (append_empty_r s) at 1.
  rewrite replaceFrom_nomatch by exact H. simpl. apply append_empty_r.
Qed.

Lemma substitute_noOpen repl s : noOpenBrace s -> substitute repl s = s.
Proof.
  intros H. unfold substitute.
  induction repl as [|[k v] repl IH]; simpl; [reflexivity|].
  now rewrite replaceAll_noOpen.
Qed.

Lemma rewriteFile_same repl f :
  substitute repl (content f) = content f -> rewriteFile repl f = f.
Proof.
  intros H. unfold rewriteFile. rewrite H. destruct f as [c r wr]; simpl.
  now destruct (rewritable _).
Qed.

(** X9.  A file whose text holds no opening brace keeps its text and
    its permissions in the placeholder pass of either generator, for
    every project name.  The text is what a read of the file as UTF-8
    gives: the pass may write the file, and then it writes this text. *)
Theorem file_without_braces_is_kept (name : string) (w : world) (p : path)
    (f : file) :
  fileAtW p w = Some f -> noOpenBrace (content f) ->
  (forall w', replacePlaceholders (FastAPI.replacements name) w = (Ok tt, w') ->
     exists f',
       fileAtW p w' = Some f' /\ content f' = content f /\
       readable f' = readable f /\ writable f' = writable f) /\
  (forall tp opts w',
     Express.generateOptionalFiles
       {| projectName := name; targetPath := tp; options := opts |} w
     = (Ok tt, w') ->
     exists f',
       fileAtW p w' = Some f' /\ content f' = content f /\
       readable f' = readable f /\ writable f' = writable f).
Proof.
  intros Hf Hs. split.
  - intros w' H. rewrite (replacePlaceholders_fileAt _ _ _ p H), Hf. simpl.
    rewrite rewriteFile_same by now apply substitute_noOpen. eauto.
  - intros tp opts w' H. unfold Express.generateOptionalFiles in H.
    rewrite (replacePlaceholders_fileAt _ _ _ p H), Hf. simpl.
    rewrite rewriteFile_same by now apply substitute_noOpen. eauto.
Qed.

Lemma file_without_braces_is_kept_witness :
  exists f',
    fileAtW [".gitignore"]
      (replacePlaceholders (FastAPI.replacements "demo")
         (setTarget (Some Samples.demoTemplate) Samples.freshWorld)).2
    = Some f' /\
    content f' = "venv/" /\ readable f' = true /\ writable f' = true.
Proof.
  refine (proj1 (file_without_braces_is_kept "demo"
           (setTarget (Some Samples.demoTemplate) Samples.freshWorld)
           [".gitignore"] (mkFile "venv/" true true) _ _) _ _).
  - reflexivity.
  - unfold noOpenBrace. simpl. repeat (constructor; [discriminate|]).
    constructor.
  - reflexivity.
Defined.

Lemma resolve_idem repl seg :
  resolve repl (resolve repl seg) = resolve repl seg.
Proof.
  destruct seg as [s|k]; simpl; [reflexivity|].
  destruct (valueOf k repl) eqn:E; simpl; [reflexivity|]. now rewrite E.
Qed.

Lemma substitute_idem repl segs :
  plainReplacements repl -> wellFormed segs ->
  substitute repl (substitute repl (render segs))
  = substitute repl (render segs).
Proof.
  intros Hp Hw. rewrite (substitute_render repl Hp segs Hw).
  rewrite (substitute_render repl Hp _ (resolve_wellFormed _ _ Hp Hw)).
  rewrite map_map. f_equal. apply map_ext. intros seg. apply resolve_idem.
Qed.

(** X10.  Running the placeholder pass a second time changes no file
    whose braces only delimit tokens, for a project name without braces
    and dollar signs: what the first pass leaves is a fixed point. *)
Theorem second_pass_changes_nothing (name : string) (w w1 w2 : world)
    (p : path) (f : file) (segs : list segment) :
  braceFree name -> dollarFree name ->
  replacePlaceholders (FastAPI.replacements name) w = (Ok tt, w1) ->
  replacePlaceholders (FastAPI.replacements name) w1 = (Ok tt, w2) ->
  fileAtW p w = Some f -> content f = render segs -> wellFormed segs ->
  fileAtW p w2 = fileAtW p w1.
Proof.
  intros Hb Hd H1 H2 Hf Hc Hw.
  rewrite (replacePlaceholders_fileAt _ _ _ p H2).
  rewrite (replacePlaceholders_fileAt _ _ _ p H1), Hf. simpl. f_equal.
  destruct (rewritable f) eqn:Hr.
  - assert (E : rewriteFile (FastAPI.replacements name) f
                = mkFile (substitute (FastAPI.replacements name) (content f))
                         (readable f) (writable f))
      by (unfold rewriteFile; now rewrite Hr).
    rewrite E. apply rewriteFile_same. cbn [content]. rewrite Hc.
    apply substitute_idem; [now apply replacements_plain|exact Hw].
  - assert (E : rewriteFile (FastAPI.replacements name) f = f)
      by (unfold rewriteFile; now rewrite Hr).
    now rewrite !E.
Qed.

Lemma second_pass_changes_nothing_witness :
  fileAtW ["about.py"]
    (replacePlaceholders (FastAPI.replacements "MyApp")
       (replacePlaceholders (FastAPI.replacements "MyApp")
          PassSamples.tokenWorld).2).2
  = fileAtW ["about.py"]
      (replacePlaceholders (FastAPI.replacements "MyApp")
         PassSamples.tokenWorld).2.
Proof.
  apply (second_pass_changes_nothing "MyApp" PassSamples.tokenWorld _ _
           ["about.py"] PassSamples.aboutFile PassSamples.aboutSegments).
  - unfold braceFree. simpl. repeat (constructor; [split; discriminate|]).
    constructor.
  - unfold dollarFree. simpl. repeat (constructor; [discriminate|]).
    constructor.
  - reflexivity.
  - reflexivity.
  - reflexivity.
  - reflexivity.
  - unfold wellFormed, PassSamples.aboutSegments, braceFree. simpl.
    repeat (constructor; [repeat (constructor; [split; discriminate|]);
                          constructor|]).
    constructor.
Defined.

Lemma getSubstitution_append matched before after x v :
  dollarFree x ->
  getSubstitution matched before after (x +:+ v)
  = x +:+ getSubstitution matched before after v.
Proof.
  unfold dollarFree. induction x as [|c r IH]; intros H; [reflexivity|].
  inversion H as [|? ? Hc Hr]; subst.
  change (String c r +:+ v) with (String c (r +:+ v)).
  cbn [getSubstitution].
  destruct (Ascii.eqb_spec c "$"); [contradiction|].
  rewrite IH by assumption. reflexivity.
Qed.

Lemma replaceAll_one_token k v a b :
  noOpenBrace a -> noOpenBrace b ->
  replaceAll (placeholder k) v (a +:+ placeholder k +:+ b)
  = a +:+ getSubstitution (placeholder k) a b v +:+ b.
Proof.
  intros Ha Hb. unfold replaceAll. rewrite !placeholder_eq.
  set (pat' := String "{" (k +:+ "}}")).
  rewrite replaceFrom_nomatch by exact Ha. f_equal.
  change (EmptyString +:+ a) with a.
  change (String "{" pat' +:+ b) with (String "{" (pat' +:+ b)).
  cbn [replaceFrom].
  change (String "{" (pat' +:+ b)) with (String "{" pat' +:+ b).
  rewrite startsWith_append.
  replace (dropS (String.length (String "{" pat')) (String "{" pat' +:+ b))
    with b.
  2:{ clear. generalize (String "{" pat'). intros s.
      induction s as [|c s IH]; simpl; [now destruct b|exact IH]. }
  f_equal.
  change (String.length (String "{" pat') - 1) with (String.length pat' - 0).
  rewrite Nat.sub_0_r, (replaceFrom_skip _ _ pat' _ _ _ eq_refl).
  rewrite <- (append_empty_r b) at 1.
  rewrite replaceFrom_nomatch by exact Hb. simpl. apply append_empty_r.
Qed.

(** X11.  The value is not always inserted as it is: [replace] reads a
    dollar sign in it as a pattern.  Where a text holds the token of the
    project name once, a name without dollar signs is inserted verbatim;
    in a name a doubled dollar sign comes out as a single one; and for the
    name made of a dollar sign and an ampersand the token is replaced by
    itself, so the text is left as it was. *)
Theorem dollar_sign_in_the_name (a b : string) :
  noOpenBrace a -> noOpenBrace b ->
  (forall name,
     substitute [("projectName", name)] (a +:+ "{{projectName}}" +:+ b)
     = a +:+ getSubstitution "{{projectName}}" a b name +:+ b) /\
  (forall name, dollarFree name ->
     substitute [("projectName", name)] (a +:+ "{{projectName}}" +:+ b)
     = a +:+ name +:+ b) /\
  (forall x y, dollarFree x -> dollarFree y ->
     substitute [("projectName", x +:+ "$$" +:+ y)]
                (a +:+ "{{projectName}}" +:+ b)
     = a +:+ (x +:+ "$" +:+ y) +:+ b) /\
  substitute [("projectName", "$&")] (a +:+ "{{projectName}}" +:+ b)
  = a +:+ "{{projectName}}" +:+ b.
Proof.
  intros Ha Hb.
  assert (H : forall name,
     substitute [("projectName", name)] (a +:+ "{{projectName}}" +:+ b)
     = a +:+ getSubstitution "{{projectName}}" a b name +:+ b).
  { intros name. unfold substitute. cbn [foldl fst snd].
    exact (replaceAll_one_token "projectName" name a b Ha Hb). }
  split; [exact H|]. split; [|split].
  - intros name Hn. now rewrite H, getSubstitution_plain.
  - intros x y Hx Hy. rewrite H, getSubstitution_append by exact Hx.
    change ("$$" +:+ y) with (String "$" (String "$" y)).
    cbn [getSubstitution]. rewrite Ascii.eqb_refl.
    now rewrite getSubstitution_plain.
  - rewrite H. reflexivity.
Qed.

Lemma dollar_sign_in_the_name_witness :
  substitute [("projectName", "cash$$flow")] "name = {{projectName}};"
  = "name = cash$flow;".
Proof.
  refine (proj1 (proj2 (proj2
    (dollar_sign_in_the_name "name = " ";" _ _))) "cash" "flow" _ _).
  - unfold noOpenBrace. simpl. repeat (constructor; [discriminate|]).
    constructor.
  - unfold noOpenBrace. simpl. repeat (constructor; [discriminate|]).
    constructor.
  - unfold dollarFree. simpl. repeat (constructor; [discriminate|]).
    constructor.
  - unfold dollarFree. simpl. repeat (constructor; [discriminate|]).
    constructor.
Defined.

End SubstituteFacts.

(** ** The copy of the template *)
Module CopyFacts.
Import Js Path Types Fs Base Effects CopyAux FsFacts FilterFacts.








Lemma allReadable_cons x m es :
  allReadable (NDir ((x, m) :: es)) = allReadable m && allReadable (NDir es).
Proof. reflexivity. Qed.

















End CopyFacts.

(** ** The formatter step *)
Module FormatterFacts.
Import Js Types Fs Base Effects FastAPI FsFacts RunFacts.
Local Open Scope fs_scope.

Lemma updateFile_at upd q :
  forall here n n',
    updateFile upd here q n = Ok n' ->
    exists f', fileAt q n' = Some f' /\ upd (fileAt q n) = Ok f'.
Proof.
  induction q as [|x q IH]; intros here n n' H.
  - destruct n as [f0|es|]; simpl in H; try discriminate.
    unfold fileAt. simpl. destruct (upd (Some f0)) as [f|e] eqn:E;
      simpl in H; [|discriminate].
    injection H as <-. simpl. eauto.
  - destruct n as [f0|es|]; simpl in H; try discriminate.
    rewrite fileAt_dir.
    destruct (entry x es) as [m|] eqn:E.
    + destruct (updateFile upd (here ++ [x]) q m) as [m'|e] eqn:Em;
        simpl in H; [|discriminate].
      injection H as <-. rewrite fileAt_dir, entry_setEntry_same, E. simpl.
      exact (IH _ _ _ Em).
    + destruct q as [|y q]; [|discriminate].
      destruct (upd None) as [f|e] eqn:Eu; simpl in H; [|discriminate].
      injection H as <-. rewrite fileAt_dir, entry_snoc_same by exact E.
      unfold fileAt. simpl. eauto.
Qed.

Lemma appendFile_at p c w w1 :
  appendFile p c w = (Ok tt, w1) ->
  exists f',
    fileAtW p w1 = Some f' /\
    appendUpd (refuses w (Create p)) p c (fileAtW p w) = Ok f'.
Proof.
  intros H. apply appendFile_ok in H.
  destruct H as (t & t' & Ht & Hop & ->).
  unfold fileAtW. simpl. rewrite Ht.
  exact (updateFile_at _ _ _ _ _ Hop).
Qed.

Lemma includes_append_r pat a b :
  includes pat b = true -> includes pat (a +:+ b) = true.
Proof.
  intros H. induction a as [|c a IH]; [exact H|].
  change (String c a +:+ b) with (String c (a +:+ b)).
  cbn [includes]. rewrite IH. apply orb_true_r.
Qed.

Lemma fileAt_nodeAt p n f : fileAt p n = Some f -> nodeAt p n = Some (NFile f).
Proof.
  unfold fileAt. destruct (nodeAt p n) as [[f0|es|]|]; try discriminate.
  now intros [= ->].
Qed.

(** A readable file at [pyproject.toml] that mentions the section makes
    the step do nothing. *)
Lemma formatter_noop bodies w f :
  fileAtW pyprojectToml w = Some f -> readable f = true ->
  includes "[tool.black]" (content f) = true ->
  generateFormatterConfig bodies w = (Ok tt, w).
Proof.
  intros Hf Hr Hi. unfold generateFormatterConfig, fileAtW in *. cbv zeta.
  destruct (target w) as [t|] eqn:Ht; [|discriminate].
  apply fileAt_nodeAt in Hf. unfold pyprojectToml in Hf.
  unfold bind at 1, pathExists. rewrite Ht, Hf.
  rewrite bool_decide_eq_true_2 by eauto.
  unfold bind at 1, readFile. rewrite Ht, Hf, Hr, Hi. reflexivity.
Qed.

(** X14.  The formatter step, for a black section that carries its header:
    after a successful run [pyproject.toml] is a file that mentions
    [[tool.black]]; what was in the file before is kept, the section being
    appended after it; and running the step again changes nothing. *)
Theorem formatter_step_once (bodies : FileBodies) (w w1 : world) :
  includes "[tool.black]" (blackConfig bodies) = true ->
  generateFormatterConfig bodies w = (Ok tt, w1) ->
  (exists f1,
     fileAtW pyprojectToml w1 = Some f1 /\
     includes "[tool.black]" (content f1) = true /\
     match fileAtW pyprojectToml w with
     | Some f =>
         content f1 =
         if includes "[tool.black]" (content f) then content f
         else content f +:+ blackConfig bodies
     | None => content f1 = blackConfig bodies
     end) /\
  generateFormatterConfig bodies w1 = (Ok tt, w1).
Proof.
  intros Hb H.
  assert (Hgoal : exists f1,
     fileAtW pyprojectToml w1 = Some f1 /\ readable f1 = true /\
     includes "[tool.black]" (content f1) = true /\
     match fileAtW pyprojectToml w with
     | Some f =>
         content f1 =
         if includes "[tool.black]" (content f) then content f
         else content f +:+ blackConfig bodies
     | None => content f1 = blackConfig bodies
     end).
  { unfold generateFormatterConfig in H. cbv zeta in H.
    apply bind_ok in H. destruct H as (isThere & w0 & H1 & H).
    apply pathExists_ok in H1. destruct H1 as [-> Hno].
    apply bind_ok in H. destruct H as (c & w2 & H2 & H).
    destruct isThere.
    - pose proof H2 as H2'.
      apply readFile_ok in H2. destruct H2 as (-> & f & Hf & ->).
      assert (Hr : readable f = true).
      { unfold readFile in H2'.
        unfold fileAtW in Hf. destruct (target w) as [t|]; [|discriminate].
        apply fileAt_nodeAt in Hf. rewrite Hf in H2'.
        destruct (readable f); [reflexivity|discriminate]. }
      change ["pyproject.toml"] with pyprojectToml in *. rewrite Hf.
      destruct (includes "[tool.black]" (content f)) eqn:Hi; simpl in H.
      + injection H as <-. exists f. rewrite Hf. auto.
      + apply appendFile_at in H. destruct H as (f1 & Hf1 & Hu).
        rewrite Hf in Hu. simpl in Hu.
        destruct (writable f); [|discriminate]. injection Hu as <-.
        eexists. split; [exact Hf1|]. simpl.
        split; [exact Hr|]. split; [now apply includes_append_r|reflexivity].
    - injection H2 as <- <-. specialize (Hno eq_refl).
      change ["pyproject.toml"] with pyprojectToml in *. rewrite Hno.
      simpl in H. apply appendFile_at in H. destruct H as (f1 & Hf1 & Hu).
      rewrite Hno in Hu. simpl in Hu.
      destruct (refuses w (Create pyprojectToml)); [discriminate|].
      injection Hu as <-.
      eexists. split; [exact Hf1|]. simpl. auto. }
  destruct Hgoal as (f1 & Hf1 & Hr1 & Hi1 & Hc).
  split; [exists f1; auto|].
  exact (formatter_noop bodies w1 f1 Hf1 Hr1 Hi1).
Qed.

Lemma formatter_step_once_witness :
  generateFormatterConfig Samples.demoBodies
    (generateFormatterConfig Samples.demoBodies Samples.skeletonWorld).2
  = (Ok tt, (generateFormatterConfig Samples.demoBodies Samples.skeletonWorld).2).
Proof.
  exact (proj2 (formatter_step_once Samples.demoBodies Samples.skeletonWorld
                  (generateFormatterConfig Samples.demoBodies
                     Samples.skeletonWorld).2 eq_refl eq_refl)).
Defined.

End FormatterFacts.

(** ** The prompts *)
Module PromptFacts.
Import Js Types Utils Requirements RequirementsAux RequirementsFacts Effects
       Prompts.

Lemma accepted_valid n : accepted n = validateProjectName n.
Proof.
  unfold accepted, getProjectNameError, validateProjectName.
  destruct (isEmpty n || isEmpty (trim n)); [reflexivity|].
  destruct (invalidChars_test n); [reflexivity|].
  now destruct (arrIncludes (toUpperCase n) reservedNames).
Qed.

Lemma find_accepted typed n :
  find accepted typed = Some n ->
  validateProjectName n = true /\ In n typed /\
  exists before after,
    typed = before ++ n :: after /\
    Forall (fun t => validateProjectName t = false) before.
Proof.
  induction typed as [|t typed IH]; [discriminate|]. simpl.
  destruct (accepted t) eqn:E.
  - intros [= ->]. rewrite accepted_valid in E.
    split; [exact E|]. split; [now left|].
    exists [], typed. split; [reflexivity|constructor].
  - intros H. destruct (IH H) as (Hv & Hin & before & after & -> & Hb).
    split; [exact Hv|]. split; [now right|].
    exists (t :: before), after. split; [reflexivity|].
    constructor; [now rewrite <- accepted_valid|exact Hb].
Qed.

(** X15.  A name that [promptProjectName] returns passes
    [validateProjectName]: it is the initial name, when that is valid, and
    otherwise the first answer typed that is valid, every answer before it
    having been refused. *)
Theorem prompted_name_is_valid (initialName : option string)
    (typed : list string) (n : string) :
  promptProjectName initialName typed = Some n ->
  validateProjectName n = true /\
  ((initialName = Some n /\ n <> EmptyString) \/
   ((forall i, initialName = Some i -> validateProjectName i = false) /\
    exists before after,
      typed = before ++ n :: after /\
      Forall (fun t => validateProjectName t = false) before)).
Proof.
  unfold promptProjectName. destruct initialName as [i|].
  - destruct (negb (isEmpty i) && validateProjectName i) eqn:E.
    + intros [= ->]. apply andb_true_iff in E. destruct E as [E1 E2].
      split; [exact E2|]. left. split; [reflexivity|].
      intros ->. discriminate E1.
    + intros H. destruct (find_accepted _ _ H) as (Hv & _ & Hrest).
      split; [exact Hv|]. right. split; [|exact Hrest].
      intros i' [= <-]. destruct i; [reflexivity|]. exact E.
  - intros H. destruct (find_accepted _ _ H) as (Hv & _ & Hrest).
    split; [exact Hv|]. right. split; [discriminate|exact Hrest].
Qed.

Lemma prompted_name_is_valid_witness :
  validateProjectName "my-api" = true /\
  ((Some "con" = Some "my-api" /\ "my-api" <> EmptyString) \/
   ((forall i, Some "con" = Some i -> validateProjectName i = false) /\
    exists before after,
      ["a/b"; " "; "my-api"; "other"] = before ++ "my-api" :: after /\
      Forall (fun t => validateProjectName t = false) before)).
Proof.
  exact (prompted_name_is_valid (Some "con") ["a/b"; " "; "my-api"; "other"]
           "my-api" eq_refl).
Defined.

Lemma selected_acc checked : forall (acc : ProjectOptions) k,
  foldl (fun result option => <[option := VBool true]> result) acc checked !! k
  = if arrIncludes k checked then Some (VBool true) else acc !! k.
Proof.
  induction checked as [|c checked IH]; intros acc k; [reflexivity|].
  cbn [foldl]. rewrite IH. unfold arrIncludes. cbn [existsb].
  destruct (existsb (String.eqb k) checked); [now rewrite orb_true_r|].
  rewrite orb_false_r. destruct (String.eqb_spec k c) as [->|Hne].
  - now rewrite lookup_insert_eq.
  - now rewrite lookup_insert_ne by congruence.
Qed.

Lemma selected_lookup checked k :
  selected checked !! k
  = if arrIncludes k checked then Some (VBool true) else None.
Proof. unfold selected. rewrite selected_acc. now rewrite lookup_empty. Qed.

Lemma selected_enabled checked k :
  enabledIn (selected checked) k = true <-> In k checked.
Proof.
  unfold enabledIn. rewrite selected_lookup, <- arrIncludes_In.
  destruct (arrIncludes k checked); simpl; tauto.
Qed.

Lemma selected_notDisabled checked k :
  notDisabledIn (selected checked) k = true.
Proof.
  unfold notDisabledIn. rewrite selected_lookup.
  now destruct (arrIncludes k checked).
Qed.

Lemma orUndefined_default (o : ProjectOptions) : default ∅ (orUndefined o) = o.
Proof.
  unfold orUndefined. destruct (0 <? size o) eqn:E; [reflexivity|].
  apply Nat.ltb_ge in E. simpl. symmetry. apply map_size_empty_iff. lia.
Qed.

Ltac split_block H :=
  repeat match type of H with
         | In _ (if ?b then _ else _) => destruct b eqn:?
         end;
  simpl in H; intuition (try discriminate; try assumption).

Lemma pinned_not_declared o line :
  In o PythonOptions.getPythonOptions -> In line (declaredRequirements o) ->
  ~ In line (pytestDefault ++ dotenvDefault).
Proof.
  intros Ho Hl.
  unfold PythonOptions.getPythonOptions, PythonOptions.PYTHON_OPTIONS in Ho.
  simpl in Ho.
  repeat (destruct Ho as [<-|Ho];
          [solve [simpl in Hl |- *; intuition (subst; discriminate)]|]).
  destruct Ho.
Qed.

(** X16.  The option map a session of the prompts hands to the FastAPI
    generator holds [true] for the boxes ticked and nothing else; turning
    an empty map into [undefined] and back changes nothing.  For such a
    map the manifest always lists pytest and python-dotenv, pinned when
    the box is not ticked, although the test files and [.env.example] are
    written only when it is; and ticking more boxes never takes a package
    from the manifest. *)
Theorem selections_of_a_session (bodies : FastAPI.FileBodies)
    (checked : list string) :
  let available := Base.getAvailableOptions (FastAPI.FastAPIGenerator bodies) in
  let opts := promptOptions available checked in
  (forall k, opts !! k
             = if arrIncludes k checked then Some (VBool true) else None) /\
  default ∅ (orUndefined opts) = opts /\
  listsPackage "pytest" (uniqueRequirements opts) /\
  listsPackage "python-dotenv" (uniqueRequirements opts) /\
  (In "pytest>=7.4.3" (uniqueRequirements opts) <-> ~ In "tests" checked) /\
  (In "python-dotenv>=1.0.0" (uniqueRequirements opts)
   <-> ~ In "envFiles" checked) /\
  (forall o, In ["tests"; "test_main.py"] (conditionalPaths opts o)
             <-> In "tests" checked) /\
  (forall o, In [".env.example"] (conditionalPaths opts o)
             <-> In "envFiles" checked) /\
  (forall checked' pkg,
     incl checked checked' ->
     listsPackage pkg (uniqueRequirements opts) ->
     listsPackage pkg (uniqueRequirements (promptOptions available checked'))).
Proof.
  intros available opts.
  assert (Ho : forall c, promptOptions available c = selected c) by reflexivity.
  unfold opts. rewrite Ho. clear opts.
  split; [intros k; apply selected_lookup|].
  split; [apply orUndefined_default|].
  split; [apply tests_packages; [apply selected_notDisabled|simpl; tauto]|].
  split; [apply envFiles_package, selected_notDisabled|].
  split; [|split; [|split; [|split]]].
  - rewrite uniqueRequirements_In. split.
    + intros [H|[(o & Ho' & He & Hl)|[(Hl & _)|(_ & _ & He)]]].
      * simpl in H. intuition discriminate.
      * exfalso. apply (pinned_not_declared o _ Ho' Hl). simpl. tauto.
      * simpl in Hl. intuition discriminate.
      * intros Hin. apply selected_enabled in Hin. congruence.
    + intros Hn. do 3 right. split; [simpl; tauto|].
      split; [apply selected_notDisabled|].
      destruct (enabledIn (selected checked) "tests") eqn:E; [|reflexivity].
      apply selected_enabled in E. contradiction.
  - rewrite uniqueRequirements_In. split.
    + intros [H|[(o & Ho' & He & Hl)|[(_ & _ & He)|(Hl & _)]]].
      * simpl in H. intuition discriminate.
      * exfalso. apply (pinned_not_declared o _ Ho' Hl). simpl. tauto.
      * intros Hin. apply selected_enabled in Hin. congruence.
      * simpl in Hl. intuition discriminate.
    + intros Hn. do 2 right. left. split; [simpl; tauto|].
      split; [apply selected_notDisabled|].
      destruct (enabledIn (selected checked) "envFiles") eqn:E; [|reflexivity].
      apply selected_enabled in E. contradiction.
  - intros o. rewrite <- selected_enabled. unfold enabledIn, conditionalPaths.
    split.
    + intros H. unfold formatterPaths in H.
      repeat (apply in_app_or in H; destruct H as [H|H]); split_block H.
    + intros H. do 5 (apply in_or_app; right). apply in_or_app; left.
      rewrite H. simpl. tauto.
  - intros o. rewrite <- selected_enabled. unfold enabledIn, conditionalPaths.
    split.
    + intros H. unfold formatterPaths in H.
      repeat (apply in_app_or in H; destruct H as [H|H]); split_block H.
    + intros H. do 6 (apply in_or_app; right). apply in_or_app; left.
      rewrite H. simpl. tauto.
  - intros checked' pkg Hincl.
    change (promptOptions available checked') with (selected checked').
    apply MoreExamples.manifest_monotone_for_selections.
    + intros k. rewrite selected_lookup.
      destruct (arrIncludes k checked'); discriminate.
    + intros k Hk. apply selected_enabled. apply Hincl.
      now apply selected_enabled.
Qed.

End PromptFacts.

(** ** The command *)
Module CliFacts.
Import Js Types Fs Base Registry Utils Prompts Cli.

Lemma generate_refuses g options w :
  is_Some (target w) \/ templates w !! templateDir g = None ->
  exists e, generate g options w = (Err e, w).
Proof.
  intros H. destruct (templates w !! templateDir g) as [t|] eqn:Et.
  - destruct H as [H|H]; [|discriminate].
    unfold generate, bind at 1 2, getTemplatePath, templateExists, targetExists.
    rewrite bool_decide_eq_true_2 by (rewrite Et; eauto). simpl.
    unfold bind at 1. rewrite bool_decide_eq_true_2 by exact H. eauto.
  - rewrite (GenerateFacts.generate_missing_template g options w Et). eauto.
Qed.

Lemma action_name initialProjectName typed n :
  match initialProjectName with
  | Some i => if isEmpty i then promptProjectName None typed else Some i
  | None => promptProjectName None typed
  end = Some n ->
  (initialProjectName = Some n /\ n <> EmptyString) \/
  (validateProjectName n = true /\ In n typed).
Proof.
  assert (Hp : promptProjectName None typed = Some n ->
               validateProjectName n = true /\ In n typed).
  { intros H. destruct (PromptFacts.find_accepted _ _ H) as (H1 & H2 & _).
    auto. }
  destruct initialProjectName as [i|]; [|now right; apply Hp].
  destruct i as [|c i]; simpl; [now right; apply Hp|].
  intros [= <-]. left. split; [reflexivity|discriminate].
Qed.

(** X17.  The command reports success only when the pair chosen has a
    generator, its template is installed, nothing was at the target path,
    and [generate] succeeded for the project name with the target path
    equal to it; the name is the argument of the command line, taken as
    it is when it is not empty, or a name typed at the prompt that
    [validateProjectName] accepts.  When the pair has no generator, or the
    template is missing, or something is at the target path, the command
    does not report success and leaves the file system as it was. *)
Theorem command_outcomes (generators : gmap string GeneratorConstructor)
    (initialProjectName : option string) (a : Answers) (w : world) :
  (forall w',
     action generators initialProjectName a w = (Scaffolded, w') ->
     exists name g options,
       ((initialProjectName = Some name /\ name <> EmptyString) \/
        (validateProjectName name = true /\ In name (typedNames a))) /\
       getGenerator generators (chosenLanguage a) (chosenFramework a) = Ok g /\
       generate g {| Types.projectName := name; targetPath := name;
                     Types.options := options |} w = (Ok tt, w') /\
       default ∅ options
       = promptOptions (getAvailableOptions g) (checkedOptions a) /\
       target w = None /\
       is_Some (templates w !! templateDir g)) /\
  (hasGenerator generators (chosenLanguage a) (chosenFramework a) = false \/
   is_Some (target w) \/
   (forall g, getGenerator generators (chosenLanguage a) (chosenFramework a)
              = Ok g -> templates w !! templateDir g = None) ->
   (action generators initialProjectName a w).1 <> Scaffolded /\
   (action generators initialProjectName a w).2 = w).
Proof.
  unfold action. split.
  - intros w' H.
    destruct (match initialProjectName with
              | Some n => if isEmpty n then promptProjectName None (typedNames a)
                          else Some n
              | None => promptProjectName None (typedNames a)
              end) as [name|] eqn:En; [|discriminate].
    apply action_name in En.
    destruct (hasGenerator generators (chosenLanguage a) (chosenFramework a));
      [|discriminate].
    cbn [negb] in H.
    destruct (getGenerator generators (chosenLanguage a) (chosenFramework a))
      as [g|e] eqn:Eg; [|discriminate].
    match type of H with
    | context [generate g ?o w] => destruct (generate g o w) as [[[]|e] w1] eqn:Er
    end; [|discriminate].
    injection H as <-.
    exists name, g. eexists. split; [exact En|]. split; [reflexivity|].
    split; [exact Er|]. split.
    + rewrite PromptFacts.orUndefined_default. unfold promptOptions.
      destruct (getAvailableOptions g); reflexivity.
    + destruct (target w) as [t|] eqn:Et.
      * match type of Er with
        | generate g ?o w = _ =>
            destruct (generate_refuses g o w (or_introl (ex_intro _ t Et)))
              as [e He]
        end.
        rewrite He in Er. discriminate.
      * split; [reflexivity|].
        destruct (templates w !! templateDir g) eqn:Etp; [eauto|].
        match type of Er with
        | generate g ?o w = _ =>
            destruct (generate_refuses g o w (or_intror Etp)) as [e He]
        end.
        rewrite He in Er. discriminate.
  - intros H.
    destruct (match initialProjectName with
              | Some n => if isEmpty n then promptProjectName None (typedNames a)
                          else Some n
              | None => promptProjectName None (typedNames a)
              end) as [name|]; [|split; [discriminate|reflexivity]].
    destruct (hasGenerator generators (chosenLanguage a) (chosenFramework a))
      eqn:Eh; [|split; [discriminate|reflexivity]].
    cbn [negb].
    destruct (getGenerator generators (chosenLanguage a) (chosenFramework a))
      as [g|e] eqn:Eg; [|split; [discriminate|reflexivity]].
    assert (Hr : is_Some (target w) \/ templates w !! templateDir g = None).
    { destruct H as [H|[H|H]]; [discriminate|now left|right; now apply H]. }
    match goal with
    | |- context [generate g ?o w] =>
        destruct (generate_refuses g o w Hr) as [e ->]
    end.
    split; [discriminate|reflexivity].
Qed.

End CliFacts.

(** ** The FastAPI generator succeeds on a template that fits *)
Module TotalFacts.
Import Js Types Fs Base Effects FastAPI Fits FsFacts RunFacts.
Local Open Scope fs_scope.

Lemma statAt_dir x p es :
  statAt (x :: p) (NDir es) =
  match entry x es with Some m => statAt p m | None => None end.
Proof. unfold statAt. simpl. now destruct (entry x es). Qed.

Lemma statAt_root_dir n : statAt [] n = Some SDir -> exists es, n = NDir es.
Proof. destruct n; try discriminate. eauto. Qed.

Lemma isPrefix_refl d : isPrefix d d = true.
Proof.
  induction d as [|x d IH]; [reflexivity|].
  simpl. now rewrite String.eqb_refl.
Qed.

(** *** Writing a file *)

Lemma updateFile_stat upd q :
  forall here n n',
    updateFile upd here q n = Ok n' ->
    forall p, p <> q -> statAt p n' = statAt p n.
Proof.
  induction q as [|x q IH]; intros here n n' H p Hp.
  - destruct n as [f0|es|]; simpl in H; try discriminate.
    destruct (upd (Some f0)); simpl in H; [|discriminate].
    injection H as <-. destruct p; [congruence|reflexivity].
  - destruct n as [f0|es|]; simpl in H; try discriminate.
    destruct (entry x es) as [m|] eqn:E.
    + destruct (updateFile upd (here ++ [x]) q m) as [m'|e] eqn:Em;
        simpl in H; [|discriminate].
      injection H as <-. destruct p as [|y p]; [reflexivity|].
      rewrite !statAt_dir. destruct (String.eqb_spec y x) as [->|Hne].
      * rewrite entry_setEntry_same, E. simpl.
        apply (IH _ _ _ Em). congruence.
      * now rewrite entry_setEntry_other.
    + destruct q as [|z q]; [|discriminate].
      destruct (upd None) as [f|e]; simpl in H; [|discriminate].
      injection H as <-. destruct p as [|y p]; [reflexivity|].
      rewrite !statAt_dir. destruct (String.eqb_spec y x) as [->|Hne].
      * rewrite entry_snoc_same, E by exact E.
        destruct p; [congruence|reflexivity].
      * now rewrite entry_snoc_other.
Qed.

Lemma updateFile_ok upd x d :
  gentle upd ->
  forall here n,
    statAt d n = Some SDir -> freeForFile n (d ++ [x]) = true ->
    exists n', updateFile upd here (d ++ [x]) n = Ok n' /\
               statAt (d ++ [x]) n' = Some (SFile true true).
Proof.
  intros Hupd. induction d as [|y d IH]; intros here n Hd Hf.
  - apply statAt_root_dir in Hd. destruct Hd as [es ->].
    unfold freeForFile in Hf. simpl in *. rewrite statAt_dir in *.
    destruct (entry x es) as [m|] eqn:E.
    + destruct m as [f0|es'|]; simpl in Hf; try discriminate.
      simpl. destruct (Hupd (Some f0) Hf) as (f' & -> & Hr). simpl.
      eexists. split; [reflexivity|].
      rewrite statAt_dir, entry_setEntry_same, E.
      unfold rewritable in Hr. apply andb_true_iff in Hr.
      destruct Hr as [Hr1 Hr2]. unfold statAt. simpl.
      now rewrite Hr1, Hr2.
    + destruct (Hupd None I) as (f' & -> & Hr). simpl.
      eexists. split; [reflexivity|].
      rewrite statAt_dir, entry_snoc_same by exact E.
      unfold rewritable in Hr. apply andb_true_iff in Hr.
      destruct Hr as [Hr1 Hr2]. unfold statAt. simpl.
      now rewrite Hr1, Hr2.
  - destruct n as [f0|es|]; try discriminate.
    unfold freeForFile in Hf. simpl app in *. rewrite statAt_dir in *.
    cbn [updateFile].
    destruct (entry y es) as [m|] eqn:E; [|discriminate].
    destruct (IH (here ++ [y]) m Hd Hf) as (m' & Hm & Hs).
    rewrite Hm. simpl. eexists. split; [reflexivity|].
    now rewrite statAt_dir, entry_setEntry_same, E.
Qed.

Lemma gentle_writeUpd p c : gentle (writeUpd false p c).
Proof.
  intros [f|] H; simpl; [|eauto].
  unfold rewritable in H. apply andb_true_iff in H. destruct H as [Hr ->].
  eexists. split; [reflexivity|]. unfold rewritable. simpl. now rewrite Hr.
Qed.

Lemma gentle_appendUpd p c : gentle (appendUpd false p c).
Proof.
  intros [f|] H; simpl; [|eauto].
  unfold rewritable in H. apply andb_true_iff in H. destruct H as [Hr ->].
  eexists. split; [reflexivity|]. unfold rewritable. simpl. now rewrite Hr.
Qed.

(** *** Making a directory *)

Lemma freeForDir_empty q : freeForDir (NDir []) q = true.
Proof. destruct q; reflexivity. Qed.

Lemma ensureDirAt_ok rf d :
  (forall r, rf r = false) ->
  forall here n,
    Forall (fun q => freeForDir n q = true) (prefixes d) ->
    (ensureDirAt rf here d n).1 = None /\
    forall p, statAt p (ensureDirAt rf here d n).2 =
              if isPrefix p d then Some SDir else statAt p n.
Proof.
  intros Hrf. induction d as [|x d IH]; intros here n H.
  - inversion H as [|? ? H0 _]; subst.
    unfold freeForDir in H0. destruct n as [f|es|]; try discriminate.
    split; [reflexivity|].
    intros [|y p]; reflexivity.
  - simpl in H. inversion H as [|? ? H0 Hrest]; subst.
    unfold freeForDir in H0. destruct n as [f|es|]; try discriminate.
    cbn [ensureDirAt].
    destruct (entry x es) as [m|] eqn:E.
    + assert (Hm : Forall (fun q => freeForDir m q = true) (prefixes d)).
      { apply List.Forall_forall. intros q Hq.
        rewrite List.Forall_forall in Hrest.
        specialize (Hrest (x :: q) (in_map _ _ _ Hq)).
        unfold freeForDir in *. now rewrite statAt_dir, E in Hrest. }
      destruct (IH (here ++ [x]) m Hm) as (E1 & Hs). cbn [fst snd].
      split; [exact E1|].
      intros [|y p]; [reflexivity|].
      rewrite !statAt_dir. cbn [isPrefix].
      destruct (String.eqb_spec y x) as [->|Hne].
      * rewrite entry_setEntry_same, E. simpl. apply Hs.
      * now rewrite entry_setEntry_other.
    + assert (Hm : Forall (fun q => freeForDir (NDir []) q = true) (prefixes d))
        by (apply List.Forall_forall; intros; apply freeForDir_empty).
      rewrite Hrf.
      destruct (IH (here ++ [x]) (NDir []) Hm) as (E1 & Hs). cbn [fst snd].
      split; [exact E1|].
      intros [|y p]; [reflexivity|].
      rewrite !statAt_dir. cbn [isPrefix].
      destruct (String.eqb_spec y x) as [->|Hne].
      * rewrite entry_snoc_same, E by exact E. simpl. rewrite Hs.
        destruct (isPrefix p d) eqn:Ep; [reflexivity|].
        destruct p; [discriminate Ep|reflexivity].
      * now rewrite entry_snoc_other.
Qed.

(** *** The paths of the generator *)

Lemma files_are_not_dirs p : In p generatedFiles -> In p generatedDirs -> False.
Proof.
  intros Hf Hd. unfold generatedFiles in Hf. unfold generatedDirs in Hd.
  simpl in Hf, Hd.
  repeat (destruct Hf as [<-|Hf]; [intuition discriminate|]). exact Hf.
Qed.

Lemma files_below_no_dir p d :
  In p generatedFiles -> In d generatedDirs -> isPrefix p d = false.
Proof.
  intros Hf Hd. unfold generatedFiles in Hf. unfold generatedDirs in Hd.
  simpl in Hf, Hd.
  repeat (destruct Hd as [<-|Hd];
          [repeat (destruct Hf as [<-|Hf]; [reflexivity|]); destruct Hf|]).
  destruct Hd.
Qed.

Lemma fitsWith_mono K K' t : incl K K' -> fitsWith K' t -> fitsWith K t.
Proof.
  intros Hi (H1 & H2 & H3). split; [|split; assumption].
  rewrite List.Forall_forall in *. auto.
Qed.

Lemma fits_fitsWith t : fits t = true -> fitsWith requiredDirs t.
Proof.
  unfold fits, fitsWith. rewrite !andb_true_iff, !forallb_forall.
  rewrite !List.Forall_forall. tauto.
Qed.

(** *** Steps that succeed *)

Lemma succeeds_bind {A B} (m : M A) (k : A -> M B) I J L :
  succeeds m I J -> (forall a, succeeds (k a) J L) -> succeeds (bind m k) I L.
Proof.
  intros Hm Hk w t Hq Ht HI.
  destruct (Hm w t Hq Ht HI) as (a & w1 & t1 & E1 & Hq1 & Ht1 & HJ).
  destruct (Hk a w1 t1 Hq1 Ht1 HJ) as (b & w2 & t2 & E2 & Hq2 & Ht2 & HL).
  exists b, w2, t2. unfold bind. rewrite E1. auto.
Qed.

Lemma succeeds_post {A} (m : M A) I J J' :
  (forall t, J t -> J' t) -> succeeds m I J -> succeeds m I J'.
Proof.
  intros HJ Hm w t Hq Ht HI.
  destruct (Hm w t Hq Ht HI) as (a & w1 & t1 & E1 & Hq1 & Ht1 & H).
  exists a, w1, t1. auto.
Qed.

Lemma succeeds_ret {A} (a : A) I : succeeds (ret a) I I.
Proof. intros w t Hq Ht HI. exists a, w, t. auto. Qed.

Lemma succeeds_when b m I : succeeds m I I -> succeeds (when b m) I I.
Proof. intros H. destruct b; [exact H|apply succeeds_ret]. Qed.

Lemma succeeds_update upd K d x c :
  gentle upd ->
  In (d ++ [x]) generatedFiles -> In d K ->
  succeeds (bind (onTarget (d ++ [x]) (updateFile upd [] (d ++ [x])))
                 (fun _ w => (Ok tt, logWrite (d ++ [x]) c w)))
           (fitsWith K) (fitsWith K).
Proof.
  intros Hupd Hp Hd w t Hq Ht (HK & HF & HD).
  rewrite List.Forall_forall in HK, HF, HD.
  assert (Hdir : statAt d t = Some SDir).
  { specialize (HK d Hd). unfold isDirAt in HK.
    destruct (statAt d t) as [[| |]|]; try discriminate. reflexivity. }
  destruct (updateFile_ok upd x d Hupd [] t Hdir (HF _ Hp)) as (t' & Hu & Hs).
  exists tt, (logWrite (d ++ [x]) c (setTarget (Some t') w)), t'.
  split; [|split; [exact Hq|split; [reflexivity|]]].
  - unfold bind, onTarget. now rewrite Ht, Hu.
  - pose proof (updateFile_stat _ _ _ _ _ Hu) as Hframe.
    split; [|split]; apply List.Forall_forall; intros q Hq'.
    + unfold isDirAt. rewrite Hframe; [exact (HK q Hq')|].
      intros ->. specialize (HK _ Hq'). specialize (HF _ Hp).
      unfold isDirAt, freeForFile in *.
      destruct (statAt (d ++ [x]) t) as [[| |]|]; discriminate.
    + unfold freeForFile. destruct (list_eq_dec q (d ++ [x])) as [->|Hne].
      * now rewrite Hs.
      * rewrite Hframe by exact Hne. exact (HF q Hq').
    + unfold freeForDir. rewrite Hframe; [exact (HD q Hq')|].
      intros ->. exact (files_are_not_dirs _ Hp Hq').
Qed.

Lemma succeeds_writeFile K d x c :
  In (d ++ [x]) generatedFiles -> In d K ->
  succeeds (writeFile (d ++ [x]) c) (fitsWith K) (fitsWith K).
Proof.
  intros Hp Hd w t Hq. unfold writeFile. rewrite (Hq (Create (d ++ [x]))).
  exact (succeeds_update _ K d x c (gentle_writeUpd _ _) Hp Hd w t Hq).
Qed.

Lemma succeeds_appendFile K d x c :
  In (d ++ [x]) generatedFiles -> In d K ->
  succeeds (appendFile (d ++ [x]) c) (fitsWith K) (fitsWith K).
Proof.
  intros Hp Hd w t Hq. unfold appendFile. rewrite (Hq (Create (d ++ [x]))).
  exact (succeeds_update _ K d x c (gentle_appendUpd _ _) Hp Hd w t Hq).
Qed.

Lemma succeeds_ensureDir K d :
  In d generatedDirs ->
  Forall (fun q => In q K \/ In q generatedDirs) (prefixes d) ->
  succeeds (ensureDir d) (fitsWith K) (fitsWith (d :: K)).
Proof.
  intros Hd Hpre w t Hq Ht (HK & HF & HD).
  rewrite List.Forall_forall in HK, HF, HD, Hpre.
  assert (Hfree : Forall (fun q => freeForDir t q = true) (prefixes d)).
  { apply List.Forall_forall. intros q Hq'.
    destruct (Hpre q Hq') as [H|H]; [|exact (HD q H)].
    specialize (HK q H). unfold isDirAt, freeForDir in *.
    destruct (statAt q t) as [[| |]|]; try discriminate; reflexivity. }
  destruct (ensureDirAt_ok (refuses w) d Hq [] t Hfree) as (He & Hs).
  exists tt, (setTarget (Some (ensureDirAt (refuses w) [] d t).2) w),
         (ensureDirAt (refuses w) [] d t).2.
  split; [|split; [exact Hq|split; [reflexivity|]]].
  - unfold ensureDir. rewrite Ht. cbv zeta. now rewrite He.
  - split; [|split]; apply List.Forall_forall; intros q Hq'.
    + unfold isDirAt. rewrite Hs. destruct Hq' as [<-|Hq'].
      * now rewrite isPrefix_refl.
      * destruct (isPrefix q d); [reflexivity|exact (HK q Hq')].
    + unfold freeForFile. rewrite Hs, (files_below_no_dir q d Hq' Hd).
      exact (HF q Hq').
    + unfold freeForDir. rewrite Hs.
      destruct (isPrefix q d); [reflexivity|exact (HD q Hq')].
Qed.

Lemma succeeds_writeFile_at K p c :
  In p generatedFiles -> In (removelast p) K ->
  succeeds (writeFile p c) (fitsWith K) (fitsWith K).
Proof.
  intros Hp Hd.
  assert (Hne : p <> []).
  { intros ->. unfold generatedFiles in Hp. simpl in Hp.
    intuition discriminate. }
  pose proof (app_removelast_last EmptyString Hne) as E.
  set (d := removelast p) in *. set (x := List.last p EmptyString) in *.
  clearbody d x. subst p. now apply succeeds_writeFile.
Qed.

Ltac pick_in :=
  unfold requiredDirs, generatedFiles, generatedDirs; simpl;
  solve [repeat first [left; reflexivity | right]].

Ltac prefixes_ok :=
  simpl; repeat (apply List.Forall_cons; [first [left; pick_in | right; pick_in]|]);
  apply List.Forall_nil.

Ltac step :=
  first
    [ apply succeeds_writeFile_at; [pick_in | pick_in]
    | eapply succeeds_bind;
        [apply succeeds_writeFile_at; [pick_in | pick_in] | intros _]
    | eapply succeeds_bind;
        [apply succeeds_ensureDir; [pick_in | prefixes_ok] | intros _] ].

Ltac routine :=
  unfold ready; cbv zeta; (eapply succeeds_post; [|repeat step]);
  intros t; apply fitsWith_mono; intros q Hq;
  unfold requiredDirs in *; simpl in Hq |- *; tauto.

Section Routines.
Variable bodies : FileBodies.

Lemma ok_generateRequirementsTxt opts :
  succeeds (generateRequirementsTxt opts) ready ready.
Proof. unfold generateRequirementsTxt. routine. Qed.

Lemma ok_generateORMFiles n : succeeds (generateORMFiles bodies n) ready ready.
Proof. unfold generateORMFiles. routine. Qed.

Lemma ok_generateMigrationFiles n :
  succeeds (generateMigrationFiles bodies n) ready ready.
Proof. unfold generateMigrationFiles. routine. Qed.

Lemma ok_generateDockerFiles n :
  succeeds (generateDockerFiles bodies n) ready ready.
Proof. unfold generateDockerFiles. routine. Qed.

Lemma ok_generateDockerCompose n opts :
  succeeds (generateDockerCompose bodies n opts) ready ready.
Proof. unfold generateDockerCompose. routine. Qed.

Lemma ok_generateTestFiles n :
  succeeds (generateTestFiles bodies n) ready ready.
Proof. unfold generateTestFiles. routine. Qed.

Lemma ok_generateEnvFiles : succeeds (generateEnvFiles bodies) ready ready.
Proof. unfold generateEnvFiles. routine. Qed.

Lemma ok_generateProdConfig : succeeds (generateProdConfig bodies) ready ready.
Proof. unfold generateProdConfig. routine. Qed.

Lemma ok_generateDevConfig : succeeds (generateDevConfig bodies) ready ready.
Proof. unfold generateDevConfig. routine. Qed.

Lemma ok_generateLinterConfig :
  succeeds (generateLinterConfig bodies) ready ready.
Proof. unfold generateLinterConfig. routine. Qed.

Lemma ok_generatePreCommitConfig :
  succeeds (generatePreCommitConfig bodies) ready ready.
Proof. unfold generatePreCommitConfig. routine. Qed.

Lemma ok_generateLoggingConfig :
  succeeds (generateLoggingConfig bodies) ready ready.
Proof. unfold generateLoggingConfig. routine. Qed.

Lemma ok_generateREADME n opts :
  succeeds (generateREADME bodies n opts) ready ready.
Proof. unfold generateREADME. routine. Qed.

Lemma ok_generateMainPy n opts :
  succeeds (generateMainPy bodies n opts) ready ready.
Proof. unfold generateMainPy. routine. Qed.

Lemma ok_generateConfigPy n opts :
  succeeds (generateConfigPy bodies n opts) ready ready.
Proof. unfold generateConfigPy. routine. Qed.

Lemma ok_generateFormatterConfig :
  succeeds (generateFormatterConfig bodies) ready ready.
Proof.
  unfold ready. intros w t Hq Ht HI.
  assert (Happend : exists a w' t',
            appendFile pyprojectToml (blackConfig bodies) w = (Ok a, w') /\
            quiet w' /\ target w' = Some t' /\ fitsWith requiredDirs t').
  { refine (succeeds_appendFile requiredDirs [] "pyproject.toml"
              (blackConfig bodies) _ _ w t Hq Ht HI); pick_in. }
  destruct HI as (HK & HF & HD).
  rewrite List.Forall_forall in HF.
  assert (Hp : freeForFile t pyprojectToml = true) by (apply HF; pick_in).
  unfold generateFormatterConfig. cbv zeta.
  change ["pyproject.toml"] with pyprojectToml.
  unfold bind at 1, pathExists. rewrite Ht.
  unfold freeForFile, statAt in Hp.
  destruct (nodeAt pyprojectToml t) as [[f|es|]|] eqn:En; try discriminate.
  - rewrite bool_decide_eq_true_2 by eauto.
    unfold bind at 1, readFile. rewrite Ht, En.
    simpl in Hp. apply andb_true_iff in Hp. destruct Hp as [Hr Hw]. rewrite Hr.
    destruct (includes "[tool.black]" (content f)); simpl.
    + exists tt, w, t. split; [reflexivity|]. split; [exact Hq|].
      split; [exact Ht|].
      split; [exact HK|]. split; [now apply List.Forall_forall|exact HD].
    + destruct Happend as ([] & w' & t' & E & H0 & H1 & H2).
      exists tt, w', t'. auto.
  - rewrite bool_decide_eq_false_2 by (intros [? ?]; discriminate).
    unfold bind at 1, ret. simpl.
    destruct Happend as ([] & w' & t' & E & H0 & H1 & H2).
    exists tt, w', t'. auto.
Qed.

Lemma ok_replacePlaceholders repl :
  succeeds (replacePlaceholders repl) ready (fun _ => True).
Proof.
  unfold ready. intros w t Hq Ht (HK & _). inversion HK as [|? ? H0 _]; subst.
  unfold isDirAt in H0. destruct t as [f|es|]; try discriminate.
  rewrite (SubstitutionFacts.replacePlaceholders_listed repl w es
             (fun q => Hq (Readdir q)) Ht).
  eexists tt, _, _. split; [reflexivity|].
  split; [exact Hq|]. split; [reflexivity|exact I].
Qed.

(** On a target tree that fits, every routine goes through, whatever the
    options. *)
Lemma ok_generateOptionalFiles options :
  succeeds (generateOptionalFiles bodies options) ready (fun _ => True).
Proof.
  unfold generateOptionalFiles. cbv zeta.
  eapply succeeds_bind; [apply ok_generateRequirementsTxt|intros _].
  eapply succeeds_bind; [apply succeeds_when, ok_generateORMFiles|intros _].
  eapply succeeds_bind;
    [apply succeeds_when, ok_generateMigrationFiles|intros _].
  eapply succeeds_bind; [apply succeeds_when, ok_generateDockerFiles|intros _].
  eapply succeeds_bind;
    [apply succeeds_when, ok_generateDockerCompose|intros _].
  eapply succeeds_bind; [apply succeeds_when, ok_generateTestFiles|intros _].
  eapply succeeds_bind; [apply succeeds_when, ok_generateEnvFiles|intros _].
  eapply succeeds_bind; [apply succeeds_when, ok_generateProdConfig|intros _].
  eapply succeeds_bind; [apply succeeds_when, ok_generateDevConfig|intros _].
  eapply succeeds_bind; [apply succeeds_when, ok_generateLinterConfig|intros _].
  eapply succeeds_bind;
    [apply succeeds_when, ok_generateFormatterConfig|intros _].
  eapply succeeds_bind;
    [apply succeeds_when, ok_generatePreCommitConfig|intros _].
  eapply succeeds_bind;
    [apply succeeds_when, ok_generateLoggingConfig|intros _].
  eapply succeeds_bind; [apply succeeds_when, succeeds_ret|intros _].
  eapply succeeds_bind; [apply succeeds_when, ok_generateREADME|intros _].
  eapply succeeds_bind; [apply ok_generateMainPy|intros _].
  eapply succeeds_bind; [apply ok_generateConfigPy|intros _].
  apply ok_replacePlaceholders.
Qed.

End Routines.

(** X18.  When the file system refuses nothing, on a target tree that
    has the directories [app] and [app/core] and in which none of the
    names the generator uses is taken by something of the wrong kind, or
    by a file that cannot be read and written, [generateOptionalFiles] of
    the FastAPI generator succeeds for every option map: it writes the
    files of the options, in the order of the steps, and runs the
    placeholder pass. *)
Theorem optional_files_succeed (bodies : FileBodies)
    (options : GeneratorOptions) (w : world) (t : node) :
  quiet w -> target w = Some t -> fits t = true ->
  exists w',
    generateOptionalFiles bodies options w = (Ok tt, w') /\
    andThen (wrote (conditionalPaths (default ∅ (Types.options options))))
            (passed (replacements (Types.projectName options))) w w'.
Proof.
  intros Hq Ht Hf.
  destruct (ok_generateOptionalFiles bodies options w t Hq Ht
              (fits_fitsWith t Hf))
    as ([] & w' & t' & E & _).
  exists w'. split; [exact E|].
  exact (FastAPIFacts.post_generateOptionalFiles bodies options w tt w' E).
Qed.

Lemma optional_files_succeed_witness :
  exists w',
    generateOptionalFiles Samples.demoBodies
      (Samples.request "demo" (Some Samples.optsOrmTests)) Samples.skeletonWorld
    = (Ok tt, w') /\
    andThen (wrote (conditionalPaths Samples.optsOrmTests))
            (passed (replacements "demo")) Samples.skeletonWorld w'.
Proof.
  exact (optional_files_succeed Samples.demoBodies
           (Samples.request "demo" (Some Samples.optsOrmTests))
           Samples.skeletonWorld _ (fun _ => eq_refl) eq_refl eq_refl).
Defined.




End TotalFacts.

(** ** The manifest at the end of the run *)
Module ManifestFileFacts.
Import Js Types Fs Base Effects Shape FastAPI Requirements RequirementsAux
       RequirementsFacts StringFacts FsFacts RunFacts FastAPIFacts.
Local Open Scope fs_scope.

Lemma writeFile_at p c w w1 :
  writeFile p c w = (Ok tt, w1) ->
  exists f', fileAtW p w1 = Some f' /\ content f' = c.
Proof.
  intros H. apply writeFile_ok in H.
  destruct H as (t & t' & Ht & Hop & ->).
  unfold fileAtW. simpl.
  destruct (FormatterFacts.updateFile_at _ _ _ _ _ Hop) as (f' & Hf & Hu).
  exists f'. split; [exact Hf|].
  unfold writeUpd in Hu. destruct (fileAt p t) as [f0|].
  - destruct (writable f0); [|discriminate]. now injection Hu as <-.
  - destruct (refuses w (Create p)); [discriminate|]. now injection Hu as <-.
Qed.

(** What the steps after the manifest do: they write the files of
    [conditionalPaths] but the first, then the pass runs. *)
Lemma post_afterManifest bodies (options : GeneratorOptions) :
  post (afterManifest bodies options)
       (andThen
          (wrote (fun o =>
                    tl (conditionalPaths (default ∅ (Types.options options)) o)))
          (passed (replacements (Types.projectName options)))).
Proof.
  unfold afterManifest. cbv zeta.
  eapply post_bind_static;
    [apply post_when, post_generateORMFiles | not_pyproject | intros _ |].
  eapply post_bind_static;
    [apply post_when, post_generateMigrationFiles | not_pyproject | intros _ |].
  eapply post_bind_static;
    [apply post_when, post_generateDockerFiles | not_pyproject | intros _ |].
  eapply post_bind_static;
    [apply post_when, post_generateDockerCompose | not_pyproject | intros _ |].
  eapply post_bind_static;
    [apply post_when, post_generateTestFiles | not_pyproject | intros _ |].
  eapply post_bind_static;
    [apply post_when, post_generateEnvFiles | not_pyproject | intros _ |].
  eapply post_bind_static;
    [apply post_when, post_generateProdConfig | not_pyproject | intros _ |].
  eapply post_bind_static;
    [apply post_when, post_generateDevConfig | not_pyproject | intros _ |].
  eapply post_bind_static;
    [apply post_when, post_generateLinterConfig | not_pyproject | intros _ |].
  eapply post_bind_dynamic;
    [apply post_when_dynamic, post_generateFormatterConfig | intros _ |].
  eapply post_bind_static;
    [apply post_when, post_generatePreCommitConfig | not_pyproject | intros _ |].
  eapply post_bind_static;
    [apply post_when, post_generateLoggingConfig | not_pyproject | intros _ |].
  eapply post_bind_static;
    [apply post_when, post_generateMonitoring | not_pyproject | intros _ |].
  eapply post_bind_static;
    [apply post_when, post_generateREADME | not_pyproject | intros _ |].
  eapply post_bind_static;
    [apply post_generateMainPy | not_pyproject | intros _ |].
  eapply post_bind_end;
    [apply post_generateConfigPy | intros _; apply post_replacePlaceholders].
  all: reflexivity.
Qed.

Ltac no_brace :=
  unfold noOpenBrace; simpl; repeat (constructor; [discriminate|]); constructor.

Lemma noOpenBrace_append a b :
  noOpenBrace a -> noOpenBrace b -> noOpenBrace (a +:+ b).
Proof.
  unfold noOpenBrace. rewrite chars_append. intros Ha Hb.
  apply List.Forall_app. now split.
Qed.

Lemma noOpenBrace_join sep lines :
  noOpenBrace sep -> Forall noOpenBrace lines -> noOpenBrace (join sep lines).
Proof.
  intros Hs. induction 1 as [|x l Hx Hl IH]; [constructor|].
  destruct l as [|y l]; [exact Hx|].
  change (join sep (x :: y :: l)) with (x +:+ sep +:+ join sep (y :: l)).
  now repeat apply noOpenBrace_append.
Qed.

Lemma line_noOpenBrace opts line :
  In line (uniqueRequirements opts) -> noOpenBrace line.
Proof.
  intros H. apply uniqueRequirements_In in H.
  destruct H as [H|[(o & Ho & _ & Hl)|[(Hl & _)|(Hl & _)]]].
  - simpl in H. destruct H as [<-|[<-|[<-|[]]]]; no_brace.
  - unfold PythonOptions.getPythonOptions, PythonOptions.PYTHON_OPTIONS in Ho.
    simpl in Ho.
    repeat (destruct Ho as [<-|Ho];
            [simpl in Hl;
             repeat (destruct Hl as [<-|Hl]; [no_brace|]); destruct Hl|]).
    destruct Ho.
  - simpl in Hl. destruct Hl as [<-|[]]; no_brace.
  - simpl in Hl. destruct Hl as [<-|[<-|[<-|[]]]]; no_brace.
Qed.

Lemma requirementsTxt_noOpenBrace opts : noOpenBrace (requirementsTxt opts).
Proof.
  unfold requirementsTxt. apply noOpenBrace_append; [|no_brace].
  apply noOpenBrace_join; [no_brace|].
  apply List.Forall_forall. intros line. apply line_noOpenBrace.
Qed.

Lemma manifest_not_rewritten opts o :
  ~ In ["requirements.txt"] (tl (conditionalPaths opts o)).
Proof.
  unfold conditionalPaths, formatterPaths. cbn [tl app]. intros H.
  repeat (apply in_app_or in H; destruct H as [H|H]);
    repeat match type of H with
           | In _ (if ?b then _ else _) => destruct b
           end;
    simpl in H; intuition discriminate.
Qed.

(** X20.  When [generateOptionalFiles] of the FastAPI generator succeeds,
    [requirements.txt] holds at the end of the run the text of the
    manifest for the options: no later step writes the file and the
    placeholder pass finds nothing to replace in it. *)
Theorem manifest_survives_the_run (bodies : FileBodies)
    (options : GeneratorOptions) (w w' : world) :
  generateOptionalFiles bodies options w = (Ok tt, w') ->
  exists f,
    fileAtW ["requirements.txt"] w' = Some f /\
    content f = requirementsTxt (default ∅ (Types.options options)).
Proof.
  intros H. rewrite ExtendsFacts.generateOptionalFiles_unfold in H.
  apply bind_ok in H. destruct H as ([] & w1 & H1 & H2).
  apply writeFile_at in H1. destruct H1 as (f1 & Hf1 & Hc1).
  destruct (post_afterManifest bodies options _ _ _ H2)
    as (w2 & (_ & Hframe & _) & (es & Ht2 & Ht' & _)).
  assert (Hf2 : fileAtW ["requirements.txt"] w2 = Some f1).
  { rewrite Hframe; [exact Hf1|]. apply manifest_not_rewritten. }
  unfold fileAtW in Hf2 |- *. rewrite Ht2 in Hf2. rewrite Ht'.
  pose proof (PassFacts.replaceEntry_fileAt
                (replacements (Types.projectName options)) (NDir es) []
                ["requirements.txt"]) as E.
  unfold replaceEntry in E. rewrite E, Hf2. simpl. eexists. split; [reflexivity|].
  rewrite SubstituteFacts.rewriteFile_same; [exact Hc1|].
  apply SubstituteFacts.substitute_noOpen. rewrite Hc1.
  apply requirementsTxt_noOpenBrace.
Qed.

Lemma manifest_survives_the_run_witness :
  exists f,
    fileAtW ["requirements.txt"] Samples.demoRun.2 = Some f /\
    content f = requirementsTxt ∅.
Proof.
  refine (manifest_survives_the_run Samples.demoBodies
            (Samples.request "demo" None)
            (setTarget (Some (CopyAux.withoutHidden Samples.demoTemplate))
                       Samples.freshWorld)
            Samples.demoRun.2 _).
  vm_compute. reflexivity.
Defined.

End ManifestFileFacts.

(** ** A run is not undone *)
Module KeepsFacts.
Import Js Types Fs Base Effects FastAPI Keeps.
Local Open Scope fs_scope.

Ltac kept :=
  simpl; repeat split; try reflexivity; intros;
  try match goal with E : target _ = _ |- _ => rewrite E in * end;
  first [assumption | eexists; reflexivity].


Lemma keeps_throw {A} e : keeps (@throw A e).
Proof. intros w. kept. Qed.





















End KeepsFacts.

(** ** The files of a run are there at its end *)
Module LastingFacts.
Import Js Types Fs Base Effects FastAPI Lasting FsFacts PassFacts RunFacts.
Local Open Scope fs_scope.

Lemma lasting_refl w : lasting w w.
Proof.
  intros Hwf. split; [exact Hwf|]. split; [exists []; now rewrite app_nil_r|].
  intros p [H|H]; [exact H|].
  unfold pathsWrittenSince, writtenSince in H.
  rewrite drop_all in H. destruct H.
Qed.

Lemma lasting_trans w w1 w2 : lasting w w1 -> lasting w1 w2 -> lasting w w2.
Proof.
  intros H1 H2 Hwf. destruct (H1 Hwf) as (Hwf1 & (l1 & E1) & K1).
  destruct (H2 Hwf1) as (Hwf2 & (l2 & E2) & K2).
  split; [exact Hwf2|]. split; [exists (l1 ++ l2); now rewrite E2, E1, app_assoc|].
  intros p Hp. apply K2.
  unfold pathsWrittenSince in *.
  rewrite (MonotoneFacts.writtenSince_app w1 w2 l2 E2).
  rewrite (MonotoneFacts.writtenSince_app w w1 l1 E1) in K1.
  destruct Hp as [Hp|Hp]; [left; apply K1; now left|].
  rewrite (MonotoneFacts.writtenSince_app w w2 (l1 ++ l2)) in Hp
    by now rewrite E2, E1, app_assoc.
  rewrite map_app, in_app_iff in Hp.
  destruct Hp as [Hp|Hp]; [left; apply K1; now right|now right].
Qed.

Lemma post_lasting_bind {A B} (m : M A) (k : A -> M B) :
  post m lasting -> (forall a, post (k a) lasting) -> post (bind m k) lasting.
Proof.
  intros Hm Hk w b w' H. apply bind_ok in H.
  destruct H as (a & w1 & H1 & H2).
  exact (lasting_trans _ _ _ (Hm _ _ _ H1) (Hk a _ _ _ H2)).
Qed.

Lemma post_lasting_ret {A} (a : A) : post (ret a) lasting.
Proof. intros w x w' [= <- <-]. apply lasting_refl. Qed.

Lemma post_lasting_when b m : post m lasting -> post (when b m) lasting.
Proof. intros H. destruct b; [exact H|apply post_lasting_ret]. Qed.

Lemma post_lasting_if {A} (b : bool) (m1 m2 : M A) :
  post m1 lasting -> post m2 lasting -> post (if b then m1 else m2) lasting.
Proof. now destruct b. Qed.

Lemma wroteList_lasting touched w w' :
  wroteList touched w w' ->
  (forall p, In p touched -> is_Some (fileAtW p w')) ->
  lasting w w'.
Proof.
  intros ((l & El & Ml) & Hframe & Hwf) Hthere Hw.
  split; [exact (Hwf Hw)|]. split; [eauto|].
  intros p Hp. unfold pathsWrittenSince in Hp.
  rewrite (MonotoneFacts.writtenSince_app w w' l El), Ml in Hp.
  destruct (List.in_dec (List.list_eq_dec String.string_dec) p touched)
    as [Hin|Hout]; [now apply Hthere|].
  rewrite (Hframe p Hout). now destruct Hp.
Qed.

Lemma post_lasting_writeFile p c : post (writeFile p c) lasting.
Proof.
  intros w [] w' H. apply (wroteList_lasting [p]).
  - exact (post_writeFile p c _ _ _ H).
  - intros q [<-|[]].
    destruct (ManifestFileFacts.writeFile_at _ _ _ _ H) as (f & -> & _). eauto.
Qed.

Lemma post_lasting_appendFile p c : post (appendFile p c) lasting.
Proof.
  intros w [] w' H. apply (wroteList_lasting [p]).
  - exact (post_appendFile p c _ _ _ H).
  - intros q [<-|[]].
    destruct (FormatterFacts.appendFile_at _ _ _ _ H) as (f & -> & _). eauto.
Qed.

Lemma post_lasting_ensureDir p : post (ensureDir p) lasting.
Proof.
  intros w [] w' H. apply (wroteList_lasting []).
  - exact (post_ensureDir p _ _ _ H).
  - intros q [].
Qed.

Lemma post_lasting_pathExists p : post (pathExists p) lasting.
Proof. intros w b w' [= <- <-]. apply lasting_refl. Qed.

Lemma post_lasting_readFile p : post (readFile p) lasting.
Proof.
  intros w c w' H. apply readFile_ok in H. destruct H as [-> _].
  apply lasting_refl.
Qed.

Lemma replaceEntry_names repl pre es :
  map fst (dirEntries (rewriteIn repl pre (NDir es)).1) = map fst es.
Proof.
  induction es as [|[x m] es IH]; [reflexivity|].
  rewrite rewriteIn_cons. cbn [fst dirEntries map]. now rewrite IH.
Qed.

Lemma replaceEntry_wf repl m :
  forall pre, wf m -> wf (replaceEntry repl pre m).1.
Proof.
  induction m as [f| |es IH] using node_ind2; intros pre Hwf.
  - unfold replaceEntry, replaceInFile.
    now destruct (readable f && writable f).
  - exact I.
  - unfold replaceEntry. rewrite rewriteIn_isDir. apply wf_dir.
    rewrite replaceEntry_names. apply wf_dir in Hwf. destruct Hwf as [Hnd Hall].
    split; [exact Hnd|]. clear Hnd.
    induction es as [|[x m] es IHes]; [constructor|].
    inversion IH as [|? ? Hm Hes]; subst. simpl in Hm.
    inversion Hall as [|? ? Hwm Hall']; subst. simpl in Hwm.
    rewrite rewriteIn_cons. simpl. constructor.
    + simpl. now apply Hm.
    + now apply IHes.
Qed.

Lemma post_lasting_replacePlaceholders repl :
  post (replacePlaceholders repl) lasting.
Proof.
  intros w [] w' H Hwf.
  destruct (post_replacePlaceholders repl _ _ _ H) as (es & Ht & Ht' & Hl).
  unfold wfW, fileAtW, pathsWrittenSince in *.
  rewrite (MonotoneFacts.writtenSince_app w w' _ Hl).
  rewrite Ht in *. rewrite Ht'.
  split; [exact (replaceEntry_wf repl (NDir es) [] Hwf)|]. split; [eauto|].
  intros p Hp.
  pose proof (replaceEntry_fileAt repl (NDir es) [] p) as E.
  unfold replaceEntry in E. rewrite E.
  destruct Hp as [[f Hf]|Hp]; [rewrite Hf; simpl; eauto|].
  destruct (replaceEntry_written repl (NDir es) [] p Hwf Hp)
    as (p' & -> & f & Hf & _).
  simpl. rewrite Hf. simpl. eauto.
Qed.

Ltac lasting_auto :=
  repeat first
    [ apply post_lasting_writeFile | apply post_lasting_appendFile
    | apply post_lasting_ensureDir | apply post_lasting_pathExists
    | apply post_lasting_readFile | apply post_lasting_ret
    | apply post_lasting_replacePlaceholders
    | apply post_lasting_when | apply post_lasting_if
    | apply post_lasting_bind; [|intros ?] ].

Lemma post_lasting_fastapi bodies options :
  post (FastAPI.generateOptionalFiles bodies options) lasting.
Proof.
  unfold FastAPI.generateOptionalFiles, generateRequirementsTxt,
    generateORMFiles, generateMigrationFiles, generateDockerFiles,
    generateDockerCompose, generateTestFiles, generateEnvFiles,
    generateProdConfig, generateDevConfig, generateLinterConfig,
    generateFormatterConfig, generatePreCommitConfig, generateLoggingConfig,
    generateMonitoring, generateREADME, generateMainPy, generateConfigPy.
  cbv zeta. lasting_auto.
Qed.

(** X22.  When [generateOptionalFiles] of the FastAPI generator succeeds on
    a tree without repeated names, every file the run wrote is a regular
    file at the end, among them every file of the options selected; and
    no file that was there before has gone. *)
Theorem written_files_are_there (bodies : FileBodies)
    (options : GeneratorOptions) (w w' : world) :
  wfW w ->
  generateOptionalFiles bodies options w = (Ok tt, w') ->
  (forall p, In p (pathsWrittenSince w w') -> is_Some (fileAtW p w')) /\
  (forall p, In p (conditionalPaths (default ∅ (Types.options options))
                                    (fileAtW pyprojectToml w)) ->
             is_Some (fileAtW p w')) /\
  (forall p, is_Some (fileAtW p w) -> is_Some (fileAtW p w')) /\
  wfW w'.
Proof.
  intros Hwf H.
  destruct (post_lasting_fastapi bodies options _ _ _ H Hwf) as (Hwf' & _ & K).
  destruct (MonotoneFacts.pathsWritten_run _ _ _ _ H) as (w1 & es & _ & _ & E).
  split; [intros p Hp; apply K; now right|].
  split; [|split; [intros p Hp; apply K; now left|exact Hwf']].
  intros p Hp. apply K. right. rewrite E. apply in_app_iff. now left.
Qed.

Lemma written_files_are_there_witness :
  is_Some (fileAtW ["tests"; "test_main.py"]
             (generateOptionalFiles Samples.demoBodies
                (Samples.request "demo" (Some Samples.optsOrmTests))
                Samples.skeletonWorld).2).
Proof.
  refine (proj1 (proj2 (written_files_are_there Samples.demoBodies
    (Samples.request "demo" (Some Samples.optsOrmTests))
    Samples.skeletonWorld _ _ _)) ["tests"; "test_main.py"] _).
  - simpl. repeat split; repeat (constructor; [simpl; intuition discriminate|]);
      constructor.
  - vm_compute. reflexivity.
  - vm_compute. tauto.
Defined.

End LastingFacts.

(** ** The directory the generator does not make *)
Module DoomedFacts.
Import Js Types Fs Base Effects FastAPI Fits Doomed FsFacts RunFacts TotalFacts.
Local Open Scope fs_scope.

Lemma ensureDirAt_stat rf q :
  forall here n p,
    isPrefix p q = false ->
    statAt p (ensureDirAt rf here q n).2 = statAt p n.
Proof.
  induction q as [|x q IH]; intros here n p Hp.
  - destruct n as [f|es|]; reflexivity.
  - destruct n as [f|es|]; try reflexivity.
    destruct p as [|y p]; [discriminate Hp|]. cbn [isPrefix] in Hp.
    cbn [ensureDirAt].
    destruct (entry x es) as [m|] eqn:E.
    + cbn [snd]. rewrite !statAt_dir.
      destruct (String.eqb_spec y x) as [->|Hne].
      * rewrite entry_setEntry_same, E. simpl. now apply IH.
      * now rewrite entry_setEntry_other.
    + destruct (rf (Mkdir (here ++ [x]))); [reflexivity|].
      cbn [snd]. rewrite !statAt_dir.
      destruct (String.eqb_spec y x) as [->|Hne].
      * rewrite entry_snoc_same, E by exact E.
        rewrite IH by exact Hp. now destruct p.
      * now rewrite entry_snoc_other.
Qed.

Lemma updateFile_no_parent upd x d :
  forall here n,
    statAt d n = None -> exists e, updateFile upd here (d ++ [x]) n = Err e.
Proof.
  induction d as [|y d IH]; intros here n H; [discriminate H|].
  destruct n as [f|es|]; simpl; eauto.
  rewrite statAt_dir in H. destruct (entry y es) as [m|] eqn:E.
  - destruct (IH (here ++ [y]) m H) as [e ->]. simpl. eauto.
  - destruct d; simpl; eauto.
Qed.

Lemma stays_ret {A} (a : A) I : stays (ret a) I.
Proof. intros w x w' HI [= <- <-]. exact HI. Qed.

Lemma stays_bind {A B} (m : M A) (k : A -> M B) I :
  stays m I -> (forall a, stays (k a) I) -> stays (bind m k) I.
Proof.
  intros Hm Hk w b w' HI H. apply bind_ok in H.
  destruct H as (a & w1 & H1 & H2).
  exact (Hk a _ _ _ (Hm _ _ _ HI H1) H2).
Qed.

Lemma stays_when b m I : stays m I -> stays (when b m) I.
Proof. intros H. destruct b; [exact H|apply stays_ret]. Qed.

Lemma stays_if {A} (b : bool) (m1 m2 : M A) I :
  stays m1 I -> stays m2 I -> stays (if b then m1 else m2) I.
Proof. now destruct b. Qed.

Lemma stays_update upd d p c :
  p <> d ->
  stays (bind (onTarget p (updateFile upd [] p))
              (fun _ w => (Ok tt, logWrite p c w))) (absent d).
Proof.
  intros Hne w [] w' (t & Ht & Hd) H. apply bind_ok in H.
  destruct H as ([] & w1 & H1 & H2). injection H2 as <-.
  apply onTarget_ok in H1. destruct H1 as (t0 & t' & Ht0 & Hop & ->).
  rewrite Ht in Ht0. injection Ht0 as <-.
  exists t'. split; [reflexivity|].
  rewrite (updateFile_stat _ _ _ _ _ Hop d); [exact Hd|congruence].
Qed.

Lemma stays_writeFile d p c : p <> d -> stays (writeFile p c) (absent d).
Proof. intros Hne w a w' HI H. exact (stays_update _ d p c Hne w a w' HI H). Qed.

Lemma stays_appendFile d p c : p <> d -> stays (appendFile p c) (absent d).
Proof. intros Hne w a w' HI H. exact (stays_update _ d p c Hne w a w' HI H). Qed.

Lemma stays_ensureDir d q :
  isPrefix d q = false -> stays (ensureDir q) (absent d).
Proof.
  intros Hp w [] w' (t & Ht & Hd) H.
  apply ensureDir_ok in H. destruct H as (t0 & Ht0 & _ & ->).
  rewrite Ht in Ht0. injection Ht0 as <-.
  eexists. split; [reflexivity|].
  now rewrite (ensureDirAt_stat _ _ _ _ d Hp).
Qed.

Lemma stays_pathExists p I : stays (pathExists p) I.
Proof. intros w b w' HI [= <- <-]. exact HI. Qed.

Lemma stays_readFile p I : stays (readFile p) I.
Proof.
  intros w c w' HI H. apply readFile_ok in H. now destruct H as [-> _].
Qed.

Lemma doomed_bind_now {A B} (m : M A) (k : A -> M B) I :
  doomed m I -> doomed (bind m k) I.
Proof.
  intros Hm w HI b w' H. apply bind_ok in H.
  destruct H as (a & w1 & H1 & _). exact (Hm w HI a w1 H1).
Qed.

Lemma doomed_bind_later {A B} (m : M A) (k : A -> M B) I :
  stays m I -> (forall a, doomed (k a) I) -> doomed (bind m k) I.
Proof.
  intros Hm Hk w HI b w' H. apply bind_ok in H.
  destruct H as (a & w1 & H1 & H2).
  exact (Hk a w1 (Hm _ _ _ HI H1) b w' H2).
Qed.

Lemma doomed_writeFile d x c :
  doomed (writeFile (d ++ [x]) c) (absent d).
Proof.
  intros w (t & Ht & Hd) [] w' H. apply writeFile_ok in H.
  destruct H as (t0 & t' & Ht0 & Hop & _).
  rewrite Ht in Ht0. injection Ht0 as <-.
  destruct (updateFile_no_parent
              (writeUpd (refuses w (Create (d ++ [x]))) (d ++ [x]) c)
              x d [] t Hd) as [e He].
  rewrite He in Hop. discriminate.
Qed.

Ltac stays_auto :=
  repeat first
    [ apply stays_ret
    | apply stays_writeFile; discriminate
    | apply stays_appendFile; discriminate
    | apply stays_ensureDir; reflexivity
    | apply stays_pathExists | apply stays_readFile
    | apply stays_when | apply stays_if
    | apply stays_bind; [|intros ?] ].

(** X23.  The FastAPI generator writes [app/core/config.py] without
    making the directory: on a target directory in which [app] is
    missing, or is a directory without [core], [generateOptionalFiles]
    cannot succeed unless the option [logging], whose step makes the
    directory, is selected. *)
Theorem core_directory_is_required (bodies : FileBodies)
    (options : GeneratorOptions) (w : world) (t : node) :
  target w = Some t ->
  statAt [] t = Some SDir ->
  statAt ["app"] t = None \/ statAt ["app"] t = Some SDir ->
  statAt ["app"; "core"] t = None ->
  truthy (default ∅ (Types.options options) !! "logging") = false ->
  forall w', generateOptionalFiles bodies options w <> (Ok tt, w').
Proof.
  intros Ht _ _ Hd Hl w'.
  assert (HI : absent ["app"; "core"] w) by (exists t; auto).
  assert (D : doomed (generateOptionalFiles bodies options)
                     (absent ["app"; "core"])).
  { unfold generateOptionalFiles. cbv zeta. rewrite Hl.
    unfold generateRequirementsTxt, generateORMFiles, generateMigrationFiles,
      generateDockerFiles, generateDockerCompose, generateTestFiles,
      generateEnvFiles, generateProdConfig, generateDevConfig,
      generateLinterConfig, generateFormatterConfig, generatePreCommitConfig,
      generateMonitoring, generateREADME, generateMainPy, generateConfigPy.
    cbv zeta.
    do 16 (apply doomed_bind_later; [stays_auto|intros _]).
    apply doomed_bind_now.
    exact (doomed_writeFile ["app"; "core"] "config.py" _). }
  exact (D w HI tt w').
Qed.

Lemma core_directory_is_required_witness :
  generateOptionalFiles Samples.demoBodies (Samples.request "demo" None)
    Samples.takenWorld
  <> (Ok tt,
      (generateOptionalFiles Samples.demoBodies (Samples.request "demo" None)
         Samples.takenWorld).2).
Proof.
  exact (core_directory_is_required Samples.demoBodies
           (Samples.request "demo" None) Samples.takenWorld (NDir [])
           eq_refl eq_refl (or_introl eq_refl) eq_refl eq_refl _).
Defined.

End DoomedFacts.

(** ** [runPrompts] *)
Module RunPromptsFacts.
Import Js Types Utils Prompts.

Lemma selected_empty_iff checked : selected checked = ∅ <-> checked = [].
Proof.
  split; [|now intros ->].
  destruct checked as [|c rest]; [reflexivity|]. intros H.
  pose proof (PromptFacts.selected_lookup (c :: rest) c) as L.
  rewrite H, lookup_empty in L. unfold arrIncludes in L. simpl in L.
  rewrite String.eqb_refl in L. discriminate L.
Qed.

(** X24.  What [runPrompts] returns: a project name that passes
    [validateProjectName], the initial name included; the language and the
    framework chosen; and as options the map that holds [true] for the
    boxes ticked, or [undefined] when no box is ticked or no option is
    offered. *)
Theorem runPrompts_result (initialProjectName : option string)
    (availableOptions : list string) (a : Answers) (r : PromptResult) :
  runPrompts initialProjectName availableOptions a = Some r ->
  validateProjectName (projectName r) = true /\
  language r = chosenLanguage a /\
  framework r = chosenFramework a /\
  (options r = None <-> availableOptions = [] \/ checkedOptions a = []) /\
  (forall o, options r = Some o ->
             o = selected (checkedOptions a) /\
             forall k, o !! k = if arrIncludes k (checkedOptions a)
                                then Some (VBool true) else None).
Proof.
  unfold runPrompts.
  destruct (promptProjectName initialProjectName (typedNames a)) as [n|] eqn:En;
    [|discriminate].
  intros [= <-]. simpl.
  split.
  { unfold promptProjectName in En. destruct initialProjectName as [i|].
    - destruct (negb (isEmpty i) && validateProjectName i) eqn:E.
      + injection En as <-. now apply andb_true_iff in E.
      + now apply PromptFacts.find_accepted in En.
    - now apply PromptFacts.find_accepted in En. }
  split; [reflexivity|]. split; [reflexivity|].
  assert (Ho : (if 0 <? length availableOptions
                then promptOptions availableOptions (checkedOptions a)
                else ∅)
               = if 0 <? length availableOptions
                 then selected (checkedOptions a) else ∅).
  { unfold promptOptions. now destruct availableOptions. }
  rewrite Ho. clear Ho. unfold orUndefined.
  destruct availableOptions as [|x l]; simpl.
  - split; [split; auto|]. intros o H. discriminate H.
  - destruct (0 <? size (selected (checkedOptions a))) eqn:Es.
    + apply Nat.ltb_lt in Es. split.
      * split; [discriminate|]. intros [H|H]; [discriminate|].
        rewrite H in Es. exfalso. unfold selected in Es. simpl in Es.
        rewrite map_size_empty in Es. lia.
      * intros o [= <-]. split; [reflexivity|].
        intros k. apply PromptFacts.selected_lookup.
    + apply Nat.ltb_ge in Es. split.
      * split; [|reflexivity]. intros _. right.
        apply selected_empty_iff. apply map_size_empty_iff. lia.
      * intros o H. discriminate H.
Qed.

Lemma runPrompts_result_witness :
  validateProjectName "my-api" = true /\
  PYTHON = PYTHON /\ FASTAPI = FASTAPI /\
  (Some (selected ["orm"]) = None <->
   ["orm"; "migrations"; "docker"; "tests"] = [] \/ ["orm"] = []) /\
  (forall o, Some (selected ["orm"]) = Some o ->
             o = selected ["orm"] /\
             forall k, o !! k = if arrIncludes k ["orm"]
                                then Some (VBool true) else None).
Proof.
  exact (runPrompts_result (Some "a/b")
           ["orm"; "migrations"; "docker"; "tests"]
           {| typedNames := [" "; "my-api"]; chosenLanguage := PYTHON;
              chosenFramework := FASTAPI; checkedOptions := ["orm"] |}
           {| projectName := "my-api"; language := PYTHON;
              framework := FASTAPI; options := Some (selected ["orm"]) |}
           eq_refl).
Defined.

End RunPromptsFacts.

(** ** The manifest is always written, with its defaults, as a text *)
Module ManifestTextFacts.
Import Js Types Fs Base Effects RunFacts ExtendsFacts FastAPI StringFacts.
Import Requirements RequirementsAux RequirementsFacts ManifestText.
Local Open Scope fs_scope.

#[local] Arguments Ascii.eqb : simpl never.












End ManifestTextFacts.

(** ** The substitution in a text with braces of its own *)
Module MarkFacts.
Import Js Base Tokens Marks StringFacts PlaceholderFacts.

#[local] Arguments Ascii.eqb : simpl never.

Lemma isBraceFree_spec s : isBraceFree s = true <-> braceFree s.
Proof.
  unfold isBraceFree, braceFree. rewrite forallb_forall, List.Forall_forall.
  split; intros H c Hc; specialize (H c Hc).
  - apply andb_true_iff in H. destruct H as [H1 H2].
    split; intros ->; now rewrite Ascii.eqb_refl in *.
  - destruct H as [H1 H2].
    destruct (Ascii.eqb_spec c "{"), (Ascii.eqb_spec c "}"); simpl; congruence.
Qed.

Lemma verbatim_dollarFree v : dollarFree v -> verbatim v = true.
Proof.
  unfold dollarFree. induction v as [|c r IH]; intros H; [reflexivity|].
  inversion H as [|? ? Hc Hr]; subst. cbn [verbatim].
  destruct (Ascii.eqb_spec c "$"); [contradiction | auto].
Qed.

Lemma getSubstitution_verbatim matched before after v :
  verbatim v = true -> getSubstitution matched before after v = v.
Proof.
  induction v as [|c r IH]; intros H; [reflexivity|].
  cbn [verbatim getSubstitution] in *.
  destruct (Ascii.eqb c "$").
  - destruct r as [|d r']; [reflexivity|].
    apply andb_true_iff in H. destruct H as [Hd Hr].
    apply negb_true_iff in Hd. apply orb_false_iff in Hd. destruct Hd as [Hd H4].
    apply orb_false_iff in Hd. destruct Hd as [Hd H3].
    apply orb_false_iff in Hd. destruct Hd as [H1 H2].
    rewrite H1, H2, H3, H4. now rewrite IH.
  - now rewrite IH.
Qed.

Lemma startsWith_app_elim q :
  forall a b,
    startsWith q (a +:+ b) = true ->
    (exists a', a = q +:+ a') \/
    (exists q', q = a +:+ q' /\ startsWith q' b = true).
Proof.
  induction q as [|x q IH]; intros a b H.
  - left. now exists a.
  - destruct a as [|y a].
    + right. now exists (String x q).
    + change (String y a +:+ b) with (String y (a +:+ b)) in H.
      cbn [startsWith] in H. apply andb_true_iff in H. destruct H as [E H].
      apply Ascii.eqb_eq in E. subst y.
      destruct (IH _ _ H) as [[a' ->]|(q' & -> & Hq)].
      * left. now exists a'.
      * right. now exists q'.
Qed.

Lemma startsWith_app_l q a b :
  startsWith q a = true -> startsWith q (a +:+ b) = true.
Proof.
  rewrite !startsWith_iff. intros [r ->]. exists (r +:+ b).
  apply append_assoc.
Qed.

Lemma startsWith_app_r a q b :
  startsWith q b = true -> startsWith (a +:+ q) (a +:+ b) = true.
Proof.
  rewrite !startsWith_iff. intros [r ->]. exists r.
  now rewrite append_assoc.
Qed.

Lemma includes_middle v pre post : includes v (pre +:+ v +:+ post) = true.
Proof.
  induction pre as [|x pre IH].
  - cbn [String.append]. destruct (v +:+ post) eqn:E; cbn [includes];
      rewrite <- E, startsWith_append; reflexivity.
  - change (String x pre +:+ v +:+ post) with (String x (pre +:+ v +:+ post)).
    cbn [includes]. rewrite IH. apply orb_true_r.
Qed.

(** The end of a token, when it is not empty, holds a closing brace. *)
Lemma token_end_brace k pre q :
  placeholder k = pre +:+ q -> q <> EmptyString -> isBraceFree q = false.
Proof.
  intros E Hq.
  assert (Hc : chars (placeholder k)
               = chars ("{{" +:+ k +:+ "}") ++ ["}"%char]).
  { unfold placeholder. rewrite !chars_append, <- !app_assoc. reflexivity. }
  rewrite E, chars_append in Hc.
  assert (Hne : chars q <> []) by (destruct q; [congruence | discriminate]).
  rewrite (app_removelast_last "}"%char Hne), app_assoc in Hc.
  apply app_inj_tail in Hc. destruct Hc as [_ Hl].
  unfold isBraceFree. rewrite (app_removelast_last "}"%char Hne).
  rewrite forallb_app, Hl. simpl. apply andb_false_r.
Qed.

Lemma isBraceFree_append a b :
  isBraceFree (a +:+ b) = isBraceFree a && isBraceFree b.
Proof. unfold isBraceFree. now rewrite chars_append, forallb_app. Qed.

(** Replacing the tokens of one key by a value creates no start of a
    token: whatever end of a token starts the new text started the old
    one. *)
Lemma transfer k v k' segs :
  isBraceFree v = true -> includes v (placeholder k') = false ->
  forall pre q,
    placeholder k' = pre +:+ q ->
    startsWith q (render (map (resolveKey k v) segs)) = true ->
    startsWith q (render segs) = true.
Proof.
  intros Hv Hi. induction segs as [|seg segs IH]; intros pre q E H;
    [exact H|].
  assert (Hsame : forall t,
            startsWith q (t +:+ render (map (resolveKey k v) segs)) = true ->
            startsWith q (t +:+ render segs) = true).
  { intros t Ht. destruct (startsWith_app_elim _ _ _ Ht)
      as [[a' ->]|(q' & -> & Hq)].
    - rewrite append_assoc. apply startsWith_append.
    - apply startsWith_app_r. apply (IH (pre +:+ t) q'); [|exact Hq].
      now rewrite append_assoc. }
  destruct seg as [s|k0]; cbn [map resolveKey render renderSegment] in *.
  - now apply Hsame.
  - destruct (String.eqb k0 k); cbn [renderSegment] in *; [|now apply Hsame].
    destruct q as [|x q]; [reflexivity|].
    exfalso. destruct (startsWith_app_elim _ _ _ H) as [[a' Ha]|(q' & Hq & _)].
    + assert (Hb : isBraceFree (String x q) = false)
        by (apply (token_end_brace k' pre); [exact E | discriminate]).
      rewrite Ha, isBraceFree_append, Hb in Hv. discriminate.
    + rewrite Hq in E. rewrite E, includes_middle in Hi. discriminate.
Qed.

Lemma startsToken_false keys s k :
  startsToken keys s = false -> In k keys ->
  startsWith (placeholder k) s = false.
Proof.
  unfold startsToken. intros H Hk.
  destruct (startsWith (placeholder k) s) eqn:E; [|reflexivity].
  assert (existsb (fun k => startsWith (placeholder k) s) keys = true)
    by (apply existsb_exists; eauto).
  congruence.
Qed.

Lemma startsToken_true keys s :
  startsToken keys s = true ->
  exists k, In k keys /\ startsWith (placeholder k) s = true.
Proof. unfold startsToken. now rewrite existsb_exists. Qed.

Lemma clear_transfer keys s rest rest' :
  (forall k', In k' keys -> forall pre q,
     placeholder k' = pre +:+ q ->
     startsWith q rest' = true -> startsWith q rest = true) ->
  clear keys s rest = true -> clear keys s rest' = true.
Proof.
  intros Ht. induction s as [|c s IH]; intros H; [reflexivity|].
  cbn [clear] in *. apply andb_true_iff in H. destruct H as [H1 H2].
  apply andb_true_iff. split; [|now apply IH].
  apply negb_true_iff in H1. apply negb_true_iff.
  destruct (startsToken keys (String c s +:+ rest')) eqn:E; [|reflexivity].
  apply startsToken_true in E. destruct E as (k' & Hk' & E).
  pose proof (startsToken_false _ _ _ H1 Hk') as F.
  destruct (startsWith_app_elim _ _ _ E) as [[a' Ha]|(q' & Hq & Hs)].
  - rewrite Ha, append_assoc, startsWith_append in F. discriminate.
  - rewrite Hq in F.
    rewrite (startsWith_app_r (String c s) q' rest) in F; [discriminate|].
    apply (Ht k' Hk' (String c s) q'); [exact Hq | exact Hs].
Qed.

Lemma placeholder_head k s c :
  c <> "{"%char -> startsWith (placeholder k) (String c s) = false.
Proof.
  intros Hc. rewrite placeholder_eq. cbn [startsWith].
  destruct (Ascii.eqb_spec "{" c); [congruence | reflexivity].
Qed.

(** A stretch without an opening brace holds no start of a token. *)
Lemma clear_noOpen keys s rest :
  Forall (fun c => c <> "{"%char) (chars s) -> clear keys s rest = true.
Proof.
  induction s as [|c s IH]; intros H; [reflexivity|].
  inversion H as [|? ? Hc Hs]; subst. cbn [clear].
  rewrite IH by assumption. rewrite andb_true_r. apply negb_true_iff.
  change (String c s +:+ rest) with (String c (s +:+ rest)).
  unfold startsToken.
  destruct (existsb _ keys) eqn:E; [|reflexivity].
  apply existsb_exists in E. destruct E as (k & _ & E).
  now rewrite placeholder_head in E.
Qed.

Lemma wellFormed_marked keys segs :
  wellFormed segs -> marked keys segs = true.
Proof.
  unfold wellFormed. induction 1 as [|seg segs Hseg _ IH]; [reflexivity|].
  destruct seg as [s|k]; cbn [marked]; rewrite IH, andb_true_r.
  - now apply clear_noOpen, braceFree_noOpen.
  - now apply isBraceFree_spec.
Qed.

(** One turn of the loop keeps the tokens marked. *)
Lemma resolveKey_marked keys k v segs :
  isBraceFree v = true -> apart keys v = true ->
  marked keys segs = true -> marked keys (map (resolveKey k v) segs) = true.
Proof.
  intros Hv Ha. induction segs as [|seg segs IH]; intros H; [reflexivity|].
  destruct seg as [s|k0]; cbn [map resolveKey marked] in *;
    apply andb_true_iff in H; destruct H as [H1 H2].
  - rewrite IH by assumption. rewrite andb_true_r.
    apply (clear_transfer keys s (render segs)); [|exact H1].
    intros k' Hk' pre q E.
    assert (Hi : includes v (placeholder k') = false).
    { unfold apart in Ha. rewrite forallb_forall in Ha.
      apply negb_true_iff. now apply Ha. }
    exact (transfer k v k' segs Hv Hi pre q E).
  - destruct (String.eqb k0 k); cbn [marked]; rewrite IH by assumption.
    + rewrite andb_true_r. apply clear_noOpen, braceFree_noOpen.
      now apply isBraceFree_spec.
    + now rewrite H1.
Qed.

Lemma replaceFrom_clear keys k v s rest :
  In k keys -> clear keys s rest = true ->
  forall before,
    replaceFrom (placeholder k) v before 0 (s +:+ rest) =
    s +:+ replaceFrom (placeholder k) v (before +:+ s) 0 rest.
Proof.
  intros Hk. induction s as [|c s IH]; intros H before.
  - simpl. now rewrite append_empty_r.
  - cbn [clear] in H. apply andb_true_iff in H. destruct H as [H1 H2].
    apply negb_true_iff in H1.
    pose proof (startsToken_false _ _ _ H1 Hk) as F.
    change (String c s +:+ rest) with (String c (s +:+ rest)) in *.
    cbn [replaceFrom]. rewrite F, IH by assumption.
    now rewrite append_snoc.
Qed.

Lemma replaceFrom_token_verbatim k v before rest :
  verbatim v = true ->
  exists before',
    replaceFrom (placeholder k) v before 0 (placeholder k +:+ rest) =
    v +:+ replaceFrom (placeholder k) v before' 0 rest.
Proof.
  intros Hv. rewrite !placeholder_eq.
  set (pat' := String "{" (k +:+ "}}")).
  change (String "{" pat' +:+ rest) with (String "{" (pat' +:+ rest)).
  eexists. cbn [replaceFrom].
  change (String "{" (pat' +:+ rest)) with (String "{" pat' +:+ rest).
  rewrite startsWith_append, getSubstitution_verbatim by assumption.
  change (String.length (String "{" pat') - 1) with (String.length pat' - 0).
  rewrite Nat.sub_0_r, (replaceFrom_skip _ _ pat' _ _ _ eq_refl).
  reflexivity.
Qed.

(** One turn of the loop on a text whose tokens are marked. *)
Lemma replaceAll_marked keys k v segs :
  In k keys -> braceFree k -> verbatim v = true ->
  marked keys segs = true ->
  forall before,
    replaceFrom (placeholder k) v before 0 (render segs) =
    render (map (resolveKey k v) segs).
Proof.
  intros Hin Hk Hv.
  induction segs as [|seg segs IH]; intros H before; [reflexivity|].
  destruct seg as [s|k0]; cbn [marked render renderSegment map resolveKey] in *;
    apply andb_true_iff in H; destruct H as [H1 H2].
  - rewrite (replaceFrom_clear keys) by assumption. now rewrite IH.
  - destruct (String.eqb_spec k0 k) as [->|Hne].
    + destruct (replaceFrom_token_verbatim k v before (render segs) Hv)
        as [b' ->].
      cbn [renderSegment]. now rewrite IH.
    + destruct (replaceFrom_token_other k k0 v before (render segs))
        as [b' ->]; try assumption; [now apply isBraceFree_spec|].
      cbn [renderSegment]. now rewrite IH.
Qed.

Lemma resolve_nil segs : map (resolve []) segs = segs.
Proof.
  induction segs as [|[s|k] segs IH]; simpl; now rewrite ?IH.
Qed.

(** The whole loop on a text whose marking is stable: the values may be
    any texts that [GetSubstitution] copies as they are, and the text may
    hold braces of its own. *)
Lemma substitute_stable keys repl :
  Forall (fun kv => In kv.1 keys /\ braceFree kv.1 /\ verbatim kv.2 = true)
         repl ->
  forall segs,
    stable keys repl segs = true ->
    substitute repl (render segs) = render (map (resolve repl) segs) /\
    marked keys (map (resolve repl) segs) = true.
Proof.
  unfold substitute.
  induction repl as [|[k v] repl IH]; intros Hp segs Hs.
  - rewrite resolve_nil. cbn [stable] in Hs. rewrite andb_true_r in Hs.
    now split.
  - inversion Hp as [|? ? (Hin & Hk & Hv) Hrest]; subst.
    simpl in Hin, Hk, Hv.
    cbn [stable] in Hs. apply andb_true_iff in Hs. destruct Hs as [Hm Hs].
    cbn [foldl fst snd]. unfold replaceAll.
    rewrite (replaceAll_marked keys) by assumption.
    destruct (IH Hrest _ Hs) as [E M].
    rewrite map_map in E, M.
    rewrite (map_ext _ _ (fun seg => resolve_cons k v repl seg)) in E, M.
    now split.
Qed.

(** The marking is stable when the values hold no brace and either
    braces occur in the text only as delimiters of tokens or the values
    are apart from the tokens. *)
Lemma stable_sufficient keys repl :
  Forall (fun kv => isBraceFree kv.2 = true) repl ->
  forall segs,
    marked keys segs = true ->
    wellFormed segs \/ Forall (fun kv => apart keys kv.2 = true) repl ->
    stable keys repl segs = true.
Proof.
  induction repl as [|[k v] repl IH]; intros Hp segs Hm Hc;
    cbn [stable]; rewrite Hm; [reflexivity|].
  inversion Hp as [|? ? Hv Hrest]; subst. simpl in Hv. cbn [andb].
  apply IH; [exact Hrest| |].
  - destruct Hc as [Hw|Ha].
    + apply wellFormed_marked. apply resolveKey_wellFormed; [|exact Hw].
      now apply isBraceFree_spec.
    + inversion Ha; subst. now apply resolveKey_marked.
  - destruct Hc as [Hw|Ha].
    + left. apply resolveKey_wellFormed; [|exact Hw].
      now apply isBraceFree_spec.
    + right. now inversion Ha.
Qed.

Lemma includes_clear keys k s rest :
  In k keys -> clear keys s rest = true ->
  includes (placeholder k) (s +:+ rest) = includes (placeholder k) rest.
Proof.
  intros Hk. induction s as [|c s IH]; intros H; [reflexivity|].
  cbn [clear] in H. apply andb_true_iff in H. destruct H as [H1 H2].
  apply negb_true_iff in H1.
  pose proof (startsToken_false _ _ _ H1 Hk) as F.
  change (String c s +:+ rest) with (String c (s +:+ rest)) in *.
  cbn [includes]. rewrite F. cbn [orb]. now apply IH.
Qed.

(** No token of a key is in a text whose marked tokens have other keys. *)
Lemma includes_marked keys k segs :
  In k keys -> braceFree k -> marked keys segs = true ->
  (forall k', In (Token k') segs -> k' <> k) ->
  includes (placeholder k) (render segs) = false.
Proof.
  intros Hin Hk.
  induction segs as [|seg segs IH]; intros H Hno; [reflexivity|].
  assert (Hno' : forall k', In (Token k') segs -> k' <> k)
    by (intros k' Hk'; apply Hno; now right).
  destruct seg as [s|k0]; cbn [marked render renderSegment] in *;
    apply andb_true_iff in H; destruct H as [H1 H2].
  - rewrite (includes_clear keys) by assumption. now apply IH.
  - rewrite includes_token_other; try assumption.
    + now apply IH.
    + now apply isBraceFree_spec.
    + apply Hno. now left.
Qed.

End MarkFacts.

(** ** The placeholder pass on texts with braces of their own *)
Module TokenFacts.
Import Js Types Fs Base Effects Tokens Marks FsFacts PassFacts RunFacts.
Import StringFacts PlaceholderFacts MarkFacts FastAPI Samples PassSamples.
Import TokenSamples.

#[local] Arguments Ascii.eqb : simpl never.

Lemma tokensFrom_skip keys a :
  forall n b,
    String.length a = n ->
    tokensFrom keys n (a +:+ b) = tokensFrom keys 0 b.
Proof.
  induction a as [|c a IH]; intros n b Hn; simpl in *.
  - now subst n.
  - subst n. now apply IH.
Qed.

Lemma find_token keys s k :
  find (fun k => startsWith (placeholder k) s) keys = Some k ->
  In k keys /\
  exists r, s = placeholder k +:+ r /\
            tokensFrom keys (String.length (placeholder k) - 1)
                       (dropS 1 s) = tokensFrom keys 0 r.
Proof.
  intros F. apply find_some in F. destruct F as [Hk F].
  split; [exact Hk|]. apply startsWith_iff in F. destruct F as [r ->].
  exists r. split; [reflexivity|].
  rewrite placeholder_eq.
  change (dropS 1 (String "{" (String "{" (k +:+ "}}")) +:+ r))
    with (String "{" (k +:+ "}}") +:+ r).
  apply tokensFrom_skip. simpl. lia.
Qed.

(** The cut [tokens] of a text: it renders the text, it marks the tokens
    of the keys, and it marks nothing else. *)
Lemma tokens_spec keys s :
  (forall k, In k keys -> braceFree k) ->
  render (tokens keys s) = s /\
  marked keys (tokens keys s) = true /\
  (forall k, In (Token k) (tokens keys s) -> In k keys).
Proof.
  intros Hkeys. unfold tokens.
  assert (G : forall n s, String.length s <= n ->
            render (tokensFrom keys 0 s) = s /\
            marked keys (tokensFrom keys 0 s) = true /\
            (forall k, In (Token k) (tokensFrom keys 0 s) -> In k keys)).
  { clear s. induction n as [|n IH]; intros s Hn.
    - destruct s; [|simpl in Hn; lia]. simpl. repeat split. intros k [].
    - destruct s as [|c s']; [simpl; repeat split; intros k []|].
      cbn [tokensFrom].
      destruct (find (fun k => startsWith (placeholder k) (String c s')) keys)
        as [k|] eqn:F.
      + destruct (find_token _ _ _ F) as (Hk & r & E & T).
        change (dropS 1 (String c s')) with s' in T. rewrite T.
        assert (Hr : String.length r <= n).
        { apply (f_equal String.length) in E. rewrite length_append in E.
          rewrite placeholder_eq in E. simpl in E, Hn. lia. }
        destruct (IH r Hr) as (R & M & K).
        cbn [render renderSegment marked]. rewrite R, M.
        split; [now rewrite E|]. split.
        * rewrite andb_true_r. now apply isBraceFree_spec, Hkeys.
        * intros k' [Ek|Hin]; [now injection Ek as <- | now apply K].
      + assert (Hs : String.length s' <= n) by (simpl in Hn; lia).
        destruct (IH s' Hs) as (R & M & K).
        cbn [render renderSegment marked clear]. rewrite R, M.
        split; [reflexivity|]. split.
        * rewrite !andb_true_r. apply negb_true_iff.
          change (String c EmptyString +:+ s') with (String c s').
          unfold startsToken.
          destruct (existsb _ keys) eqn:E; [|reflexivity].
          apply existsb_exists in E. destruct E as (k & Hk & E).
          now rewrite (find_none _ _ F k Hk) in E.
        * intros k' [Ek|Hin]; [discriminate | now apply K]. }
  apply (G (String.length s)). lia.
Qed.

Lemma recognized_braceFree k : In k recognized -> braceFree k.
Proof.
  destruct SubstitutionFacts.braceFree_literal_keys as (K1 & K2 & K3).
  intros [<-|[<-|[<-|[]]]]; assumption.
Qed.

Lemma replacements_verbatim name :
  verbatim name = true ->
  Forall (fun kv => In kv.1 recognized /\ braceFree kv.1 /\
                    verbatim kv.2 = true)
         (replacements name).
Proof.
  intros Hv.
  destruct (SubstitutionFacts.toSnakeCase_plain name) as [S1 S2].
  destruct (SubstitutionFacts.toKebabCase_plain name) as [B1 B2].
  unfold replacements.
  repeat (apply List.Forall_cons;
          [cbn [fst snd];
           split; [simpl; tauto|];
           split; [apply recognized_braceFree; simpl; tauto|];
           first [assumption | now apply verbatim_dollarFree]|]).
  apply List.Forall_nil.
Qed.

Lemma replacements_braceFree name :
  isBraceFree name = true ->
  Forall (fun kv => isBraceFree kv.2 = true) (replacements name).
Proof.
  intros Hb.
  destruct (SubstitutionFacts.toSnakeCase_plain name) as [S1 S2].
  destruct (SubstitutionFacts.toKebabCase_plain name) as [B1 B2].
  unfold replacements.
  repeat (apply List.Forall_cons;
          [cbn [snd]; first [assumption | now apply isBraceFree_spec]|]).
  apply List.Forall_nil.
Qed.

Lemma formsApart_values name :
  formsApart name = true ->
  Forall (fun kv => apart recognized kv.2 = true) (replacements name).
Proof.
  unfold formsApart. cbn [forallb]. rewrite !andb_true_iff.
  intros (A1 & A2 & A3 & _). unfold replacements.
  repeat (apply List.Forall_cons; [assumption|]). apply List.Forall_nil.
Qed.

(** Each of the two conditions of [covered] makes the marking stable. *)
Lemma covered_stable name segs :
  isBraceFree name = true -> covered name segs ->
  stable recognized (replacements name) segs = true.
Proof.
  intros Hb Hc. apply stable_sufficient.
  - now apply replacements_braceFree.
  - destruct Hc as [Hw|[Hm _]]; [now apply wellFormed_marked | exact Hm].
  - destruct Hc as [Hw|[_ Ha]]; [now left | right].
    now apply formsApart_values.
Qed.

(** The pass on one text, for a project name that [GetSubstitution]
    copies as it is. *)
Lemma substitute_covered name segs :
  verbatim name = true ->
  stable recognized (replacements name) segs = true ->
  substitute (replacements name) (render segs)
    = render (map (resolve (replacements name)) segs) /\
  forall k, In k recognized ->
    includes (placeholder k)
             (substitute (replacements name) (render segs)) = false.
Proof.
  intros Hv Hs.
  destruct (substitute_stable recognized (replacements name)
              (replacements_verbatim name Hv) segs Hs) as [E M].
  split; [exact E|]. intros k Hk. rewrite E.
  apply (includes_marked recognized); try assumption.
  - now apply recognized_braceFree.
  - intros k' Hin <-.
    now apply (resolve_tokens (replacements name) segs k').
Qed.

(** C3 (as amended).  Let [GetSubstitution] copy the project name as it
    is (no dollar sign in it is followed by a dollar sign, an ampersand,
    a backquote or a quote), and let the pass run with the replacement
    map of the FastAPI generator.  Take a file that can be read and
    written back and a cut of its text that marks the tokens
    [{{projectName}}], [{{projectNameSnake}}] and [{{projectNameKebab}}];
    the text may hold braces of its own, and marked tokens with other
    keys.  If no turn of the loop completes one of the three tokens out
    of a value and the text around it, then every marked token with one
    of the three keys is replaced by its value, none of the three tokens
    is in the text of the file after the pass, and the marked tokens
    with other keys stay as they are, like the text between the marked
    tokens.  For a name without a brace, no turn completes a token in a
    cut that marks the three tokens when the three forms of the name are
    apart from the tokens, nor in a cut of a text in which braces occur
    only as delimiters of tokens.  Every text has a cut that marks the
    three tokens: [tokens] gives one. *)
Theorem placeholders_substituted (name : string) (w w' : world)
    (p : path) (f : file) (segs : list segment) :
  verbatim name = true ->
  replacePlaceholders (replacements name) w = (Ok tt, w') ->
  fileAtW p w = Some f -> rewritable f = true ->
  content f = render segs ->
  stable recognized (replacements name) segs = true ->
  (exists f',
    fileAtW p w' = Some f' /\
    content f' = render (map (resolve (replacements name)) segs) /\
    (forall k, In k recognized ->
               includes (placeholder k) (content f') = false)) /\
  resolve (replacements name) (Token "projectName") = Plain name /\
  resolve (replacements name) (Token "projectNameSnake")
    = Plain (toSnakeCase name) /\
  resolve (replacements name) (Token "projectNameKebab")
    = Plain (toKebabCase name) /\
  (forall k, ~ In k recognized ->
             resolve (replacements name) (Token k) = Token k) /\
  (forall s, resolve (replacements name) (Plain s) = Plain s) /\
  (forall segs' : list segment,
     isBraceFree name = true -> covered name segs' ->
     stable recognized (replacements name) segs' = true) /\
  (forall text : string,
     render (tokens recognized text) = text /\
     marked recognized (tokens recognized text) = true /\
     (forall k, In (Token k) (tokens recognized text) -> In k recognized) /\
     (isBraceFree name = true -> formsApart name = true ->
      stable recognized (replacements name) (tokens recognized text) = true)).
Proof.
  intros Hv Hrun Hf Hrw Hc Hs.
  split; [|repeat split; try reflexivity].
  - rewrite (SubstitutionFacts.replacePlaceholders_fileAt _ _ _ p Hrun), Hf.
    simpl. eexists. split; [reflexivity|].
    unfold rewriteFile. rewrite Hrw. simpl. rewrite Hc.
    apply (substitute_covered name segs Hv Hs).
  - intros k Hk. simpl.
    assert (E : valueOf k (replacements name) = None)
      by now apply valueOf_None.
    simpl in E. now rewrite E.
  - intros segs' Hb Hcov. now apply covered_stable.
  - apply tokens_spec, recognized_braceFree.
  - apply tokens_spec, recognized_braceFree.
  - apply tokens_spec, recognized_braceFree.
  - intros Hb Ha. apply covered_stable; [exact Hb|].
    right. split; [|exact Ha].
    apply tokens_spec, recognized_braceFree.
Qed.

Lemma placeholders_substituted_witness :
  (exists f',
    fileAtW ["settings.py"]
      (replacePlaceholders (replacements "MyApp") dictWorld).2 = Some f' /\
    content f' = render (map (resolve (replacements "MyApp")) dictSegments) /\
    (forall k, In k recognized ->
               includes (placeholder k) (content f') = false)) /\
  resolve (replacements "MyApp") (Token "projectName") = Plain "MyApp" /\
  resolve (replacements "MyApp") (Token "projectNameSnake")
    = Plain (toSnakeCase "MyApp") /\
  resolve (replacements "MyApp") (Token "projectNameKebab")
    = Plain (toKebabCase "MyApp") /\
  (forall k, ~ In k recognized ->
             resolve (replacements "MyApp") (Token k) = Token k) /\
  (forall s, resolve (replacements "MyApp") (Plain s) = Plain s) /\
  (forall segs' : list segment,
     isBraceFree "MyApp" = true -> covered "MyApp" segs' ->
     stable recognized (replacements "MyApp") segs' = true) /\
  (forall text : string,
     render (tokens recognized text) = text /\
     marked recognized (tokens recognized text) = true /\
     (forall k, In (Token k) (tokens recognized text) -> In k recognized) /\
     (isBraceFree "MyApp" = true -> formsApart "MyApp" = true ->
      stable recognized (replacements "MyApp") (tokens recognized text)
        = true)).
Proof.
  apply (placeholders_substituted "MyApp" dictWorld
           (replacePlaceholders (replacements "MyApp") dictWorld).2
           ["settings.py"] dictFile dictSegments).
  - vm_compute. reflexivity.
  - vm_compute. reflexivity.
  - reflexivity.
  - reflexivity.
  - reflexivity.
  - vm_compute. reflexivity.
Defined.

Example settings_file_after_pass :
  fileAtW ["settings.py"]
    (replacePlaceholders (replacements "MyApp") dictWorld).2
  = Some (mkFile
      "cfg = {'name': 'MyApp', 'slug': 'my-app', 'env': {{unknown}}}"
      true true) /\
  render dictSegments = content dictFile /\
  tokens recognized "a{{projectName}}{" =
    [Plain "a"; Token "projectName"; Plain "{"].
Proof. repeat split; vm_compute; reflexivity. Qed.

(** The name [project] is a stretch of a key, so its forms are not apart
    from the tokens, and the sample text holds braces of its own; the
    marking of its cut is stable for this name all the same, and the
    theorem on the pass applies. *)
Example stable_for_a_fragment :
  formsApart "project" = false /\
  ~ wellFormed dictSegments /\
  verbatim "project" = true /\
  stable recognized (replacements "project") dictSegments = true.
Proof.
  split; [vm_compute; reflexivity|]. split; [|split; vm_compute; reflexivity].
  unfold wellFormed, dictSegments. intros H.
  apply Forall_inv in H. unfold braceFree in H. cbn [chars] in H.
  do 6 apply Forall_inv_tail in H. apply Forall_inv in H.
  destruct H as [H _]. now apply H.
Qed.

(** C3, the claim as stated fails, in three ways.  The names
    [{{projectName}}], [$&] and [a] pass the validation of project
    names.  With the first, the token of the sample file is replaced by
    the name, which is the token again; with the second, by the matched
    text, the token again: a recognized token is in the file after the
    pass.  The third name holds no brace and no dollar sign, but its
    snake form is a stretch of a key: in a text where the token
    [{{projectNameSnake}}] stands inside braces, the replacement
    completes the token [{{projectName}}], which is in the file after
    the pass. *)
Lemma placeholder_survives_the_pass :
  (Utils.validateProjectName "{{projectName}}" = true /\
   verbatim "{{projectName}}" = true /\
   stable recognized (replacements "{{projectName}}")
          (tokens recognized (content aboutFile)) = false /\
   fileAtW ["about.py"] tokenWorld = Some aboutFile /\
   rewritable aboutFile = true /\
   exists f',
     fileAtW ["about.py"]
       (replacePlaceholders (replacements "{{projectName}}") tokenWorld).2
     = Some f' /\
     includes (placeholder "projectName") (content f') = true) /\
  (Utils.validateProjectName "$&" = true /\
   isBraceFree "$&" = true /\ verbatim "$&" = false /\
   exists f',
     fileAtW ["about.py"]
       (replacePlaceholders (replacements "$&") tokenWorld).2
     = Some f' /\
     includes (placeholder "projectName") (content f') = true) /\
  (Utils.validateProjectName "a" = true /\
   isBraceFree "a" = true /\ verbatim "a" = true /\
   formsApart "a" = false /\
   stable recognized (replacements "a")
          (tokens recognized (content nestedFile)) = false /\
   fileAtW ["about.py"] nestedWorld = Some nestedFile /\
   rewritable nestedFile = true /\
   exists f',
     fileAtW ["about.py"]
       (replacePlaceholders (replacements "a") nestedWorld).2
     = Some f' /\
     content f' = "{{projectName}}" /\
     includes (placeholder "projectName") (content f') = true).
Proof.
  split; [|split].
  - split; [reflexivity|]. split; [reflexivity|].
    split; [vm_compute; reflexivity|].
    split; [reflexivity|]. split; [reflexivity|].
    eexists. split; vm_compute; reflexivity.
  - split; [reflexivity|]. split; [reflexivity|]. split; [reflexivity|].
    eexists. split; vm_compute; reflexivity.
  - split; [reflexivity|]. split; [reflexivity|]. split; [reflexivity|].
    split; [reflexivity|]. split; [vm_compute; reflexivity|].
    split; [reflexivity|]. split; [reflexivity|].
    eexists. split; [|split]; vm_compute; reflexivity.
Qed.

End TokenFacts.
